(** * ethsync.py: the synchronisation and ingestion engine

    A shallow embedding of [src/ethsync.py] (the indexer that mirrors
    Ethereum transactions into the [ethtxs] table) and the properties of
    its sync loop, reorg check, transaction decoder and store protocol.

    Python values are modelled as the code uses them: integers as [Z],
    [str] as [string], [HexBytes] as [list byte], a dictionary lookup that
    may raise [KeyError] as an [option], the table [public.ethtxs] as the
    list of its rows in insertion order.  Statements that touch the
    database, the logger or the module-level variable [latest_hash] live in
    a state-and-exception monad [M].

    What lies outside the script is a parameter: the answers of the
    Ethereum node ([Node]) and whether the database accepts an INSERT or
    a DELETE ([Db]).  Connecting to either and the wait for the node to
    be in sync are left out; the sleep between passes is kept for the
    exceptions it can raise; an exception that nothing catches ends the
    run. *)

From Stdlib Require Import ZArith List Bool Lia.
From Stdlib.Strings Require Import String Ascii Byte.
Import ListNotations.
Local Open Scope string_scope.
Local Open Scope list_scope.
Local Open Scope Z_scope.

(* ================================================================== *)
(** ** Python built-ins used by the script *)

(** [s.startswith(p)]. *)
Definition startswith (s p : string) : bool := String.prefix p s.

(** A slice bound as CPython normalises it: a negative index counts from
    the end, and the result is clamped to [0, len]. *)
Definition norm_index (len i : Z) : Z :=
  if i <? 0 then Z.max (i + len) 0 else Z.min i len.

(** [s[lo:hi]] for integer bounds (step 1). *)
Definition py_slice (s : string) (lo hi : Z) : string :=
  let n := Z.of_nat (String.length s) in
  let a := norm_index n lo in
  let b := norm_index n hi in
  if a <? b then substring (Z.to_nat a) (Z.to_nat (b - a)) s else "".

(** [s[lo:]]. *)
Definition py_slice_from (s : string) (lo : Z) : string :=
  py_slice s lo (Z.of_nat (String.length s)).

Definition hex_digit (n : N) : ascii :=
  match n with
  | 0 => "0" | 1 => "1" | 2 => "2" | 3 => "3" | 4 => "4" | 5 => "5"
  | 6 => "6" | 7 => "7" | 8 => "8" | 9 => "9" | 10 => "a" | 11 => "b"
  | 12 => "c" | 13 => "d" | 14 => "e" | _ => "f"
  end%N%char.

Definition hex2 (b : byte) : string :=
  let n := Byte.to_N b in
  String (hex_digit (n / 16)) (String (hex_digit (n mod 16)) EmptyString).

Fixpoint hex_body (bs : list byte) : string :=
  match bs with
  | [] => ""
  | b :: rest => (hex2 b ++ hex_body rest)%string
  end.

(** [HexBytes.hex()]: the bytes in lower-case hexadecimal after ["0x"]. *)
Definition HexBytes := list byte.
Definition hex (bs : HexBytes) : string := ("0x" ++ hex_body bs)%string.

(** [bool(v)] of a value that is an integer or [None]. *)
Definition py_bool (v : option Z) : bool :=
  match v with
  | Some z => negb (z =? 0)
  | None => false
  end.

(** [range(lo, hi)]. *)
Definition py_range (lo hi : Z) : list Z :=
  map (fun i => lo + Z.of_nat i) (seq 0 (Z.to_nat (hi - lo))).

(** *** [int(s)] on a [str]

    Base ten: white space around the literal is dropped, one sign may
    lead, and single underscores may separate digits.  Anything else is a
    [ValueError], here [None].  The strings of the environment are taken
    to be ASCII text, for which the white space [int] drops is the tab,
    the line feed, the vertical tab, the form feed, the carriage return
    and the space. *)
Definition is_space (c : ascii) : bool :=
  let n := N_of_ascii c in
  ((9 <=? n) && (n <=? 13) || (n =? 32))%N.

Definition digit_of (c : ascii) : option Z :=
  let n := N_of_ascii c in
  if ((48 <=? n) && (n <=? 57))%N then Some (Z.of_N n - 48) else None.

Fixpoint lstrip (l : list ascii) : list ascii :=
  match l with
  | c :: r => if is_space c then lstrip r else l
  | [] => []
  end.

Definition strip (l : list ascii) : list ascii :=
  rev (lstrip (rev (lstrip l))).

Fixpoint digits_val (acc : Z) (after_digit : bool) (l : list ascii)
  : option Z :=
  match l with
  | [] => if after_digit then Some acc else None
  | c :: r =>
      match digit_of c with
      | Some d => digits_val (10 * acc + d) true r
      | None =>
          if (Ascii.eqb c "_" && after_digit)%bool
          then digits_val acc false r
          else None
      end
  end.

Definition py_int (s : string) : option Z :=
  match strip (list_ascii_of_string s) with
  | "-"%char :: r => option_map Z.opp (digits_val 0 false r)
  | "+"%char :: r => digits_val 0 false r
  | l => digits_val 0 false l
  end.

(* ================================================================== *)
(** ** Configuration (lines 21-31)

    [environ.get(name)] is [None] for an unset variable; [x or d] takes
    the default [d] when [x] is [None] or the empty string. *)

Record Environ := mkEnviron {
  START_BLOCK : option string;
  CONFIRMATIONS_BLOCK : option string;
  PERIOD : option string
}.

(** A value that is a [str] or an [int]: [reorg_blocks] is either. *)
Inductive pyval :=
| PyStr (s : string)
| PyInt (z : Z).

Definition truthy (v : option string) : option string :=
  match v with
  | Some EmptyString => None
  | other => other
  end.

Definition get_or (v : option string) (default : string) : string :=
  match truthy v with
  | Some s => s
  | None => default
  end.

Record Config := mkConfig {
  startBlock : string;
  confirmationBlocks : string;
  reorg_blocks : pyval;
  pollingPeriod : string
}.

Definition load_config (environ : Environ) : Config :=
  {| startBlock := get_or (START_BLOCK environ) "1";
     confirmationBlocks := get_or (CONFIRMATIONS_BLOCK environ) "0";
     reorg_blocks :=
       match truthy (CONFIRMATIONS_BLOCK environ) with
       | Some s => PyStr s
       | None => PyInt 10
       end;
     pollingPeriod := get_or (PERIOD environ) "20" |}.


(* ================================================================== *)
(** ** Data model *)

(** A transaction as [web3.eth.getBlock(n, True)] returns it.  The keys
    ['from'] and ['to'] are the two the script reads under [try]: [None]
    is an absent key (the lookup raises [KeyError]); a present value may
    itself be Python's [None] (a contract creation has no recipient). *)
Record Transaction := mkTransaction {
  tx_hash : HexBytes;
  tx_from : option (option string);
  tx_to : option (option string);
  tx_value : Z;
  tx_gasPrice : Z;
  tx_input : string
}.

(** A receipt.  The key ['status'] is absent ([None]) from the receipt
    of a block before the Byzantium fork; a present value may itself be
    Python's [None]. *)
Record Receipt := mkReceipt {
  r_gasUsed : Z;
  r_status : option (option Z)
}.

Record Block := mkBlock {
  number : Z;
  hash : HexBytes;
  parentHash : HexBytes;
  timestamp : Z;
  transactions : list Transaction
}.

(** One row of [public.ethtxs], by column. *)
Record StoredRecord := mkStoredRecord {
  time : Z;
  txfrom : option string;
  txto : option string;
  value : Z;
  gas : Z;
  gasprice : Z;
  block : Z;
  txhash : string;
  contract_to : string;
  contract_value : string;
  status : bool
}.

(** What the Ethereum node answers during one pass of the loop. *)
Record Node := mkNode {
  blockNumber : Z;
  getBlock : Z -> Block;
  getTransactionReceipt : HexBytes -> Receipt
}.

(** Whether the database accepts a statement: an INSERT of a row into the
    table as it stands, a DELETE on the table as it stands.  A refused
    statement raises in [cur.execute]. *)
Record Db := mkDb {
  insert_ok : list StoredRecord -> StoredRecord -> bool;
  delete_ok : list StoredRecord -> bool
}.

(** What the script does that can be seen from outside: the blocks it
    requests and the lines it logs (by call site).  [InfoProcessed] and
    [InfoNoTransactions] carry the block they report on. *)
Inductive event :=
| GetBlock (blockHeight : Z)                          (* line 203 *)
| WarnLeadingZeros (part txhash : string)             (* line 129 *)
| ErrorFrom (txhash : string)                         (* line 138 *)
| ErrorTo (txhash : string)                           (* line 144 *)
| InfoDeleted (first last : Z)                        (* line 169 *)
| ErrorDeleteFailed (first last : Z)                  (* line 171 *)
| InfoBest (maxblockindb endblock : Z)                (* line 193 *)
| WarnReorganisation                                  (* line 207 *)
| InfoProcessed (blockHeight : Z) (blk : Block)       (* line 213 *)
| InfoNoTransactions (blockHeight : Z) (blk : Block). (* line 221 *)

Inductive exn :=
| KeyError (key : string)
| UnboundLocalError (name : string)
| TypeError
| ValueError
| OverflowError
| DatabaseError.

(* ================================================================== *)
(** ** State and exceptions *)

(** The table, the module-level [latest_hash], and the trace so far
    (oldest event first). *)
Record State := mkState {
  store : list StoredRecord;
  latest_hash : string;
  trace : list event
}.

Inductive result (A : Type) :=
| Return (a : A)
| Raise (e : exn).
Arguments Return {A} a.
Arguments Raise {A} e.

(** A statement: from a state to its result and the state it leaves.  The
    connection runs with [autocommit = True] (lines 77, 179), so what a
    statement wrote stays written when a later one raises. *)
Definition M (A : Type) : Type := State -> result A * State.

Definition ret {A} (a : A) : M A := fun st => (Return a, st).

Definition raise {A} (e : exn) : M A := fun st => (Raise e, st).

Definition bind {A B} (m : M A) (k : A -> M B) : M B :=
  fun st =>
    match m st with
    | (Return a, st') => k a st'
    | (Raise e, st') => (Raise e, st')
    end.

Notation "x <- m ;; k" := (bind m (fun x => k))
  (at level 61, m at next level, right associativity).
Notation "m ;; k" := (bind m (fun _ => k))
  (at level 61, right associativity).

(** [try: m  except: handler]. *)
Definition try_except {A} (m handler : M A) : M A :=
  fun st =>
    match m st with
    | (Return a, st') => (Return a, st')
    | (Raise _, st') => handler st'
    end.

Definition get : M State := fun st => (Return st, st).

Definition log (e : event) : M unit :=
  fun st => (Return tt, mkState (store st) (latest_hash st) (trace st ++ [e])).

Definition set_latest_hash (h : string) : M unit :=
  fun st => (Return tt, mkState (store st) h (trace st)).

Definition set_store (rows : list StoredRecord) : M unit :=
  fun st => (Return tt, mkState rows (latest_hash st) (trace st)).

(** [for x in xs: body(x)], where [continue] is the body returning. *)
Fixpoint for_each {A} (xs : list A) (body : A -> M unit) : M unit :=
  match xs with
  | [] => ret tt
  | x :: rest => body x ;; for_each rest body
  end.

(** A loop that carries the function's local variables from one
    iteration to the next. *)
Fixpoint for_each_with {A L} (xs : list A) (body : L -> A -> M L) (locals : L)
  : M L :=
  match xs with
  | [] => ret locals
  | x :: rest => l <- body locals x ;; for_each_with rest body l
  end.

(** [int(s)], raising [ValueError]. *)
Definition int (s : string) : M Z :=
  match py_int s with
  | Some z => ret z
  | None => raise ValueError
  end.

(** [d[key]] where the key may be absent: [KeyError]. *)
Definition subscript {A} (key : string) (v : option A) : M A :=
  match v with
  | Some a => ret a
  | None => raise (KeyError key)
  end.

(** The longest sleep, in seconds, whose nanoseconds fit the signed
    64-bit clock of CPython. *)
Definition sleep_max : Z := (2 ^ 63 - 1) / 10 ^ 9.

(** [time.sleep(secs)] for an integer: a negative length is a
    [ValueError], one too long for the clock an [OverflowError]; the
    wait itself changes nothing. *)
Definition sleep (secs : Z) : M unit :=
  if secs <? 0 then raise ValueError
  else if sleep_max <? secs then raise OverflowError
  else ret tt.

(** [a - v] for an integer [a]: an [int] minus a [str] is a [TypeError]. *)
Definition py_sub (a : Z) (v : pyval) : M Z :=
  match v with
  | PyInt z => ret (a - z)
  | PyStr _ => raise TypeError
  end.

(* ================================================================== *)
(** ** The statements sent to the database *)

(** [SELECT Max(block) from public.ethtxs]: [None] on an empty table. *)
Definition max_block (rows : list StoredRecord) : option Z :=
  fold_left
    (fun acc r =>
       match acc with
       | None => Some (block r)
       | Some m => Some (Z.max m (block r))
       end)
    rows None.

(** [INSERT INTO public.ethtxs(...) VALUES (...)] (line 149). *)
Definition execute_insert (db : Db) (r : StoredRecord) : M unit :=
  st <- get ;;
  if insert_ok db (store st) r
  then set_store (store st ++ [r])
  else raise DatabaseError.

(** [block > begin_block AND block <= end_block]. *)
Definition in_window (begin_block end_block : Z) (r : StoredRecord) : bool :=
  (begin_block <? block r) && (block r <=? end_block).

(** The rows a DELETE with that condition leaves. *)
Definition without_window (begin_block end_block : Z)
  (rows : list StoredRecord) : list StoredRecord :=
  filter (fun r => negb (in_window begin_block end_block r)) rows.

(** [DELETE from ethtxs CASCADE WHERE block > %s AND block <= %s]
    (line 168). *)
Definition execute_delete_window (db : Db) (begin_block end_block : Z)
  : M unit :=
  st <- get ;;
  if delete_ok db (store st)
  then set_store (without_window begin_block end_block (store st))
  else raise DatabaseError.

(** [block = (SELECT Max(block) from public.ethtxs)]: never true on an
    empty table, where the subquery is NULL. *)
Definition is_top (rows : list StoredRecord) (r : StoredRecord) : bool :=
  match max_block rows with
  | Some m => block r =? m
  | None => false
  end.

(** The rows a DELETE with that condition leaves. *)
Definition without_top (rows : list StoredRecord) : list StoredRecord :=
  filter (fun r => negb (is_top rows r)) rows.

(** [DELETE FROM public.ethtxs WHERE block = (SELECT Max(block) ...)]
    (lines 83-88, under the comment that the last block may not have been
    imported in full). *)
Definition execute_delete_top (db : Db) : M unit :=
  st <- get ;;
  if delete_ok db (store st)
  then set_store (without_top (store st))
  else raise DatabaseError.

(* ================================================================== *)
(** ** [insertTxsFromBlock] (lines 101-164) *)

Definition selector : string := "0xa9059cbb".

Definition zeros24 : string := "000000000000000000000000".

(** Lines 113-127: [contract_to] and [contract_value]. *)
Definition contract_fields (inputinfo : string) : string * string :=
  if startswith inputinfo selector
  then (("0x" ++ py_slice inputinfo (-104) (-64))%string,
        py_slice_from inputinfo (-64))
  else ("", "").

(** Lines 128-131: the warning about the address part. *)
Definition warn_leading_zeros (inputinfo txhash : string) : M unit :=
  if startswith inputinfo selector
     && negb (String.eqb (py_slice inputinfo (-128) (-104)) zeros24)
  then log (WarnLeadingZeros (py_slice inputinfo (-128) (-104)) txhash)
  else ret tt.

(** The function's local variables [fr] and [to]: [None] while unbound.
    They are assigned under [try] and keep their value from one
    transaction of the block to the next. *)
Record Locals := mkLocals {
  fr : option (option string);
  to : option (option string)
}.

(** Reading a local variable: unbound, it raises [UnboundLocalError]. *)
Definition read_local {A} (name : string) (v : option A) : M A :=
  match v with
  | Some a => ret a
  | None => raise (UnboundLocalError name)
  end.

(** Lines 135-140 and 141-144: [try: x = trans[key]  except: log]. *)
Definition try_assign (field : option (option string)) (on_error : event)
  (current : option (option string)) : M (option (option string)) :=
  match field with
  | Some v => ret (Some v)
  | None => log on_error ;; ret current
  end.

(** The body of the loop over the block's transactions (lines 105-164). *)
Definition insertTx (db : Db) (node : Node) (blockid time : Z)
  (locals : Locals) (trans : Transaction) : M Locals :=
  let transReceipt := getTransactionReceipt node (tx_hash trans) in
  status_value <- subscript "status" (r_status transReceipt) ;;  (* line 108 *)
  let status := py_bool status_value in
  let txhash := hex (tx_hash trans) in
  let value := tx_value trans in
  let inputinfo := tx_input trans in
  let '(contract_to, contract_value) := contract_fields inputinfo in
  warn_leading_zeros inputinfo txhash ;;
  if (value =? 0) && negb (startswith inputinfo selector)
  then ret locals                                            (* continue *)
  else
    fr <- try_assign (tx_from trans) (ErrorFrom txhash) (fr locals) ;;
    to <- try_assign (tx_to trans) (ErrorTo txhash) (to locals) ;;
    let gasprice := tx_gasPrice trans in
    let gas := r_gasUsed transReceipt in
    fr_value <- read_local "fr" fr ;;
    to_value <- read_local "to" to ;;
    execute_insert db
      (mkStoredRecord time fr_value to_value value gas gasprice blockid
         txhash contract_to contract_value status) ;;
    ret (mkLocals fr to).

Definition insertTxsFromBlock (db : Db) (node : Node) (blk : Block) : M unit :=
  let blockid := number blk in
  let time := timestamp blk in
  for_each_with (transactions blk) (insertTx db node blockid time)
    (mkLocals None None) ;;
  ret tt.

(* ================================================================== *)
(** ** [delete_last_blocks_from_db] (lines 166-171) *)

Definition delete_last_blocks_from_db (db : Db) (begin_block end_block : Z)
  : M unit :=
  try_except
    (execute_delete_window db begin_block end_block ;;
     log (InfoDeleted (begin_block + 1) end_block))
    (log (ErrorDeleteFailed (begin_block + 1) end_block)).

(* ================================================================== *)
(** ** The sync loop (lines 173-225) *)

(** Lines 206-209, the branch taken on a hash mismatch at [endblock]:
    the warning, the delete of the last blocks, and [continue]. *)
Definition rollback (cfg : Config) (db : Db) (blockHeight : Z) : M unit :=
  log WarnReorganisation ;;
  begin_block <- py_sub (blockHeight - 1) (reorg_blocks cfg) ;;
  delete_last_blocks_from_db db begin_block (blockHeight - 1).

(** Lines 211-222: the block is indexed and its hash remembered. *)
Definition index_block (db : Db) (node : Node) (blockHeight : Z) (blk : Block)
  : M unit :=
  (if 0 <? Z.of_nat (List.length (transactions blk))
   then insertTxsFromBlock db node blk ;;
        log (InfoProcessed blockHeight blk)
   else log (InfoNoTransactions blockHeight blk)) ;;
  set_latest_hash (hex (hash blk)).

(** The body of [for blockHeight in range(maxblockindb + 1, endblock+1)]
    (lines 203-222). *)
Definition sync_block (cfg : Config) (db : Db) (node : Node) (endblock : Z)
  (blockHeight : Z) : M unit :=
  log (GetBlock blockHeight) ;;
  let blk := getBlock node blockHeight in
  st <- get ;;
  if (blockHeight =? endblock)
     && negb (String.eqb (latest_hash st) (hex (parentHash blk)))
  then rollback cfg db blockHeight
  else index_block db node blockHeight blk.

(** Lines 185-189: the cursor, [Max(block)] or [int(startBlock)]. *)
Definition read_maxblockindb (cfg : Config) : M Z :=
  st <- get ;;
  match max_block (store st) with
  | Some m => ret m
  | None => int (startBlock cfg)
  end.

(** Line 191. *)
Definition read_endblock (cfg : Config) (node : Node) : M Z :=
  confirmations <- int (confirmationBlocks cfg) ;;
  ret (blockNumber node - confirmations).

(** One pass of [while True] (lines 176-224), the connection taken as
    established. *)
Definition sync_pass (cfg : Config) (db : Db) (node : Node) : M unit :=
  maxblockindb <- read_maxblockindb cfg ;;
  endblock <- read_endblock cfg node ;;
  log (InfoBest maxblockindb endblock) ;;
  for_each (py_range (maxblockindb + 1) (endblock + 1))
    (sync_block cfg db node endblock).

(** Line 225: [time.sleep(int(pollingPeriod))]. *)
Definition wait_period (cfg : Config) : M unit :=
  secs <- int (pollingPeriod cfg) ;;
  sleep secs.

(** The passes of [while True] over the node's successive answers, each
    followed by the sleep of line 225; an exception that leaves a pass
    or the sleep ends the process. *)
Definition sync_loop (cfg : Config) (db : Db) (nodes : list Node) : M unit :=
  for_each nodes (fun node => sync_pass cfg db node ;; wait_period cfg).

(** The script from line 83 on: the start-up delete, then the loop with
    [latest_hash = ''] (line 173).  (The wait for the node to be in sync,
    lines 91-98, changes nothing below.) *)
Definition main (cfg : Config) (db : Db) (nodes : list Node) : M unit :=
  execute_delete_top db ;;
  set_latest_hash "" ;;
  sync_loop cfg db nodes.

(** The state a process starts in, over the rows a previous run left. *)
Definition boot (rows : list StoredRecord) : State := mkState rows "" [].

(* ================================================================== *)
(** ** Views of the code used in the statements *)

(** The value [read_maxblockindb] returns: the cursor of a pass. *)
Definition cursor (cfg : Config) (rows : list StoredRecord) : option Z :=
  match max_block rows with
  | Some m => Some m
  | None => py_int (startBlock cfg)
  end.

(** The value [read_endblock] returns: the safe head of a pass. *)
Definition safe_head (cfg : Config) (node : Node) : option Z :=
  option_map (fun confirmations => blockNumber node - confirmations)
    (py_int (confirmationBlocks cfg)).

(** The depth the configuration asks the rollback to have. *)
Definition reorg_depth (cfg : Config) : option Z :=
  match reorg_blocks cfg with
  | PyInt z => Some z
  | PyStr s => py_int s
  end.

(** [bool(transReceipt["status"])] where the key is present. *)
Definition status_of (transReceipt : Receipt) : bool :=
  match r_status transReceipt with
  | Some v => py_bool v
  | None => false
  end.

(** Line 133: the transactions the loop skips. *)
Definition discarded (trans : Transaction) : bool :=
  (tx_value trans =? 0) && negb (startswith (tx_input trans) selector).

(** The row line 149 inserts for a transaction, given the values of the
    locals [fr] and [to]. *)
Definition row_of (node : Node) (blockid time : Z) (trans : Transaction)
  (fr_value to_value : option string) : StoredRecord :=
  let transReceipt := getTransactionReceipt node (tx_hash trans) in
  mkStoredRecord time fr_value to_value (tx_value trans)
    (r_gasUsed transReceipt) (tx_gasPrice trans) blockid
    (hex (tx_hash trans))
    (fst (contract_fields (tx_input trans)))
    (snd (contract_fields (tx_input trans)))
    (status_of transReceipt).

(** The rows of one block. *)
Definition rows_of (n : Z) (rows : list StoredRecord) : list StoredRecord :=
  filter (fun r => block r =? n) rows.

(** The heights requested in a run of events, in order. *)
Definition fetched (evs : list event) : list Z :=
  flat_map (fun e => match e with GetBlock h => [h] | _ => [] end) evs.

(** The blocks reported as gone through (lines 213, 221), in order. *)
Definition indexed (evs : list event) : list (Z * Block) :=
  flat_map
    (fun e =>
       match e with
       | InfoProcessed h blk | InfoNoTransactions h blk => [(h, blk)]
       | _ => []
       end)
    evs.

(** The block last gone through at height [n], as the node gave it. *)
Definition last_indexed (evs : list event) (n : Z) : option Block :=
  fold_left
    (fun acc p => if fst p =? n then Some (snd p) else acc)
    (indexed evs) None.

(** The events [st'] has beyond those of [st]. *)
Definition events_since (st st' : State) : list event :=
  skipn (List.length (trace st)) (trace st').

(** The node numbers the block at height [h] with [h]. *)
Definition numbers_blocks (node : Node) : Prop :=
  forall h, number (getBlock node h) = h.

(** The argument words of a call, by position in the input: after the
    ten characters of ["0x"] and the selector, the first 32-byte slot is
    characters 10-73 (24 of padding, then the 40 of the address), the
    second slot characters 74-137. *)
Definition slot_padding (inputinfo : string) : string :=
  substring 10 24 inputinfo.

Definition slot_address (inputinfo : string) : string :=
  substring 34 40 inputinfo.

Definition second_slot (inputinfo : string) : string :=
  substring 74 64 inputinfo.

(* ================================================================== *)
(** ** Statements that the code does not satisfy as worded

    Each is written here as it is worded; below it is refuted on a
    concrete input and the statement the code does satisfy is proved. *)

(** Reorg rollback: on a hash mismatch at the safe head, the rows of the
    window are deleted, the boundary block is left alone, and the next
    pass starts again from the new [max(block) + 1]. *)
Definition rollback_as_specified (cfg : Config) (db : Db) (node next : Node)
  (st : State) : Prop :=
  forall maxblockindb endblock depth st1,
    cursor cfg (store st) = Some maxblockindb ->
    safe_head cfg node = Some endblock ->
    reorg_depth cfg = Some depth ->
    maxblockindb < endblock ->
    for_each (py_range (maxblockindb + 1) endblock)
      (sync_block cfg db node endblock)
      (snd (log (InfoBest maxblockindb endblock) st)) = (Return tt, st1) ->
    latest_hash st1 <> hex (parentHash (getBlock node endblock)) ->
    let st2 := snd (sync_pass cfg db node st) in
    store st2 = without_window (endblock - 1 - depth) (endblock - 1) (store st1)
    /\ latest_hash st2 = latest_hash st1
    /\ exists m rest,
         max_block (store st2) = Some m
         /\ fetched (events_since st2 (snd (sync_pass cfg db next st2)))
            = (m + 1) :: rest.

(** Per-block atomicity: when a write fails, no row of the block is
    committed. *)
Definition atomic_block_as_specified (db : Db) (node : Node) (blk : Block)
  (st : State) : Prop :=
  forall e st',
    insertTxsFromBlock db node blk st = (Raise e, st') ->
    store st' = store st.


(** Decoder: for every input that starts with the selector, the two
    fields come from the first and the second argument slot. *)
Definition transfer_fields_as_specified (inputinfo : string) : Prop :=
  startswith inputinfo selector = true ->
  contract_fields inputinfo
  = (("0x" ++ slot_address inputinfo)%string, second_slot inputinfo).

(** Continuity: any two consecutive blocks with rows in the store were
    chained when the engine went through them. *)
Definition continuity_as_specified (st : State) : Prop :=
  forall n prev blk,
    rows_of (n - 1) (store st) <> [] ->
    rows_of n (store st) <> [] ->
    last_indexed (trace st) (n - 1) = Some prev ->
    last_indexed (trace st) n = Some blk ->
    parentHash blk = hash prev.

(** Idempotent restart: after a restart over rows up to block [H] and the
    passes [nodes], the rows of every block below [H] are as before. *)
Definition restart_as_specified (cfg : Config) (db : Db) (nodes : list Node)
  (rows : list StoredRecord) : Prop :=
  forall H n,
    max_block rows = Some H ->
    n < H ->
    rows_of n (store (snd (main cfg db nodes (boot rows)))) = rows_of n rows.

(** First pass with one new block: the rows of the window are deleted. *)
Definition first_pass_rollback_as_specified (cfg : Config) (db : Db)
  (node : Node) (rows : list StoredRecord) : Prop :=
  forall maxblockindb endblock depth,
    cursor cfg rows = Some maxblockindb ->
    safe_head cfg node = Some endblock ->
    maxblockindb + 1 = endblock ->
    reorg_depth cfg = Some depth ->
    store (snd (sync_pass cfg db node (boot rows)))
    = without_window (endblock - 1 - depth) (endblock - 1) rows.

(** [reorg_blocks] is the variable's string whenever the variable is
    set. *)
Definition reorg_blocks_as_specified (environ : Environ) : Prop :=
  forall s,
    CONFIRMATIONS_BLOCK environ = Some s ->
    reorg_blocks (load_config environ) = PyStr s.

(* ================================================================== *)
(** ** Concrete inputs *)

(** A database that accepts every statement. *)
Definition reliable : Db := mkDb (fun _ _ => true) (fun _ => true).

(** A database that refuses the INSERT of one transaction hash. *)
Definition refusing (bad_txhash : string) : Db :=
  mkDb (fun _ r => negb (String.eqb (txhash r) bad_txhash)) (fun _ => true).

Definition receipts : HexBytes -> Receipt :=
  fun _ => mkReceipt 21000 (Some (Some 1)).

(** A plain value transfer. *)
Definition transfer (h : HexBytes) (sender recipient : string) (amount : Z)
  : Transaction :=
  mkTransaction h (Some (Some sender)) (Some (Some recipient)) amount 1 "0x".

(** A transaction without its ['from'] key. *)
Definition senderless (h : HexBytes) (recipient : string) (amount : Z)
  : Transaction :=
  mkTransaction h None (Some (Some recipient)) amount 1 "0x".

(** One byte that names a height (heights below 256). *)
Definition tag (n : Z) : HexBytes :=
  match Byte.of_N (Z.to_N n) with
  | Some b => [b]
  | None => []
  end.

(** A chain on which block [n] follows block [n - 1] and holds one
    transfer of [n] wei. *)
Definition main_chain (n : Z) : Block :=
  mkBlock n (tag n) (tag (n - 1)) (1000 + n)
    [transfer (tag n) "0xaa" "0xbb" n].

(** A competing chain from height [fork] on. *)
Definition side_chain (fork : Z) (n : Z) : Block :=
  if n <? fork then main_chain n
  else mkBlock n (xff :: tag n)
         (if n =? fork then tag (n - 1) else xff :: tag (n - 1))
         (2000 + n) [transfer (xff :: tag n) "0xcc" "0xdd" n].

Definition view (chain : Z -> Block) (head : Z) : Node :=
  mkNode head chain receipts.

(** The row the engine stores for block [n] of [main_chain]. *)
Definition stored (n : Z) : StoredRecord :=
  row_of (view main_chain n) n (1000 + n) (transfer (tag n) "0xaa" "0xbb" n)
    (Some "0xaa") (Some "0xbb").

(** [START_BLOCK=100], nothing else set. *)
Definition from_100 : Config :=
  load_config (mkEnviron (Some "100") None None).

(** [START_BLOCK=100] and [CONFIRMATIONS_BLOCK=2]. *)
Definition from_100_confirm_2 : Config :=
  load_config (mkEnviron (Some "100") (Some "2") None).

(** A [transfer(address,uint256)] call of exactly two argument words. *)
Definition transfer_call : string :=
  ("0xa9059cbb"
   ++ "0000000000000000000000009f066b6ddc399dcbc7c596ad7d97b79247c85afb"
   ++ "00000000000000000000000000000000000000000000000000000000000003e8"
  )%string.

(** The same call with one more 32-byte word after the arguments. *)
Definition transfer_call_with_trailer : string :=
  (transfer_call
   ++ "1111111111111111111111111111111111111111111111111111111111111111"
  )%string.

(** A block of two transfers. *)
Definition two_transfers : Block :=
  mkBlock 7 (tag 7) (tag 6) 1007
    [transfer (tag 1) "0xaa" "0xbb" 5; transfer (tag 2) "0xcc" "0xdd" 3].

(** A transfer followed by a transaction without ['from']. *)
Definition transfer_then_senderless : Block :=
  mkBlock 7 (tag 7) (tag 6) 1007
    [transfer (tag 1) "0xaa" "0xbb" 5; senderless (tag 2) "0xdd" 3].

(** A transaction without ['from'] first. *)
Definition senderless_first : Block :=
  mkBlock 7 (tag 7) (tag 6) 1007
    [senderless (tag 2) "0xdd" 3; transfer (tag 1) "0xaa" "0xbb" 5].

(* ================================================================== *)
(** ** Vocabulary of the proofs *)

(** [touches RowP EvP m]: whatever its outcome, [m] only appends rows
    that satisfy [RowP] and events that satisfy [EvP], and leaves
    [latest_hash] alone. *)
Definition touches (RowP : StoredRecord -> Prop) (EvP : event -> Prop)
  {A} (m : M A) : Prop :=
  forall st, exists rows evs,
    snd (m st) = mkState (store st ++ rows) (latest_hash st) (trace st ++ evs)
    /\ Forall RowP rows /\ Forall EvP evs.

(** Events of the transaction loop: no block request, no block report. *)
Definition quiet (e : event) : Prop :=
  match e with
  | GetBlock _ | InfoProcessed _ _ | InfoNoTransactions _ _ => False
  | _ => True
  end.

(** The state after some more events. *)
Definition logged (st : State) (evs : list event) : State :=
  mkState (store st) (latest_hash st) (trace st ++ evs).

(** What going through block [blk] at height [h] does, for either
    outcome. *)
Definition index_effect (h : Z) (blk : Block) (st : State)
  (out : result unit * State) : Prop :=
  exists rows evs,
    store (snd out) = store st ++ rows
    /\ Forall (fun r => block r = number blk) rows
    /\ (forallb discarded (transactions blk) = true -> rows = [])
    /\ trace (snd out) = trace st ++ evs
    /\ fetched evs = []
    /\ match fst out with
       | Return _ =>
           latest_hash (snd out) = hex (hash blk) /\ indexed evs = [(h, blk)]
       | Raise _ =>
           latest_hash (snd out) = latest_hash st /\ indexed evs = []
       end.

(** A row written for one of the heights [l]: its block is the number of
    the block the node gave at that height, and that block holds a
    transaction the filter keeps. *)
Definition row_from (node : Node) (l : list Z) (r : StoredRecord) : Prop :=
  exists h,
    In h l
    /\ block r = number (getBlock node h)
    /\ forallb discarded (transactions (getBlock node h)) = false.

(** Reading two hexadecimal digits back. *)
Definition unhex_digit (c : ascii) : N :=
  let n := N_of_ascii c in
  (if n <? 58 then n - 48 else n - 87)%N.

Definition unhex2 (s : string) : option byte :=
  match s with
  | String hi (String lo EmptyString) =>
      Byte.of_N (16 * unhex_digit hi + unhex_digit lo)
  | _ => None
  end.

(* ================================================================== *)
(** ** Views for whole blocks and whole passes *)

(** The value of a key that is present; [None] is also what an absent
    key leaves unsaid. *)
Definition field_value (field : option (option string)) : option string :=
  match field with
  | Some v => v
  | None => None
  end.

(** The transaction has both keys the loop reads under [try]. *)
Definition has_keys (trans : Transaction) : Prop :=
  tx_from trans <> None /\ tx_to trans <> None.

(** The row of a transaction that has both keys. *)
Definition tx_row (node : Node) (blockid time : Z) (trans : Transaction)
  : StoredRecord :=
  row_of node blockid time trans
    (field_value (tx_from trans)) (field_value (tx_to trans)).

(** The transactions line 133 lets through, in order. *)
Definition kept (txs : list Transaction) : list Transaction :=
  filter (fun trans => negb (discarded trans)) txs.

(** The rows of a block whose transactions all have their keys. *)
Definition block_rows (node : Node) (blk : Block) : list StoredRecord :=
  map (tx_row node (number blk) (timestamp blk)) (kept (transactions blk)).

(** The receipt of the transaction has its ['status'] key. *)
Definition has_status (node : Node) (trans : Transaction) : Prop :=
  r_status (getTransactionReceipt node (tx_hash trans)) <> None.

(** The period of line 225 is one that [int] reads and [time.sleep]
    takes. *)
Definition sleeps (cfg : Config) : Prop :=
  exists secs,
    py_int (pollingPeriod cfg) = Some secs /\ 0 <= secs <= sleep_max.

(** The rows of the transactions [pre] of a block that the filter
    keeps. *)
Definition partial_rows (node : Node) (blk : Block)
  (pre : list Transaction) : list StoredRecord :=
  map (tx_row node (number blk) (timestamp blk)) (kept pre).

(** The database accepts every INSERT. *)
Definition accepts_inserts (db : Db) : Prop :=
  forall rows r, insert_ok db rows r = true.

(** [adds n RowP EvP m]: as [touches], and [m] appends at most [n]
    rows. *)
Definition adds (n : nat) (RowP : StoredRecord -> Prop)
  (EvP : event -> Prop) {A} (m : M A) : Prop :=
  forall st, exists rows evs,
    snd (m st) = mkState (store st ++ rows) (latest_hash st) (trace st ++ evs)
    /\ Forall RowP rows /\ Forall EvP evs
    /\ (List.length rows <= n)%nat.

(** The row is the one line 149 builds for [trans], a transaction the
    filter keeps, whatever [fr] and [to] hold. *)
Definition row_for (node : Node) (blockid time : Z) (trans : Transaction)
  (r : StoredRecord) : Prop :=
  discarded trans = false
  /\ exists f t, r = row_of node blockid time trans f t.

(** The value [try: x = trans[key]  except: log] leaves in [x]: the
    key's value, or what [x] held before. *)
Definition assigned (field current : option (option string))
  : option (option string) :=
  match field with
  | Some v => Some v
  | None => current
  end.

(** Lines 41-47: the provider the node is reached through, chosen by
    the first characters of [ETH_URL]. *)
Inductive provider :=
| HTTPProvider (url : string)
| WebsocketProvider (url : string)
| IPCProvider (url : string).

Definition connect_node (nodeUrl : string) : provider :=
  if startswith nodeUrl "http" then HTTPProvider nodeUrl
  else if startswith nodeUrl "ws" then WebsocketProvider nodeUrl
  else IPCProvider nodeUrl.

(** A block whose hash differs from its parent's hash. *)
Definition own_hash (blk : Block) : Prop := hash blk <> parentHash blk.

(** A block without a transaction. *)
Definition empty_block (n : Z) : Block :=
  mkBlock n (tag n) (tag (n - 1)) (1000 + n) [].

(** [main_chain] with an empty block at height [top]. *)
Definition quiet_top_chain (top : Z) (n : Z) : Block :=
  if n =? top then empty_block n else main_chain n.

(** Receipts as a node gives them when the transaction [old] is from
    before the Byzantium fork: its receipt has no ['status'] key. *)
Definition receipts_but (old : HexBytes) : HexBytes -> Receipt :=
  fun h =>
    if String.eqb (hex h) (hex old)
    then mkReceipt 21000 None
    else mkReceipt 21000 (Some (Some 1)).

(** A transfer, then a call of value 0 that the filter would drop. *)
Definition transfer_then_call : Block :=
  mkBlock 7 (tag 7) (tag 6) 1007
    [transfer (tag 1) "0xaa" "0xbb" 5; transfer (tag 2) "0xcc" "0xdd" 0].

(** A transfer call cut short after the selector. *)
Definition bare_selector_call : string := "0xa9059cbb".

(** [CONFIRMATIONS_BLOCK=many], which [int] rejects. *)
Definition confirm_many : Config :=
  load_config (mkEnviron (Some "100") (Some "many") None).

(* ================================================================== *)
(** ** Ranges and loops *)

Lemma py_range_nil (lo hi : Z) : hi <= lo -> py_range lo hi = [].
Proof.
  intros H. unfold py_range.
  replace (Z.to_nat (hi - lo)) with 0%nat by lia. reflexivity.
Qed.

Lemma py_range_snoc (lo hi : Z) :
  lo <= hi -> py_range lo (hi + 1) = py_range lo hi ++ [hi].
Proof.
  intros H. unfold py_range.
  replace (Z.to_nat (hi + 1 - lo)) with (Z.to_nat (hi - lo) + 1)%nat by lia.
  rewrite seq_app, map_app. simpl. do 2 f_equal. lia.
Qed.

Lemma in_py_range (lo hi h : Z) : In h (py_range lo hi) <-> lo <= h < hi.
Proof.
  unfold py_range. rewrite in_map_iff. split.
  - intros [i [<- Hi]]. apply in_seq in Hi. lia.
  - intros Hh. exists (Z.to_nat (h - lo)). split; [lia|].
    apply in_seq. lia.
Qed.

Lemma for_each_app {A} (xs ys : list A) (body : A -> M unit) (st : State) :
  for_each (xs ++ ys) body st
  = match for_each xs body st with
    | (Return _, st') => for_each ys body st'
    | (Raise e, st') => (Raise e, st')
    end.
Proof.
  revert st. induction xs as [|x xs IH]; intros st; simpl.
  - reflexivity.
  - unfold bind. destruct (body x st) as [[[]|e] st1]; [apply IH|reflexivity].
Qed.

(* ================================================================== *)
(** ** What a statement may touch *)

Section Effects.

Variable RowP : StoredRecord -> Prop.
Variable EvP : event -> Prop.

Lemma same_state (st : State) :
  st = mkState (store st ++ []) (latest_hash st) (trace st ++ []).
Proof. destruct st; simpl. now rewrite !app_nil_r. Qed.

Lemma touches_ret {A} (a : A) : touches RowP EvP (ret a).
Proof.
  intros st. exists [], []. simpl. split; [apply same_state|]. split; constructor.
Qed.

Lemma touches_raise {A} (e : exn) : touches RowP EvP (@raise A e).
Proof.
  intros st. exists [], []. simpl. split; [apply same_state|]. split; constructor.
Qed.

Lemma touches_get : touches RowP EvP get.
Proof.
  intros st. exists [], []. simpl. split; [apply same_state|]. split; constructor.
Qed.

Lemma touches_log (e : event) : EvP e -> touches RowP EvP (log e).
Proof.
  intros He st. exists [], [e]. simpl. rewrite app_nil_r.
  split; [reflexivity|]. split; repeat constructor. exact He.
Qed.

Lemma touches_bind {A B} (m : M A) (k : A -> M B) :
  touches RowP EvP m -> (forall a, touches RowP EvP (k a)) -> touches RowP EvP (bind m k).
Proof.
  intros Hm Hk st. unfold bind.
  destruct (Hm st) as [rows1 [evs1 [E1 [R1 V1]]]].
  destruct (m st) as [[a|e] st1]; simpl in E1; subst st1.
  - destruct (Hk a (mkState (store st ++ rows1) (latest_hash st)
                      (trace st ++ evs1))) as [rows2 [evs2 [E2 [R2 V2]]]].
    exists (rows1 ++ rows2), (evs1 ++ evs2). simpl in E2.
    rewrite E2, !app_assoc. split; [reflexivity|].
    split; apply Forall_app; split; assumption.
  - exists rows1, evs1. simpl. repeat split; assumption.
Qed.

Lemma touches_insert (db : Db) (r : StoredRecord) :
  RowP r -> touches RowP EvP (execute_insert db r).
Proof.
  intros Hr st. unfold execute_insert, bind, get, set_store, raise.
  destruct (insert_ok db (store st) r); simpl.
  - exists [r], []. rewrite app_nil_r. split; [reflexivity|].
    split; repeat constructor. exact Hr.
  - exists [], []. split; [apply same_state|]. split; constructor.
Qed.

Lemma touches_for_each_with {A L} (xs : list A) (body : L -> A -> M L) :
  (forall l x, In x xs -> touches RowP EvP (body l x)) ->
  forall l, touches RowP EvP (for_each_with xs body l).
Proof.
  induction xs as [|x xs IH]; intros H l; simpl.
  - apply touches_ret.
  - apply touches_bind.
    + apply H. now left.
    + intros l'. apply IH. intros l0 y Hy. apply H. now right.
Qed.

End Effects.

(* ================================================================== *)
(** ** The transaction loop *)

Lemma quiet_fetched (evs : list event) : Forall quiet evs -> fetched evs = [].
Proof.
  induction 1 as [|e evs He _ IH]; [reflexivity|].
  destruct e; simpl in *; solve [assumption | contradiction].
Qed.

Lemma quiet_indexed (evs : list event) : Forall quiet evs -> indexed evs = [].
Proof.
  induction 1 as [|e evs He _ IH]; [reflexivity|].
  destruct e; simpl in *; solve [assumption | contradiction].
Qed.

Lemma fetched_app (xs ys : list event) :
  fetched (xs ++ ys) = fetched xs ++ fetched ys.
Proof. apply flat_map_app. Qed.

Lemma indexed_app (xs ys : list event) :
  indexed (xs ++ ys) = indexed xs ++ indexed ys.
Proof. apply flat_map_app. Qed.

Lemma warn_leading_zeros_touches (RowP : StoredRecord -> Prop)
  (inputinfo txhash : string) :
  touches RowP quiet (warn_leading_zeros inputinfo txhash).
Proof.
  unfold warn_leading_zeros.
  destruct (_ && _); [apply touches_log; exact I | apply touches_ret].
Qed.

Lemma try_assign_touches (RowP : StoredRecord -> Prop)
  (field current : option (option string)) (on_error : event) :
  quiet on_error -> touches RowP quiet (try_assign field on_error current).
Proof.
  intros Hq. unfold try_assign. destruct field.
  - apply touches_ret.
  - apply touches_bind; [now apply touches_log | intros; apply touches_ret].
Qed.

Lemma read_local_touches (RowP : StoredRecord -> Prop) (EvP : event -> Prop)
  {A} (name : string) (v : option A) :
  touches RowP EvP (read_local name v).
Proof. destruct v; [apply touches_ret | apply touches_raise]. Qed.

Lemma subscript_touches (RowP : StoredRecord -> Prop) (EvP : event -> Prop)
  {A} (key : string) (v : option A) :
  touches RowP EvP (subscript key v).
Proof. destruct v; [apply touches_ret | apply touches_raise]. Qed.

Lemma insertTx_touches (db : Db) (node : Node) (blockid time : Z)
  (locals : Locals) (trans : Transaction) :
  touches (fun r => block r = blockid) quiet
    (insertTx db node blockid time locals trans).
Proof.
  unfold insertTx.
  apply touches_bind; [apply subscript_touches|]. intros status_value.
  destruct (contract_fields (tx_input trans)) as [cto cval].
  apply touches_bind; [apply warn_leading_zeros_touches|]. intros _.
  destruct (_ && _); [apply touches_ret|].
  apply touches_bind; [apply try_assign_touches; exact I|]. intros fr'.
  apply touches_bind; [apply try_assign_touches; exact I|]. intros to'.
  apply touches_bind; [apply read_local_touches|]. intros frv.
  apply touches_bind; [apply read_local_touches|]. intros tov.
  apply touches_bind; [apply touches_insert; reflexivity|]. intros _.
  apply touches_ret.
Qed.

Lemma insertTxsFromBlock_touches (db : Db) (node : Node) (blk : Block) :
  touches (fun r => block r = number blk) quiet
    (insertTxsFromBlock db node blk).
Proof.
  unfold insertTxsFromBlock. apply touches_bind.
  - apply touches_for_each_with. intros. apply insertTx_touches.
  - intros _. apply touches_ret.
Qed.

(** Line 108: without the ['status'] key nothing else is done. *)
Lemma insertTx_without_status (db : Db) (node : Node) (blockid time : Z)
  (locals : Locals) (trans : Transaction) (st : State) :
  r_status (getTransactionReceipt node (tx_hash trans)) = None ->
  insertTx db node blockid time locals trans st
  = (Raise (KeyError "status"), st).
Proof. intros H. unfold insertTx. rewrite H. reflexivity. Qed.

(** Line 133-134: a discarded transaction whose receipt has a status
    changes nothing. *)
Lemma insertTx_discarded (db : Db) (node : Node) (blockid time : Z)
  (locals : Locals) (trans : Transaction) (st : State) :
  has_status node trans ->
  discarded trans = true ->
  insertTx db node blockid time locals trans st = (Return locals, st).
Proof.
  unfold discarded, has_status. intros Hst H. apply andb_prop in H as [Hv Hs].
  apply negb_true_iff in Hs.
  unfold insertTx, contract_fields, warn_leading_zeros.
  destruct (r_status _) as [v|]; [|contradiction].
  unfold bind at 1. unfold subscript, ret. cbv beta iota.
  rewrite Hs, Hv. reflexivity.
Qed.

(** A discarded transaction leaves the state as it is, whether line 108
    raises or not. *)
Lemma insertTx_discarded_state (db : Db) (node : Node) (blockid time : Z)
  (locals : Locals) (trans : Transaction) (st : State) :
  discarded trans = true ->
  snd (insertTx db node blockid time locals trans st) = st.
Proof.
  intros Hd.
  destruct (r_status (getTransactionReceipt node (tx_hash trans))) eqn:Hs.
  - rewrite insertTx_discarded; [reflexivity| |exact Hd].
    unfold has_status. now rewrite Hs.
  - now rewrite insertTx_without_status.
Qed.

(** Lines 135-164: a transaction that is kept, has both keys and whose
    INSERT is accepted adds its row. *)
Lemma insertTx_inserts (db : Db) (node : Node) (blockid time : Z)
  (locals : Locals) (trans : Transaction) (st : State)
  (f t : option string) :
  has_status node trans ->
  discarded trans = false ->
  tx_from trans = Some f ->
  tx_to trans = Some t ->
  insert_ok db (store st) (row_of node blockid time trans f t) = true ->
  insertTx db node blockid time locals trans st
  = (Return (mkLocals (Some f) (Some t)),
     mkState (store st ++ [row_of node blockid time trans f t])
       (latest_hash st)
       (trace (snd (warn_leading_zeros (tx_input trans) (hex (tx_hash trans))
                      st)))).
Proof.
  intros Hst Hd Hf Ht Hok. unfold discarded in Hd.
  unfold insertTx, row_of, status_of, has_status in *.
  destruct (r_status _) as [v|]; [|contradiction].
  unfold bind at 1. unfold subscript, ret. cbv beta iota.
  destruct (contract_fields (tx_input trans)) as [cto cval]. simpl in Hok.
  unfold bind at 1. unfold warn_leading_zeros.
  destruct (startswith (tx_input trans) selector
            && negb (String.eqb (py_slice (tx_input trans) (-128) (-104))
                       zeros24));
    simpl; rewrite Hd, Hf, Ht; unfold try_assign, read_local, execute_insert,
      bind, ret, get, set_store; simpl; rewrite Hok; reflexivity.
Qed.

Lemma insertTxsFromBlock_all_discarded (db : Db) (node : Node) (blk : Block)
  (st : State) :
  Forall (has_status node) (transactions blk) ->
  forallb discarded (transactions blk) = true ->
  insertTxsFromBlock db node blk st = (Return tt, st).
Proof.
  unfold insertTxsFromBlock. generalize (mkLocals None None) as locals.
  induction (transactions blk) as [|trans txs IH]; intros locals Hs H;
    simpl in *.
  - reflexivity.
  - apply andb_prop in H as [H1 H2]. inversion Hs as [|? ? Hs1 Hs2]; subst.
    unfold bind at 1. unfold bind at 1.
    rewrite insertTx_discarded by assumption.
    specialize (IH locals Hs2 H2). unfold bind in IH. exact IH.
Qed.

(** Transactions that are all discarded leave the state as it is,
    whether line 108 raises or not. *)
Lemma discarded_loop_state (db : Db) (node : Node) (blockid time : Z)
  (txs : list Transaction) (locals : Locals) (st : State) :
  forallb discarded txs = true ->
  snd (for_each_with txs (insertTx db node blockid time) locals st) = st.
Proof.
  revert locals. induction txs as [|trans txs IH]; intros locals H;
    simpl in *; [reflexivity|].
  apply andb_prop in H as [H1 H2].
  pose proof (insertTx_discarded_state db node blockid time locals trans st H1)
    as Hone.
  unfold bind.
  destruct (insertTx db node blockid time locals trans st) as [[l|e] st1];
    simpl in Hone; subst st1; [apply (IH l H2) | reflexivity].
Qed.

Lemma insertTxsFromBlock_all_discarded_state (db : Db) (node : Node)
  (blk : Block) (st : State) :
  forallb discarded (transactions blk) = true ->
  snd (insertTxsFromBlock db node blk st) = st.
Proof.
  intros H. unfold insertTxsFromBlock.
  pose proof (discarded_loop_state db node (number blk) (timestamp blk)
                (transactions blk) (mkLocals None None) st H) as Hloop.
  unfold bind.
  destruct (for_each_with _ _ _ st) as [[l|e] st1]; exact Hloop.
Qed.

(* ================================================================== *)
(** ** The decoder *)

(** C4, refuted as worded: a transfer call with one more word after its
    two arguments starts with the selector, yet [contract_value] is that
    last word and [contract_to] the low 40 characters of the amount. *)
Lemma transfer_fields_counterexample :
  ~ transfer_fields_as_specified transfer_call_with_trailer.
Proof.
  intros H. specialize (H eq_refl). vm_compute in H. discriminate H.
Qed.

(** The three slices of lines 126-128 on an input of 138 characters. *)
Lemma py_slice_two_words (inputinfo : string) :
  String.length inputinfo = 138%nat ->
  py_slice inputinfo (-128) (-104) = slot_padding inputinfo
  /\ py_slice inputinfo (-104) (-64) = slot_address inputinfo
  /\ py_slice_from inputinfo (-64) = second_slot inputinfo.
Proof.
  intros Hlen. unfold py_slice_from, py_slice. rewrite Hlen.
  repeat split; reflexivity.
Qed.

(** C4, as the code has it: for an input that starts with [0xa9059cbb]
    and is exactly the selector and two 32-byte words (138 characters),
    the row's [contract_to] is ["0x"] and the 40 address characters of
    the first word, its [contract_value] the 64 characters of the second
    word, and the transaction is never discarded; the only effect of
    padding that is not 24 zeros is one warning. *)
Theorem transfer_fields_of_two_word_call (node : Node) (blockid time : Z)
  (trans : Transaction) (f t : option string) (st : State) :
  startswith (tx_input trans) selector = true ->
  String.length (tx_input trans) = 138%nat ->
  contract_to (row_of node blockid time trans f t)
  = ("0x" ++ slot_address (tx_input trans))%string
  /\ contract_value (row_of node blockid time trans f t)
     = second_slot (tx_input trans)
  /\ discarded trans = false
  /\ warn_leading_zeros (tx_input trans) (hex (tx_hash trans)) st
     = if String.eqb (slot_padding (tx_input trans)) zeros24
       then (Return tt, st)
       else log (WarnLeadingZeros (slot_padding (tx_input trans))
                   (hex (tx_hash trans))) st.
Proof.
  intros Hs Hlen.
  destruct (py_slice_two_words (tx_input trans) Hlen) as [Hp [Ha Hv]].
  unfold row_of, contract_fields, warn_leading_zeros, discarded.
  rewrite Hs, Hp, Ha, Hv. cbn [contract_to contract_value fst snd].
  repeat split.
  - now rewrite andb_false_r.
  - destruct (String.eqb (slot_padding (tx_input trans)) zeros24);
      reflexivity.
Qed.

(** The two-word call of the script's own comment, decoded. *)
Lemma transfer_fields_of_two_word_call_witness :
  contract_to
    (row_of (view main_chain 7) 7 1007
       (mkTransaction (tag 2) (Some (Some "0xaa")) (Some None) 0 1
          transfer_call) (Some "0xaa") None)
  = "0x9f066b6ddc399dcbc7c596ad7d97b79247c85afb"
  /\ contract_value
       (row_of (view main_chain 7) 7 1007
          (mkTransaction (tag 2) (Some (Some "0xaa")) (Some None) 0 1
             transfer_call) (Some "0xaa") None)
     = "00000000000000000000000000000000000000000000000000000000000003e8".
Proof.
  pose proof (transfer_fields_of_two_word_call (view main_chain 7) 7 1007
                (mkTransaction (tag 2) (Some (Some "0xaa")) (Some None) 0 1
                   transfer_call) (Some "0xaa") None (boot [])
                eq_refl eq_refl) as [H1 [H2 _]].
  split; [exact H1 | exact H2].
Defined.

(** C3, evaluated where the code departs from it.  In a block whose
    second transaction lacks ['from'], the error is logged and the row is
    written all the same, with the sender of the first transaction; when
    the transaction without ['from'] comes first, [fr] is unbound, the
    INSERT raises and the rest of the block is not gone through. *)
Theorem missing_from_is_not_skipped :
  (let '(r, st) :=
     insertTxsFromBlock reliable (view main_chain 7) transfer_then_senderless
       (boot []) in
   r = Return tt
   /\ map txhash (store st) = ["0x01"; "0x02"]
   /\ map txfrom (store st) = [Some "0xaa"; Some "0xaa"]
   /\ trace st = [ErrorFrom "0x02"])
  /\ (let '(r, st) :=
        insertTxsFromBlock reliable (view main_chain 7) senderless_first
          (boot []) in
      r = Raise (UnboundLocalError "fr")
      /\ store st = []
      /\ trace st = [ErrorFrom "0x02"]).
Proof. vm_compute. repeat split. Qed.

(* ================================================================== *)
(** ** The table *)

Lemma max_block_fold (rows : list StoredRecord) (acc : option Z) :
  match
    fold_left
      (fun acc r =>
         match acc with
         | None => Some (block r)
         | Some m => Some (Z.max m (block r))
         end)
      rows acc
  with
  | None => acc = None /\ rows = []
  | Some m =>
      (forall a, acc = Some a -> a <= m)
      /\ Forall (fun r => block r <= m) rows
      /\ (acc = Some m \/ exists r, In r rows /\ block r = m)
  end.
Proof.
  revert acc. induction rows as [|r rows IH]; intros acc; simpl.
  - destruct acc as [a|]; [|now split].
    split; [intros ? [= <-]; lia|]. split; [constructor | now left].
  - match goal with |- context [fold_left ?f rows ?a] =>
      specialize (IH a); destruct (fold_left f rows a) as [m|] end.
    + destruct IH as [Hacc [Hall Hin]]. destruct acc as [a|].
      * specialize (Hacc _ eq_refl). split; [intros ? [= <-]; lia|].
        split; [constructor; [lia | exact Hall]|].
        destruct Hin as [[= Hm] | [r' [Hr' Hb]]].
        -- destruct (Z.max_spec a (block r)) as [[_ E] | [_ E]];
             rewrite E in Hm.
           ++ right. exists r. split; [now left | exact Hm].
           ++ left. now rewrite Hm.
        -- right. exists r'. split; [now right | exact Hb].
      * specialize (Hacc _ eq_refl). split; [discriminate|].
        split; [constructor; [lia | exact Hall]|]. right.
        destruct Hin as [[= Hm] | [r' [Hr' Hb]]].
        -- exists r. split; [now left | exact Hm].
        -- exists r'. split; [now right | exact Hb].
    + destruct IH as [IH _]. destruct acc; discriminate IH.
Qed.

(** [Max(block)] is an upper bound that some row attains; it is NULL on
    the empty table only. *)
Lemma max_block_spec (rows : list StoredRecord) :
  match max_block rows with
  | None => rows = []
  | Some m =>
      Forall (fun r => block r <= m) rows
      /\ exists r, In r rows /\ block r = m
  end.
Proof.
  unfold max_block. pose proof (max_block_fold rows None) as H.
  destruct (fold_left _ rows None) as [m|].
  - destruct H as [_ [Hall [Habs | Hin]]]; [discriminate | now split].
  - apply H.
Qed.

Lemma max_block_unique (rows : list StoredRecord) (m : Z) (r : StoredRecord) :
  Forall (fun r => block r <= m) rows ->
  In r rows -> block r = m ->
  max_block rows = Some m.
Proof.
  intros Hall Hin Hb. pose proof (max_block_spec rows) as H.
  destruct (max_block rows) as [m'|].
  - destruct H as [Hall' [r' [Hin' Hb']]]. f_equal.
    rewrite Forall_forall in Hall, Hall'.
    specialize (Hall _ Hin'). specialize (Hall' _ Hin). lia.
  - subst rows. contradiction.
Qed.

Lemma filter_all {A} (p : A -> bool) (l : list A) :
  Forall (fun x => p x = true) l -> filter p l = l.
Proof.
  induction 1 as [|x l Hx _ IH]; simpl; [reflexivity|].
  now rewrite Hx, IH.
Qed.

Lemma filter_none {A} (p : A -> bool) (l : list A) :
  Forall (fun x => p x = false) l -> filter p l = [].
Proof.
  induction 1 as [|x l Hx _ IH]; simpl; [reflexivity|].
  now rewrite Hx, IH.
Qed.

(** The start-up delete on a table whose top block is [m]: the rows of
    [m] go, the rows below stay. *)
Lemma without_top_spec (rows : list StoredRecord) (m : Z) :
  max_block rows = Some m ->
  without_top rows = filter (fun r => negb (block r =? m)) rows
  /\ Forall (fun r => block r < m) (without_top rows).
Proof.
  intros Hm. unfold without_top, is_top. rewrite Hm. split; [reflexivity|].
  pose proof (max_block_spec rows) as H. rewrite Hm in H.
  destruct H as [Hall _]. apply Forall_forall. intros r Hr.
  apply filter_In in Hr as [Hin Hne]. rewrite Forall_forall in Hall.
  specialize (Hall _ Hin). apply negb_true_iff, Z.eqb_neq in Hne. lia.
Qed.

Lemma execute_delete_top_accepted (db : Db) (st : State) :
  delete_ok db (store st) = true ->
  execute_delete_top db st
  = (Return tt, mkState (without_top (store st)) (latest_hash st) (trace st)).
Proof.
  intros H. unfold execute_delete_top, bind, get, set_store.
  now rewrite H.
Qed.

(* ================================================================== *)
(** ** Writes within a block *)

(** C2, refuted as worded: the second INSERT of a block is refused and
    the row of the first transaction stays in the table. *)
Lemma atomic_block_counterexample :
  ~ atomic_block_as_specified (refusing "0x02") (view main_chain 7)
      two_transfers (boot []).
Proof.
  intros H.
  specialize (H DatabaseError
                (snd (insertTxsFromBlock (refusing "0x02") (view main_chain 7)
                        two_transfers (boot [])))
                eq_refl).
  vm_compute in H. discriminate H.
Qed.

(* ================================================================== *)
(** ** One pass of the loop *)

Lemma logged_logged (st : State) (xs ys : list event) :
  logged (logged st xs) ys = logged st (xs ++ ys).
Proof. unfold logged. simpl. now rewrite app_assoc. Qed.

Lemma sync_pass_unfold (cfg : Config) (db : Db) (node : Node) (st : State)
  (maxblockindb endblock : Z) :
  cursor cfg (store st) = Some maxblockindb ->
  safe_head cfg node = Some endblock ->
  sync_pass cfg db node st
  = for_each (py_range (maxblockindb + 1) (endblock + 1))
      (sync_block cfg db node endblock)
      (logged st [InfoBest maxblockindb endblock]).
Proof.
  unfold cursor, safe_head, sync_pass, read_maxblockindb, read_endblock, int.
  intros Hc Hs. unfold bind at 1. unfold bind at 1. unfold get at 1.
  destruct (max_block (store st)) as [m|].
  - injection Hc as ->. unfold ret at 1.
    unfold bind at 1. unfold bind at 1.
    destruct (py_int (confirmationBlocks cfg)) as [c|]; [|discriminate].
    injection Hs as <-. reflexivity.
  - rewrite Hc. unfold ret at 1.
    unfold bind at 1. unfold bind at 1.
    destruct (py_int (confirmationBlocks cfg)) as [c|]; [|discriminate].
    injection Hs as <-. reflexivity.
Qed.

(** Without a cursor or a safe head ([int] raises), a pass requests
    nothing. *)
Lemma sync_pass_no_range (cfg : Config) (db : Db) (node : Node) (st : State) :
  cursor cfg (store st) = None \/ safe_head cfg node = None ->
  sync_pass cfg db node st = (Raise ValueError, st).
Proof.
  unfold cursor, safe_head, sync_pass, read_maxblockindb, read_endblock, int.
  intros H. unfold bind at 1. unfold bind at 1. unfold get at 1.
  destruct (max_block (store st)) as [m|].
  - destruct H as [H|H]; [discriminate|]. unfold ret at 1.
    unfold bind at 1. unfold bind at 1.
    destruct (py_int (confirmationBlocks cfg)); [discriminate | reflexivity].
  - destruct (py_int (startBlock cfg)) as [s|]; [|reflexivity].
    destruct H as [H|H]; [discriminate|]. unfold ret at 1.
    unfold bind at 1. unfold bind at 1.
    destruct (py_int (confirmationBlocks cfg)); [discriminate | reflexivity].
Qed.

Lemma for_each_one {A} (x : A) (body : A -> M unit) (st : State) :
  for_each [x] body st = body x st.
Proof.
  simpl. unfold bind, ret. destruct (body x st) as [[[]|e] st']; reflexivity.
Qed.

(** A pass whose earlier blocks went through arrives at [endblock]. *)
Lemma sync_pass_at_boundary (cfg : Config) (db : Db) (node : Node)
  (st st1 : State) (maxblockindb endblock : Z) :
  cursor cfg (store st) = Some maxblockindb ->
  safe_head cfg node = Some endblock ->
  maxblockindb < endblock ->
  for_each (py_range (maxblockindb + 1) endblock)
    (sync_block cfg db node endblock)
    (snd (log (InfoBest maxblockindb endblock) st)) = (Return tt, st1) ->
  sync_pass cfg db node st = sync_block cfg db node endblock endblock st1.
Proof.
  intros Hc Hs Hlt Hpre.
  rewrite (sync_pass_unfold _ _ _ _ _ _ Hc Hs).
  rewrite py_range_snoc by lia. rewrite for_each_app.
  change (logged st [InfoBest maxblockindb endblock])
    with (snd (log (InfoBest maxblockindb endblock) st)).
  rewrite Hpre. apply for_each_one.
Qed.

(** *** The branch taken on a mismatch *)

Lemma rollback_accepted (cfg : Config) (db : Db) (h depth : Z) (st : State) :
  reorg_blocks cfg = PyInt depth ->
  delete_ok db (store st) = true ->
  rollback cfg db h st
  = (Return tt,
     mkState (without_window (h - 1 - depth) (h - 1) (store st))
       (latest_hash st)
       (trace st ++ [WarnReorganisation; InfoDeleted (h - 1 - depth + 1) (h - 1)])).
Proof.
  intros Hr Hok.
  unfold rollback, py_sub, delete_last_blocks_from_db, try_except,
    execute_delete_window, bind, log, get, set_store, ret.
  rewrite Hr. simpl. rewrite Hok. simpl. now rewrite <- app_assoc.
Qed.

Lemma rollback_refused (cfg : Config) (db : Db) (h depth : Z) (st : State) :
  reorg_blocks cfg = PyInt depth ->
  delete_ok db (store st) = false ->
  rollback cfg db h st
  = (Return tt,
     logged st [WarnReorganisation;
                ErrorDeleteFailed (h - 1 - depth + 1) (h - 1)]).
Proof.
  intros Hr Hok.
  unfold rollback, py_sub, delete_last_blocks_from_db, try_except,
    execute_delete_window, bind, log, get, set_store, ret, raise, logged.
  rewrite Hr. simpl. rewrite Hok. simpl. now rewrite <- app_assoc.
Qed.

Lemma rollback_str (cfg : Config) (db : Db) (h : Z) (s : string) (st : State) :
  reorg_blocks cfg = PyStr s ->
  rollback cfg db h st = (Raise TypeError, logged st [WarnReorganisation]).
Proof.
  intros Hr. unfold rollback, py_sub, bind, log, raise, logged.
  now rewrite Hr.
Qed.

(** Whatever its outcome, the branch requests no block, reports none,
    and keeps [latest_hash]. *)
Lemma rollback_effect (cfg : Config) (db : Db) (h : Z) (st : State) :
  exists evs,
    trace (snd (rollback cfg db h st)) = trace st ++ evs
    /\ Forall quiet evs
    /\ latest_hash (snd (rollback cfg db h st)) = latest_hash st.
Proof.
  destruct (reorg_blocks cfg) as [s|depth] eqn:Hr.
  - rewrite (rollback_str _ _ _ _ _ Hr). eexists. split; [reflexivity|].
    split; [repeat constructor | reflexivity].
  - destruct (delete_ok db (store st)) eqn:Hok.
    + rewrite (rollback_accepted _ _ _ _ _ Hr Hok). eexists.
      split; [reflexivity|]. split; [repeat constructor | reflexivity].
    + rewrite (rollback_refused _ _ _ _ _ Hr Hok). eexists.
      split; [reflexivity|]. split; [repeat constructor | reflexivity].
Qed.

(** *** The branch that indexes *)

Lemma index_block_effect (db : Db) (node : Node) (h : Z) (blk : Block)
  (st : State) :
  index_effect h blk st (index_block db node h blk st).
Proof.
  unfold index_effect.
  destruct (0 <? Z.of_nat (List.length (transactions blk))) eqn:Hlen.
  - assert (Hstep :
        index_block db node h blk st
        = match insertTxsFromBlock db node blk st with
          | (Return _, st1) =>
              (Return tt,
               mkState (store st1) (hex (hash blk))
                 (trace st1 ++ [InfoProcessed h blk]))
          | (Raise e, st1) => (Raise e, st1)
          end).
    { unfold index_block, bind, log, set_latest_hash. rewrite Hlen.
      destruct (insertTxsFromBlock db node blk st) as [[[]|e] st1];
        reflexivity. }
    rewrite Hstep. clear Hstep.
    destruct (insertTxsFromBlock_touches db node blk st)
      as [rows [evs [E [Hrows Hevs]]]].
    pose proof (insertTxsFromBlock_all_discarded_state db node blk st)
      as Hdisc.
    destruct (insertTxsFromBlock db node blk st) as [[[]|e] st1];
      simpl in E; subst st1.
    + exists rows, (evs ++ [InfoProcessed h blk]). simpl.
      split; [reflexivity|]. split; [exact Hrows|]. split.
      { intros Hd. specialize (Hdisc Hd). simpl in Hdisc.
        apply (f_equal store) in Hdisc. simpl in Hdisc.
        rewrite <- (app_nil_r (store st)) in Hdisc at 2.
        now apply app_inv_head in Hdisc. }
      split; [now rewrite app_assoc|].
      rewrite fetched_app, indexed_app, (quiet_fetched _ Hevs),
        (quiet_indexed _ Hevs). simpl. repeat split.
    + exists rows, evs. simpl.
      split; [reflexivity|]. split; [exact Hrows|]. split.
      { intros Hd. specialize (Hdisc Hd). simpl in Hdisc.
        apply (f_equal store) in Hdisc. simpl in Hdisc.
        rewrite <- (app_nil_r (store st)) in Hdisc at 2.
        now apply app_inv_head in Hdisc. }
      split; [reflexivity|].
      rewrite (quiet_fetched _ Hevs), (quiet_indexed _ Hevs). repeat split.
  - unfold index_block, bind, log, set_latest_hash. rewrite Hlen.
    exists [], [InfoNoTransactions h blk]. simpl.
    rewrite app_nil_r. repeat split. constructor.
Qed.

(** *** The loop body *)

Lemma sync_block_rolls_back (cfg : Config) (db : Db) (node : Node)
  (endblock : Z) (st : State) :
  latest_hash st <> hex (parentHash (getBlock node endblock)) ->
  sync_block cfg db node endblock endblock st
  = rollback cfg db endblock (logged st [GetBlock endblock]).
Proof.
  intros Hne. unfold sync_block, bind, log, get. simpl.
  rewrite Z.eqb_refl. apply String.eqb_neq in Hne. rewrite Hne. reflexivity.
Qed.

Lemma sync_block_indexes (cfg : Config) (db : Db) (node : Node)
  (endblock h : Z) (st : State) :
  h <> endblock \/ latest_hash st = hex (parentHash (getBlock node h)) ->
  sync_block cfg db node endblock h st
  = index_block db node h (getBlock node h) (logged st [GetBlock h]).
Proof.
  intros H. unfold sync_block, bind, log, get. simpl.
  destruct H as [H|H].
  - apply Z.eqb_neq in H. rewrite H. reflexivity.
  - apply String.eqb_eq in H. rewrite H, andb_false_r. reflexivity.
Qed.

(** Either branch requests exactly the block at [h]. *)
Lemma sync_block_fetches (cfg : Config) (db : Db) (node : Node)
  (endblock h : Z) (st : State) :
  exists evs,
    trace (snd (sync_block cfg db node endblock h st))
    = trace st ++ GetBlock h :: evs
    /\ fetched evs = [].
Proof.
  destruct (Z.eq_dec h endblock) as [->|Hne].
  - destruct (string_dec (latest_hash st)
                (hex (parentHash (getBlock node endblock)))) as [Heq|Hneq].
    + rewrite sync_block_indexes by now right.
      destruct (index_block_effect db node endblock (getBlock node endblock)
                  (logged st [GetBlock endblock]))
        as [rows [evs [_ [_ [_ [Ht [Hf _]]]]]]].
      exists evs. rewrite Ht. simpl. rewrite <- app_assoc. now split.
    + rewrite sync_block_rolls_back by exact Hneq.
      destruct (rollback_effect cfg db endblock
                  (logged st [GetBlock endblock])) as [evs [Ht [Hq _]]].
      exists evs. rewrite Ht. simpl. rewrite <- app_assoc.
      split; [reflexivity | now apply quiet_fetched].
  - rewrite sync_block_indexes by now left.
    destruct (index_block_effect db node h (getBlock node h)
                (logged st [GetBlock h]))
      as [rows [evs [_ [_ [_ [Ht [Hf _]]]]]]].
    exists evs. rewrite Ht. simpl. rewrite <- app_assoc. now split.
Qed.

(** The heights a loop requests are the first heights of its range, and
    the whole range when it returns. *)
Lemma loop_fetches (cfg : Config) (db : Db) (node : Node) (endblock : Z)
  (l : list Z) (st : State) :
  exists evs,
    trace (snd (for_each l (sync_block cfg db node endblock) st))
    = trace st ++ evs
    /\ (exists rest, l = fetched evs ++ rest)
    /\ (fst (for_each l (sync_block cfg db node endblock) st) = Return tt ->
        fetched evs = l).
Proof.
  revert st. induction l as [|h l IH]; intros st; simpl.
  - exists []. rewrite app_nil_r. split; [reflexivity|].
    split; [now exists [] | reflexivity].
  - destruct (sync_block_fetches cfg db node endblock h st)
      as [evs1 [Ht1 Hf1]].
    unfold bind.
    destruct (sync_block cfg db node endblock h st) as [[[]|e] st1];
      simpl in Ht1.
    + destruct (IH st1) as [evs2 [Ht2 [[rest Hrest] Hall]]].
      exists (GetBlock h :: evs1 ++ evs2).
      rewrite Ht2, Ht1, <- app_assoc. split; [reflexivity|].
      simpl. rewrite fetched_app, Hf1. simpl. split.
      * exists rest. now rewrite Hrest at 1.
      * intros Hr. now rewrite (Hall Hr).
    + exists (GetBlock h :: evs1). simpl. rewrite Ht1, Hf1.
      split; [reflexivity|]. split; [now exists l | discriminate].
Qed.

(** The heights a pass requests lie in [(cursor, safe head]], in order
    from [cursor + 1]. *)
Lemma pass_fetches (cfg : Config) (db : Db) (node : Node) (st : State)
  (maxblockindb endblock : Z) :
  cursor cfg (store st) = Some maxblockindb ->
  safe_head cfg node = Some endblock ->
  exists evs,
    trace (snd (sync_pass cfg db node st))
    = trace st ++ InfoBest maxblockindb endblock :: evs
    /\ (exists rest,
          py_range (maxblockindb + 1) (endblock + 1) = fetched evs ++ rest)
    /\ (fst (sync_pass cfg db node st) = Return tt ->
        fetched evs = py_range (maxblockindb + 1) (endblock + 1)).
Proof.
  intros Hc Hs. rewrite (sync_pass_unfold _ _ _ _ _ _ Hc Hs).
  destruct (loop_fetches cfg db node endblock
              (py_range (maxblockindb + 1) (endblock + 1))
              (logged st [InfoBest maxblockindb endblock]))
    as [evs [Ht [Hp Hall]]].
  exists evs. rewrite Ht. simpl. rewrite <- app_assoc. now repeat split.
Qed.

Lemma events_since_logged (st st' : State) (evs : list event) :
  trace st' = trace st ++ evs -> events_since st st' = evs.
Proof.
  intros H. unfold events_since. rewrite H. clear H.
  induction (trace st) as [|x xs IH]; simpl; [reflexivity | exact IH].
Qed.

(* ================================================================== *)
(** ** The safe head *)

(** C8. In every pass the safe head is the node's block number minus
    [int(confirmationBlocks)], and every block the pass requests has a
    height at most the safe head. *)
Theorem no_fetch_above_safe_head (cfg : Config) (db : Db) (node : Node)
  (st : State) :
  (forall confirmations,
     py_int (confirmationBlocks cfg) = Some confirmations ->
     read_endblock cfg node st
     = (Return (blockNumber node - confirmations), st))
  /\ exists evs,
       trace (snd (sync_pass cfg db node st)) = trace st ++ evs
       /\ forall h,
            In h (fetched evs) ->
            exists confirmations,
              py_int (confirmationBlocks cfg) = Some confirmations
              /\ h <= blockNumber node - confirmations.
Proof.
  split.
  - intros c Hc. unfold read_endblock, int, bind, ret. now rewrite Hc.
  - destruct (cursor cfg (store st)) as [m|] eqn:Hm.
    + destruct (safe_head cfg node) as [e|] eqn:He.
      * destruct (pass_fetches cfg db node st m e Hm He)
          as [evs [Ht [[rest Hrest] _]]].
        exists (InfoBest m e :: evs). split; [exact Ht|].
        simpl. intros h Hh. unfold safe_head in He.
        destruct (py_int (confirmationBlocks cfg)) as [c|]; [|discriminate].
        injection He as He. exists c. split; [reflexivity|].
        assert (Hin : In h (py_range (m + 1) (e + 1))).
        { rewrite Hrest. apply in_or_app. now left. }
        apply in_py_range in Hin. lia.
      * rewrite sync_pass_no_range by now right.
        exists []. simpl. rewrite app_nil_r. split; [reflexivity|].
        intros h [].
    + rewrite sync_pass_no_range by now left.
      exists []. simpl. rewrite app_nil_r. split; [reflexivity|].
      intros h [].
Qed.

(** With two confirmations and the chain head at 105, a pass from block
    100 requests heights up to 103 only. *)
Lemma no_fetch_above_safe_head_witness :
  exists evs,
    trace (snd (sync_pass from_100_confirm_2 reliable (view main_chain 105)
                  (boot [])))
    = trace (boot []) ++ evs
    /\ forall h,
         In h (fetched evs) ->
         exists confirmations,
           py_int (confirmationBlocks from_100_confirm_2) = Some confirmations
           /\ h <= blockNumber (view main_chain 105) - confirmations.
Proof.
  exact (proj2 (no_fetch_above_safe_head from_100_confirm_2 reliable
                  (view main_chain 105) (boot []))).
Defined.

(* ================================================================== *)
(** ** [reorg_blocks] and the rollback *)

(** C10, refuted as worded: with [CONFIRMATIONS_BLOCK] set to the empty
    string, [reorg_blocks] is the integer 10. *)
Lemma reorg_blocks_counterexample :
  ~ reorg_blocks_as_specified (mkEnviron None (Some "") None).
Proof.
  intros H. specialize (H "" eq_refl). discriminate H.
Qed.

(** C10, as the code has it.  Unset or empty, [CONFIRMATIONS_BLOCK]
    leaves [reorg_blocks] at the integer 10 and the confirmation depth at
    ["0"].  Set to a non-empty string, [reorg_blocks] is that string, and
    a pass that arrives at [endblock] with a hash mismatch raises
    [TypeError] in [blockHeight - 1 - reorg_blocks]: nothing is deleted,
    and the loop ends there whatever passes would follow. *)
Theorem string_reorg_blocks_raises (environ : Environ) :
  (truthy (CONFIRMATIONS_BLOCK environ) = None ->
   reorg_blocks (load_config environ) = PyInt 10
   /\ confirmationBlocks (load_config environ) = "0")
  /\ (forall s,
        CONFIRMATIONS_BLOCK environ = Some s ->
        s <> "" ->
        reorg_blocks (load_config environ) = PyStr s
        /\ forall db node rest st st1 maxblockindb endblock,
             cursor (load_config environ) (store st) = Some maxblockindb ->
             safe_head (load_config environ) node = Some endblock ->
             maxblockindb < endblock ->
             for_each (py_range (maxblockindb + 1) endblock)
               (sync_block (load_config environ) db node endblock)
               (snd (log (InfoBest maxblockindb endblock) st))
             = (Return tt, st1) ->
             latest_hash st1 <> hex (parentHash (getBlock node endblock)) ->
             sync_loop (load_config environ) db (node :: rest) st
             = (Raise TypeError,
                logged st1 [GetBlock endblock; WarnReorganisation])).
Proof.
  split.
  - intros H. unfold load_config, get_or. simpl. rewrite H. now split.
  - intros s Hs Hne.
    assert (Hr : reorg_blocks (load_config environ) = PyStr s).
    { unfold load_config. simpl. rewrite Hs.
      destruct s; [contradiction | reflexivity]. }
    split; [exact Hr|].
    intros db node rest st st1 m e Hc Hsafe Hlt Hpre Hmis.
    unfold sync_loop. simpl. unfold bind.
    rewrite (sync_pass_at_boundary _ _ _ _ _ _ _ Hc Hsafe Hlt Hpre).
    rewrite (sync_block_rolls_back _ _ _ _ _ Hmis).
    rewrite (rollback_str _ _ _ _ _ Hr). now rewrite logged_logged.
Qed.

(** [CONFIRMATIONS_BLOCK=2], block 103 in the table, the chain head at
    106: the first pass stops with [TypeError] at block 104. *)
Lemma string_reorg_blocks_raises_witness :
  reorg_blocks (load_config (mkEnviron (Some "100") (Some "2") None))
  = PyStr "2"
  /\ sync_loop (load_config (mkEnviron (Some "100") (Some "2") None))
       reliable [view main_chain 106; view main_chain 107] (boot [stored 103])
     = (Raise TypeError,
        logged (logged (boot [stored 103]) [InfoBest 103 104])
          [GetBlock 104; WarnReorganisation]).
Proof.
  destruct (proj2 (string_reorg_blocks_raises
                     (mkEnviron (Some "100") (Some "2") None))
              "2" eq_refl ltac:(discriminate)) as [Hr Hloop].
  split; [exact Hr|].
  apply (Hloop reliable (view main_chain 106) [view main_chain 107]
           (boot [stored 103]) _ 103 104);
    [reflexivity | reflexivity | lia | reflexivity | discriminate].
Defined.

Lemma hex_not_empty (bs : HexBytes) : "" <> hex bs.
Proof. unfold hex. simpl. discriminate. Qed.

(** The first pass over one new block does not always delete the rows
    of the window: with [CONFIRMATIONS_BLOCK=2] it deletes nothing, and
    block 103 keeps its row. *)
Lemma first_pass_rollback_counterexample :
  ~ first_pass_rollback_as_specified from_100_confirm_2 reliable
      (view main_chain 106) [stored 103].
Proof.
  intros H. specialize (H 103 104 2 eq_refl eq_refl eq_refl eq_refl).
  vm_compute in H. discriminate H.
Qed.

(** While [latest_hash] is still the empty string, a pass whose range
    is the single block [endblock] finds the comparison of line 205
    false whatever the block's parent hash is, and takes the rollback
    branch without indexing the block.  With [reorg_blocks] an integer
    and the DELETE accepted, the rows of blocks in
    [(endblock - 1 - reorg_blocks, endblock - 1]] are deleted; with
    [reorg_blocks] a string, line 208 raises [TypeError] after the
    warning and nothing is deleted. *)
Lemma first_single_block_pass_rolls_back (cfg : Config) (db : Db)
  (node : Node) (st : State) (maxblockindb endblock : Z) :
  latest_hash st = "" ->
  cursor cfg (store st) = Some maxblockindb ->
  safe_head cfg node = Some endblock ->
  maxblockindb + 1 = endblock ->
  latest_hash st <> hex (parentHash (getBlock node endblock))
  /\ sync_pass cfg db node st
     = rollback cfg db endblock
         (logged st [InfoBest maxblockindb endblock; GetBlock endblock])
  /\ (forall depth,
        reorg_blocks cfg = PyInt depth ->
        delete_ok db (store st) = true ->
        sync_pass cfg db node st
        = (Return tt,
           mkState
             (without_window (endblock - 1 - depth) (endblock - 1) (store st))
             ""
             (trace st
              ++ [InfoBest maxblockindb endblock; GetBlock endblock;
                  WarnReorganisation;
                  InfoDeleted (endblock - 1 - depth + 1) (endblock - 1)])))
  /\ forall s,
       reorg_blocks cfg = PyStr s ->
       sync_pass cfg db node st
       = (Raise TypeError,
          mkState (store st) ""
            (trace st
             ++ [InfoBest maxblockindb endblock; GetBlock endblock;
                 WarnReorganisation])).
Proof.
  intros Hempty Hc Hs Hone.
  assert (Hmis : latest_hash st <> hex (parentHash (getBlock node endblock))).
  { rewrite Hempty. apply hex_not_empty. }
  assert (Hpass : sync_pass cfg db node st
                  = rollback cfg db endblock
                      (logged st [InfoBest maxblockindb endblock;
                                  GetBlock endblock])).
  { rewrite (sync_pass_at_boundary cfg db node st
               (logged st [InfoBest maxblockindb endblock])
               maxblockindb endblock Hc Hs ltac:(lia)).
    - rewrite sync_block_rolls_back by exact Hmis. now rewrite logged_logged.
    - rewrite py_range_nil by lia. reflexivity. }
  split; [exact Hmis|]. split; [exact Hpass|]. split.
  - intros depth Hr Hok. rewrite Hpass.
    rewrite (rollback_accepted cfg db endblock depth
               (logged st [InfoBest maxblockindb endblock; GetBlock endblock])
               Hr Hok).
    simpl. rewrite Hempty, <- app_assoc. reflexivity.
  - intros s Hr. rewrite Hpass.
    rewrite (rollback_str cfg db endblock s _ Hr). unfold logged. simpl.
    rewrite Hempty, <- app_assoc. reflexivity.
Qed.

(** C9, evaluated where the code departs from it.  A fresh process
    ([latest_hash] empty) whose first pass has one new block takes the
    reorg branch although the chain did not change.  With
    [CONFIRMATIONS_BLOCK] unset the row of block 104 is deleted, as C9
    has it.  With [CONFIRMATIONS_BLOCK=2], over a table that ends at
    block 103 and the chain head at 106, line 208 subtracts the string
    from an integer: the pass raises [TypeError] after the warning and
    the row of block 103 is still there. *)
Theorem first_pass_with_string_depth_raises :
  sync_pass from_100 reliable (view main_chain 105) (boot [stored 104])
  = (Return tt,
     mkState [] ""
       [InfoBest 104 105; GetBlock 105; WarnReorganisation;
        InfoDeleted 95 104])
  /\ reorg_blocks from_100_confirm_2 = PyStr "2"
  /\ sync_pass from_100_confirm_2 reliable (view main_chain 106)
       (boot [stored 103])
     = (Raise TypeError,
        mkState [stored 103] ""
          [InfoBest 103 104; GetBlock 104; WarnReorganisation]).
Proof.
  split; [|split; [reflexivity|]].
  - exact (proj1 (proj2 (proj2
             (first_single_block_pass_rolls_back from_100 reliable
                (view main_chain 105) (boot [stored 104]) 104 105
                eq_refl eq_refl eq_refl eq_refl)))
             10 eq_refl eq_refl).
  - exact (proj2 (proj2 (proj2
             (first_single_block_pass_rolls_back from_100_confirm_2 reliable
                (view main_chain 106) (boot [stored 103]) 103 104
                eq_refl eq_refl eq_refl eq_refl)))
             "2" eq_refl).
Qed.

(* ================================================================== *)
(** ** The blocks before the safe head *)

Lemma last_cons {A} (a : A) (l : list A) (d : A) : last (a :: l) d = last l a.
Proof.
  revert a d. induction l as [|b l IH]; intros a d; [reflexivity|].
  change (last (a :: b :: l) d) with (last (b :: l) d).
  now rewrite !IH.
Qed.

Lemma row_from_incl (node : Node) (l l' : list Z) (r : StoredRecord) :
  incl l l' -> row_from node l r -> row_from node l' r.
Proof. intros Hi [h [Hh H]]. exists h. split; [now apply Hi | exact H]. Qed.

(** A loop over heights other than [endblock] indexes each of them:
    rows are only added, each for one of the heights; the blocks
    reported are the node's; and when the loop returns, [latest_hash] is
    the hash of the last block of the range. *)
Lemma prefix_loop_effect (cfg : Config) (db : Db) (node : Node)
  (endblock : Z) (l : list Z) (st : State) :
  ~ In endblock l ->
  exists rows evs,
    store (snd (for_each l (sync_block cfg db node endblock) st))
    = store st ++ rows
    /\ Forall (row_from node l) rows
    /\ trace (snd (for_each l (sync_block cfg db node endblock) st))
       = trace st ++ evs
    /\ (forall h b, In (h, b) (indexed evs) -> In h l /\ b = getBlock node h)
    /\ (fst (for_each l (sync_block cfg db node endblock) st) = Return tt ->
        latest_hash (snd (for_each l (sync_block cfg db node endblock) st))
        = last (map (fun h => hex (hash (getBlock node h))) l)
            (latest_hash st)).
Proof.
  revert st. induction l as [|h l IH]; intros st Hnot.
  - exists [], []. simpl. rewrite !app_nil_r.
    repeat split; try reflexivity; try constructor; contradiction.
  - assert (Hh : h <> endblock) by (intros ->; apply Hnot; now left).
    assert (Hl : ~ In endblock l) by (intros H; apply Hnot; now right).
    assert (Hout :
        for_each (h :: l) (sync_block cfg db node endblock) st
        = match index_block db node h (getBlock node h)
                  (logged st [GetBlock h]) with
          | (Return _, st1) =>
              for_each l (sync_block cfg db node endblock) st1
          | (Raise err, st1) => (Raise err, st1)
          end).
    { simpl. unfold bind. rewrite sync_block_indexes by now left.
      destruct (index_block db node h (getBlock node h)
                  (logged st [GetBlock h])) as [[[]|err] st1]; reflexivity. }
    rewrite Hout. clear Hout.
    destruct (index_block_effect db node h (getBlock node h)
                (logged st [GetBlock h]))
      as [rows1 [evs1 [Hs1 [Hr1 [Hd1 [Ht1 [_ Hres1]]]]]]].
    assert (Hrows1 : Forall (row_from node (h :: l)) rows1).
    { apply Forall_forall. intros r Hr. exists h. split; [now left|].
      split; [rewrite Forall_forall in Hr1; now apply Hr1|].
      destruct (forallb discarded (transactions (getBlock node h)));
        [|reflexivity].
      rewrite (Hd1 eq_refl) in Hr. contradiction. }
    destruct (index_block db node h (getBlock node h)
                (logged st [GetBlock h])) as [[[]|err] st1];
      simpl in Hs1, Ht1, Hres1.
    + destruct Hres1 as [Hlh1 Hix1].
      destruct (IH st1 Hl) as [rows2 [evs2 [Hs2 [Hr2 [Ht2 [Hix2 Hlh2]]]]]].
      exists (rows1 ++ rows2), (GetBlock h :: evs1 ++ evs2).
      split; [now rewrite Hs2, Hs1, app_assoc|].
      split.
      { apply Forall_app. split; [exact Hrows1|].
        eapply Forall_impl; [|exact Hr2]. intros r.
        apply row_from_incl. intros x Hx. now right. }
      split; [now rewrite Ht2, Ht1, <- !app_assoc|].
      split.
      { intros h' b Hin. simpl in Hin. rewrite indexed_app, Hix1 in Hin.
        destruct Hin as [[= <- <-] | Hin]; [now split; [left|]|].
        destruct (Hix2 _ _ Hin) as [Hh' Hb]. split; [now right | exact Hb]. }
      intros Hret. rewrite (Hlh2 Hret), Hlh1. simpl map.
      now rewrite last_cons.
    + destruct Hres1 as [_ Hix1].
      exists rows1, (GetBlock h :: evs1). simpl.
      split; [exact Hs1|]. split; [exact Hrows1|].
      split; [now rewrite Ht1, <- app_assoc|].
      split; [rewrite Hix1; intros ? ? []|discriminate].
Qed.

(** On a node that numbers its blocks, the rows a loop over the heights
    [lo..hi-1] adds have blocks in that range. *)
Lemma rows_from_range (node : Node) (lo hi : Z) (rows : list StoredRecord) :
  numbers_blocks node ->
  Forall (row_from node (py_range lo hi)) rows ->
  Forall (fun r => lo <= block r < hi) rows.
Proof.
  intros Hn. apply Forall_impl. intros r [h [Hh [Hb _]]].
  rewrite Hb, Hn. now apply in_py_range.
Qed.

(** The rows a pass starts from are at or below its cursor. *)
Lemma rows_below_cursor (cfg : Config) (rows : list StoredRecord) (m : Z) :
  cursor cfg rows = Some m -> Forall (fun r => block r <= m) rows.
Proof.
  unfold cursor. intros H. pose proof (max_block_spec rows) as Hs.
  destruct (max_block rows) as [m'|].
  - injection H as <-. apply Hs.
  - subst rows. constructor.
Qed.

Lemma cursor_cases (cfg : Config) (rows : list StoredRecord) (m : Z) :
  cursor cfg rows = Some m ->
  max_block rows = Some m
  \/ (rows = [] /\ py_int (startBlock cfg) = Some m).
Proof.
  unfold cursor. intros H. pose proof (max_block_spec rows) as Hs.
  destruct (max_block rows) as [m'|]; [left; exact H | right; now split].
Qed.

(* ================================================================== *)
(** ** Rollback at the safe head *)

(** C1, refuted as worded: a pass that deletes every row leaves no
    [max(block)] for the next pass to start from.  From a table holding
    block 104 only, the first pass (one new block, 105) deletes the rows
    of blocks 95-104; the next pass starts at [START_BLOCK + 1 = 101]. *)
Lemma rollback_counterexample :
  ~ rollback_as_specified from_100 reliable (view main_chain 105)
      (view main_chain 105) (boot [stored 104]).
Proof.
  intros H.
  specialize (H 104 105 10 (logged (boot [stored 104]) [InfoBest 104 105])
                eq_refl eq_refl eq_refl ltac:(lia) eq_refl
                ltac:(discriminate)).
  destruct H as [_ [_ [m [rest [Hm _]]]]].
  vm_compute in Hm. discriminate Hm.
Qed.

(** C1, as the code has it.  When a pass has gone through the blocks
    below [endblock], the block fetched at [endblock] has a parent hash
    other than [latest_hash], [reorg_blocks] is an integer and the DELETE
    is accepted, then: the rows with
    [endblock - 1 - reorg_blocks < block <= endblock - 1] are deleted and
    no other; the block at [endblock] is not indexed and [latest_hash]
    stays; the pass returns.  The next pass takes its cursor from the
    rows that remain, [max(block)], or [int(startBlock)] when none
    remains, and requests the heights from cursor + 1 up to its safe
    head, in order.  On a node that numbers its blocks, a remaining
    [max(block)] is at most [endblock - 1 - reorg_blocks], so every
    height of the window is above the next cursor. *)
Theorem rollback_on_boundary_mismatch (cfg : Config) (db : Db) (node : Node)
  (st st1 : State) (maxblockindb endblock depth : Z) :
  cursor cfg (store st) = Some maxblockindb ->
  safe_head cfg node = Some endblock ->
  maxblockindb < endblock ->
  for_each (py_range (maxblockindb + 1) endblock)
    (sync_block cfg db node endblock)
    (snd (log (InfoBest maxblockindb endblock) st)) = (Return tt, st1) ->
  latest_hash st1 <> hex (parentHash (getBlock node endblock)) ->
  reorg_blocks cfg = PyInt depth ->
  delete_ok db (store st1) = true ->
  let st2 :=
    mkState
      (without_window (endblock - 1 - depth) (endblock - 1) (store st1))
      (latest_hash st1)
      (trace st1
       ++ [GetBlock endblock; WarnReorganisation;
           InfoDeleted (endblock - 1 - depth + 1) (endblock - 1)]) in
  sync_pass cfg db node st = (Return tt, st2)
  /\ (forall r,
        In r (store st2)
        <-> In r (store st1)
            /\ ~ (endblock - 1 - depth < block r <= endblock - 1))
  /\ (forall next m' e',
        cursor cfg (store st2) = Some m' ->
        safe_head cfg next = Some e' ->
        (max_block (store st2) = Some m'
         \/ (store st2 = [] /\ py_int (startBlock cfg) = Some m'))
        /\ exists evs,
             trace (snd (sync_pass cfg db next st2))
             = trace st2 ++ InfoBest m' e' :: evs
             /\ (exists rest,
                   py_range (m' + 1) (e' + 1) = fetched evs ++ rest)
             /\ (fst (sync_pass cfg db next st2) = Return tt ->
                 fetched evs = py_range (m' + 1) (e' + 1)))
  /\ (numbers_blocks node ->
      forall m',
        max_block (store st2) = Some m' -> m' <= endblock - 1 - depth).
Proof.
  intros Hc Hs Hlt Hpre Hmis Hr Hok st2.
  assert (Hmem : forall r,
             In r (store st2)
             <-> In r (store st1)
                 /\ ~ (endblock - 1 - depth < block r <= endblock - 1)).
  { intros r. unfold st2, without_window, in_window. simpl.
    rewrite filter_In. split; intros [Hin Hw]; (split; [exact Hin|]).
    - apply negb_true_iff, andb_false_iff in Hw.
      destruct Hw as [Hw|Hw]; [apply Z.ltb_ge in Hw | apply Z.leb_gt in Hw];
        lia.
    - apply negb_true_iff, andb_false_iff.
      destruct (Z.ltb_spec (endblock - 1 - depth) (block r));
        [right; apply Z.leb_gt; lia | now left]. }
  split; [|split; [exact Hmem|split]].
  - rewrite (sync_pass_at_boundary _ _ _ _ _ _ _ Hc Hs Hlt Hpre).
    rewrite (sync_block_rolls_back _ _ _ _ _ Hmis).
    rewrite (rollback_accepted cfg db endblock depth
               (logged st1 [GetBlock endblock]) Hr Hok).
    unfold st2. simpl. now rewrite <- app_assoc.
  - intros next m' e' Hc' Hs'. split; [now apply cursor_cases|].
    apply pass_fetches; assumption.
  - intros Hn m' Hm'.
    assert (Hnot : ~ In endblock (py_range (maxblockindb + 1) endblock)).
    { rewrite in_py_range. lia. }
    destruct (prefix_loop_effect cfg db node endblock
                (py_range (maxblockindb + 1) endblock)
                (snd (log (InfoBest maxblockindb endblock) st)) Hnot)
      as [rows [evs [Hst [Hrows _]]]].
    rewrite Hpre in Hst. simpl in Hst.
    apply (rows_from_range node _ _ _ Hn) in Hrows.
    pose proof (rows_below_cursor cfg _ _ Hc) as Hold.
    pose proof (max_block_spec (store st2)) as Hspec. rewrite Hm' in Hspec.
    destruct Hspec as [_ [r [Hin Hb]]]. apply Hmem in Hin as [Hin Hw].
    rewrite Hst in Hin. apply in_app_or in Hin.
    rewrite Forall_forall in Hrows, Hold.
    destruct Hin as [Hin|Hin]; [specialize (Hold _ Hin) |
                                specialize (Hrows _ Hin)]; lia.
Qed.

(** The table holds blocks 94, 101 and 104 of the main chain and the
    engine remembers the hash of 104; the node, now at 105, serves a
    chain that forked at 104.  The pass stops at 105 and deletes the rows
    of blocks 95-104; the row of block 94 stays. *)
Lemma rollback_on_boundary_mismatch_witness :
  sync_pass from_100 reliable (view (side_chain 104) 105)
    (mkState [stored 94; stored 101; stored 104] "0x68" [])
  = (Return tt,
     mkState
       (without_window (105 - 1 - 10) (105 - 1)
          [stored 94; stored 101; stored 104])
       "0x68"
       ([InfoBest 104 105]
        ++ [GetBlock 105; WarnReorganisation;
            InfoDeleted (105 - 1 - 10 + 1) (105 - 1)]))
  /\ without_window (105 - 1 - 10) (105 - 1)
       [stored 94; stored 101; stored 104]
     = [stored 94].
Proof.
  split; [|reflexivity].
  exact (proj1 (rollback_on_boundary_mismatch from_100 reliable
                  (view (side_chain 104) 105)
                  (mkState [stored 94; stored 101; stored 104] "0x68" [])
                  (mkState [stored 94; stored 101; stored 104] "0x68"
                     [InfoBest 104 105])
                  104 105 10 eq_refl eq_refl ltac:(lia) eq_refl
                  ltac:(vm_compute; discriminate) eq_refl eq_refl)).
Defined.

(* ================================================================== *)
(** ** [hex] is one-to-one *)

Lemma unhex2_hex2 (b : byte) : unhex2 (hex2 b) = Some b.
Proof. destruct b; reflexivity. Qed.

Lemma hex2_shape (b : byte) :
  exists hi lo, hex2 b = String hi (String lo EmptyString).
Proof. unfold hex2. eauto. Qed.

Lemma hex_body_inj (xs ys : list byte) : hex_body xs = hex_body ys -> xs = ys.
Proof.
  revert ys. induction xs as [|x xs IH]; intros [|y ys] H;
    cbn [hex_body] in H.
  - reflexivity.
  - destruct (hex2_shape y) as [hi [lo E]]. rewrite E in H. discriminate H.
  - destruct (hex2_shape x) as [hi [lo E]]. rewrite E in H. discriminate H.
  - destruct (hex2_shape x) as [hx [lx Ex]].
    destruct (hex2_shape y) as [hy [ly Ey]].
    rewrite Ex, Ey in H. simpl in H. injection H as Hh Hl Hrest.
    f_equal; [|now apply IH].
    assert (E : Some x = Some y).
    { rewrite <- (unhex2_hex2 x), <- (unhex2_hex2 y), Ex, Ey.
      now subst. }
    now injection E.
Qed.

Lemma hex_inj (xs ys : HexBytes) : hex xs = hex ys -> xs = ys.
Proof.
  unfold hex. simpl. intros H. injection H as H. now apply hex_body_inj.
Qed.

(* ================================================================== *)
(** ** Continuity *)

(** C6, refuted as worded.  The engine indexes blocks 101 and 102 of the
    main chain; the chain then reorganises from 102 on and grows to 104.
    The next pass indexes 103 and 104 of the new chain: at 103 nothing is
    compared, at 104 the parent is the 103 just indexed.  Blocks 102 and
    103 both have rows, and the parent of 103 is not the 102 that was
    indexed. *)
Lemma continuity_counterexample :
  ~ continuity_as_specified
      (snd (main from_100 reliable
              [view main_chain 102; view (side_chain 102) 104] (boot []))).
Proof.
  intros H.
  specialize (H 103 (main_chain 102) (side_chain 102 103)
                ltac:(vm_compute; discriminate)
                ltac:(vm_compute; discriminate) eq_refl eq_refl).
  vm_compute in H. discriminate H.
Qed.

(** C6, as the code has it: the link is checked for the block at the safe
    head only.  When a pass reports the block at [endblock] as gone
    through, that block is the one the node gave, and its parent hash is
    the hash the engine remembered: the hash of the block at
    [endblock - 1] as this pass fetched it when the pass covers that
    height, and otherwise the [latest_hash] the pass started with. *)
Theorem boundary_block_is_chained (cfg : Config) (db : Db) (node : Node)
  (st : State) (maxblockindb endblock : Z) (blk : Block) :
  cursor cfg (store st) = Some maxblockindb ->
  safe_head cfg node = Some endblock ->
  In (endblock, blk)
    (indexed (events_since st (snd (sync_pass cfg db node st)))) ->
  blk = getBlock node endblock
  /\ (maxblockindb + 1 < endblock ->
      parentHash blk = hash (getBlock node (endblock - 1)))
  /\ (maxblockindb + 1 = endblock -> hex (parentHash blk) = latest_hash st).
Proof.
  intros Hc Hs. rewrite (sync_pass_unfold _ _ _ _ _ _ Hc Hs).
  set (st0 := logged st [InfoBest maxblockindb endblock]).
  destruct (Z_lt_le_dec maxblockindb endblock) as [Hlt|Hle].
  2:{ rewrite py_range_nil by lia. simpl.
      rewrite (events_since_logged st st0 [InfoBest maxblockindb endblock])
        by reflexivity.
      intros []. }
  rewrite py_range_snoc by lia. rewrite for_each_app.
  assert (Hnot : ~ In endblock (py_range (maxblockindb + 1) endblock)).
  { rewrite in_py_range. lia. }
  destruct (prefix_loop_effect cfg db node endblock
              (py_range (maxblockindb + 1) endblock) st0 Hnot)
    as [rows [evs1 [_ [_ [Ht1 [Hix1 Hlh1]]]]]].
  assert (Hnot1 : ~ In (endblock, blk) (indexed evs1)).
  { intros Hin. destruct (Hix1 _ _ Hin) as [Hin' _]. contradiction. }
  destruct (for_each (py_range (maxblockindb + 1) endblock)
              (sync_block cfg db node endblock) st0) as [[[]|err] st1];
    simpl in Ht1, Hlh1; cbv beta iota.
  2:{ cbn [snd]. rewrite (events_since_logged st st1
                 (InfoBest maxblockindb endblock :: evs1))
        by (rewrite Ht1; simpl; now rewrite <- app_assoc).
      simpl. intros Hin. contradiction. }
  specialize (Hlh1 eq_refl). rewrite for_each_one.
  destruct (string_dec (latest_hash st1)
              (hex (parentHash (getBlock node endblock)))) as [Heq|Hneq].
  - rewrite sync_block_indexes by now right.
    destruct (index_block_effect db node endblock (getBlock node endblock)
                (logged st1 [GetBlock endblock]))
      as [rows2 [evs2 [_ [_ [_ [Ht2 [_ Hres2]]]]]]].
    rewrite (events_since_logged st _
               (InfoBest maxblockindb endblock
                :: evs1 ++ GetBlock endblock :: evs2))
      by (rewrite Ht2; simpl; rewrite Ht1; simpl;
          now rewrite <- !app_assoc).
    simpl. rewrite indexed_app. simpl. intros Hin.
    apply in_app_or in Hin. destruct Hin as [Hin|Hin]; [contradiction|].
    assert (Hblk : blk = getBlock node endblock).
    { destruct (fst (index_block db node endblock (getBlock node endblock)
                       (logged st1 [GetBlock endblock])));
        destruct Hres2 as [_ Hix2]; rewrite Hix2 in Hin;
        [destruct Hin as [[= <-]|[]]; reflexivity | destruct Hin]. }
    subst blk. split; [reflexivity|]. split.
    + intros Hmore. apply hex_inj. rewrite <- Heq, Hlh1.
      replace endblock with (endblock - 1 + 1) at 1 by lia.
      rewrite py_range_snoc by lia. rewrite map_app. simpl.
      now rewrite last_last.
    + intros Hone. rewrite <- Heq, Hlh1.
      rewrite py_range_nil by lia. reflexivity.
  - rewrite sync_block_rolls_back by exact Hneq.
    destruct (rollback_effect cfg db endblock
                (logged st1 [GetBlock endblock])) as [evs2 [Ht2 [Hq2 _]]].
    rewrite (events_since_logged st _
               (InfoBest maxblockindb endblock
                :: evs1 ++ GetBlock endblock :: evs2))
      by (rewrite Ht2; simpl; rewrite Ht1; simpl;
          now rewrite <- !app_assoc).
    simpl. rewrite indexed_app. simpl. rewrite (quiet_indexed _ Hq2).
    rewrite app_nil_r. intros Hin. contradiction.
Qed.

(** A fresh engine from block 100 with the chain head at 103: the pass
    goes through 103, whose parent hash is the hash of the 102 it fetched
    just before. *)
Lemma boundary_block_is_chained_witness :
  main_chain 103 = getBlock (view main_chain 103) 103
  /\ (100 + 1 < 103 ->
      parentHash (main_chain 103)
      = hash (getBlock (view main_chain 103) (103 - 1)))
  /\ (100 + 1 = 103 ->
      hex (parentHash (main_chain 103)) = latest_hash (boot [])).
Proof.
  apply (boundary_block_is_chained from_100 reliable (view main_chain 103)
           (boot []) 100 103 (main_chain 103)).
  - reflexivity.
  - reflexivity.
  - vm_compute. right. right. now left.
Defined.

(* ================================================================== *)
(** ** The sleep between passes *)

Lemma wait_period_state (cfg : Config) (st : State) :
  snd (wait_period cfg st) = st.
Proof.
  unfold wait_period, int, sleep, bind.
  destruct (py_int (pollingPeriod cfg)) as [secs|]; simpl; [|reflexivity].
  destruct (secs <? 0); [reflexivity|].
  destruct (sleep_max <? secs); reflexivity.
Qed.

Lemma wait_period_sleeps (cfg : Config) (st : State) :
  sleeps cfg -> wait_period cfg st = (Return tt, st).
Proof.
  intros [secs [Hint [Hlo Hhi]]]. unfold wait_period, int, sleep, bind.
  rewrite Hint. simpl.
  destruct (Z.ltb_spec secs 0) as [Hneg|_]; [lia|].
  destruct (Z.ltb_spec sleep_max secs) as [Hbig|_]; [lia | reflexivity].
Qed.

Lemma sleeps_of_period (cfg : Config) (secs : Z) :
  py_int (pollingPeriod cfg) = Some secs ->
  (0 <=? secs) && (secs <=? sleep_max) = true ->
  sleeps cfg.
Proof.
  intros Hint Hrange. apply andb_prop in Hrange as [Hlo Hhi].
  exists secs. split; [exact Hint|]. split; now apply Z.leb_le.
Qed.

(** One turn of [while True]: the pass, the sleep when the pass returned,
    then the turns that follow. *)
Lemma sync_loop_cons (cfg : Config) (db : Db) (node : Node)
  (rest : list Node) (st : State) :
  sync_loop cfg db (node :: rest) st
  = match sync_pass cfg db node st with
    | (Return _, st1) =>
        match wait_period cfg st1 with
        | (Return _, st2) => sync_loop cfg db rest st2
        | (Raise e, st2) => (Raise e, st2)
        end
    | (Raise e, st1) => (Raise e, st1)
    end.
Proof.
  unfold sync_loop. simpl. unfold bind.
  destruct (sync_pass cfg db node st) as [[[]|e] st1]; [|reflexivity].
  destruct (wait_period cfg st1) as [[[]|e] st2]; reflexivity.
Qed.

Lemma sync_loop_cons_sleeps (cfg : Config) (db : Db) (node : Node)
  (rest : list Node) (st : State) :
  sleeps cfg ->
  sync_loop cfg db (node :: rest) st
  = match sync_pass cfg db node st with
    | (Return _, st1) => sync_loop cfg db rest st1
    | (Raise e, st1) => (Raise e, st1)
    end.
Proof.
  intros Hp. rewrite sync_loop_cons.
  destruct (sync_pass cfg db node st) as [[[]|e] st1]; [|reflexivity].
  now rewrite wait_period_sleeps.
Qed.

(** A pass that raises ends the loop. *)
Lemma sync_loop_raises (cfg : Config) (db : Db) (node : Node)
  (rest : list Node) (st st1 : State) (e : exn) :
  sync_pass cfg db node st = (Raise e, st1) ->
  sync_loop cfg db (node :: rest) st = (Raise e, st1).
Proof. intros H. now rewrite sync_loop_cons, H. Qed.

(** The state one turn leaves is the state its pass leaves. *)
Lemma sync_loop_one_state (cfg : Config) (db : Db) (node : Node)
  (st : State) :
  snd (sync_loop cfg db [node] st) = snd (sync_pass cfg db node st).
Proof.
  rewrite sync_loop_cons.
  destruct (sync_pass cfg db node st) as [[[]|e] st1]; [|reflexivity].
  pose proof (wait_period_state cfg st1) as Hw.
  destruct (wait_period cfg st1) as [[[]|e] st2]; exact Hw.
Qed.

(* ================================================================== *)
(** ** Restart *)

(** A pass that does not take the rollback branch only adds rows, each
    for one of the heights of its range. *)
Lemma pass_without_rollback (cfg : Config) (db : Db) (node : Node)
  (st : State) (maxblockindb endblock : Z) :
  cursor cfg (store st) = Some maxblockindb ->
  safe_head cfg node = Some endblock ->
  endblock <> maxblockindb + 1 ->
  (maxblockindb + 1 < endblock ->
   hex (parentHash (getBlock node endblock))
   = hex (hash (getBlock node (endblock - 1)))) ->
  exists rows,
    store (snd (sync_pass cfg db node st)) = store st ++ rows
    /\ Forall (row_from node (py_range (maxblockindb + 1) (endblock + 1)))
         rows.
Proof.
  intros Hc Hs Hne Hlink. rewrite (sync_pass_unfold _ _ _ _ _ _ Hc Hs).
  set (st0 := logged st [InfoBest maxblockindb endblock]).
  destruct (Z_lt_le_dec maxblockindb endblock) as [Hlt|Hle].
  2:{ rewrite py_range_nil by lia. exists []. simpl.
      rewrite app_nil_r. split; [reflexivity | constructor]. }
  rewrite py_range_snoc by lia. rewrite for_each_app.
  assert (Hnot : ~ In endblock (py_range (maxblockindb + 1) endblock)).
  { rewrite in_py_range. lia. }
  destruct (prefix_loop_effect cfg db node endblock
              (py_range (maxblockindb + 1) endblock) st0 Hnot)
    as [rows1 [evs1 [Hst1 [Hrows1 [_ [_ Hlh1]]]]]].
  assert (Hrows1' :
            Forall (row_from node
                      (py_range (maxblockindb + 1) endblock ++ [endblock]))
              rows1).
  { eapply Forall_impl; [|exact Hrows1]. intros r. apply row_from_incl.
    intros x Hx. apply in_or_app. now left. }
  destruct (for_each (py_range (maxblockindb + 1) endblock)
              (sync_block cfg db node endblock) st0) as [[[]|err] st1];
    simpl in Hst1, Hlh1; cbv beta iota.
  2:{ exists rows1. split; [exact Hst1 | exact Hrows1']. }
  specialize (Hlh1 eq_refl). rewrite for_each_one.
  assert (Heq : latest_hash st1 = hex (parentHash (getBlock node endblock))).
  { rewrite Hlh1, Hlink by lia.
    replace endblock with (endblock - 1 + 1) at 1 by lia.
    rewrite py_range_snoc by lia. rewrite map_app. simpl.
    now rewrite last_last. }
  rewrite sync_block_indexes by now right.
  destruct (index_block_effect db node endblock (getBlock node endblock)
              (logged st1 [GetBlock endblock]))
    as [rows2 [evs2 [Hst2 [Hrows2 [Hd2 _]]]]].
  exists (rows1 ++ rows2). simpl in Hst2.
  split; [now rewrite Hst2, Hst1, app_assoc|].
  apply Forall_app. split; [exact Hrows1'|].
  apply Forall_forall. intros r Hr. exists endblock.
  split; [apply in_or_app; right; now left|].
  split; [rewrite Forall_forall in Hrows2; now apply Hrows2|].
  destruct (forallb discarded (transactions (getBlock node endblock)));
    [|reflexivity].
  rewrite (Hd2 eq_refl) in Hr. contradiction.
Qed.

Lemma rows_of_app (n : Z) (xs ys : list StoredRecord) :
  rows_of n (xs ++ ys) = rows_of n xs ++ rows_of n ys.
Proof. apply filter_app. Qed.

Lemma rows_of_without_top (rows : list StoredRecord) (H n : Z) :
  max_block rows = Some H -> n <> H ->
  rows_of n (without_top rows) = rows_of n rows.
Proof.
  intros Hm Hne. destruct (without_top_spec rows H Hm) as [-> _].
  clear Hm. unfold rows_of. induction rows as [|r rows IH]; simpl; [reflexivity|].
  destruct (Z.eqb_spec (block r) H) as [E|E]; simpl.
  - destruct (Z.eqb_spec (block r) n) as [E'|E']; [lia | exact IH].
  - destruct (block r =? n); [now rewrite IH | exact IH].
Qed.

(** C7, refuted as worded.  The table holds rows for blocks 102 and 104
    and none for 103; on the node, block 103 holds a transfer.  After the
    restart the top block 104 is deleted, the cursor is 102, and the pass
    to the safe head 105 indexes 103, 104 and 105: block 103, below the
    former top, now has a row. *)
Lemma restart_counterexample :
  ~ restart_as_specified from_100 reliable [view main_chain 105]
      [stored 102; stored 104].
Proof.
  intros H. specialize (H 104 103 eq_refl ltac:(lia)).
  vm_compute in H. discriminate H.
Qed.

(** C7, as the code has it.  Over a table whose top block is [H], the
    start-up delete removes the rows of block [H] and no other, and the
    loop starts on what is left.  The first pass takes as cursor the
    [max(block)] that is left, which is below [H], or [int(startBlock)]
    when no row is left, and requests the heights above it in order up
    to its safe head: an initial part of them if an exception ends the
    pass, all of them when the pass returns, and then [H] and every height
    between the cursor and [H] are among them whenever the cursor is
    below [H] and the safe head at or above [H].  On a node that numbers
    its blocks, if that pass does not take the rollback branch (its
    range is not the single block at the safe head, and the block at
    the safe head is chained to the one before it), then whatever its
    outcome the rows of a block [n < H] are what they were, for every
    [n] at or below the cursor and for every [n] whose block on the
    node holds no transaction that the filter keeps. *)
Theorem restart_keeps_rows_below_cursor (cfg : Config) (db : Db) (node : Node)
  (rows : list StoredRecord) (H maxblockindb endblock : Z) :
  max_block rows = Some H ->
  delete_ok db rows = true ->
  cursor cfg (without_top rows) = Some maxblockindb ->
  safe_head cfg node = Some endblock ->
  (forall rest,
     main cfg db (node :: rest) (boot rows)
     = sync_loop cfg db (node :: rest) (boot (without_top rows)))
  /\ (forall r, In r (without_top rows) <-> In r rows /\ block r <> H)
  /\ (without_top rows <> [] -> maxblockindb < H)
  /\ (exists evs,
        trace (snd (sync_pass cfg db node (boot (without_top rows))))
        = InfoBest maxblockindb endblock :: evs
        /\ (exists rest,
              py_range (maxblockindb + 1) (endblock + 1) = fetched evs ++ rest)
        /\ (fst (sync_pass cfg db node (boot (without_top rows))) = Return tt ->
            fetched evs = py_range (maxblockindb + 1) (endblock + 1)
            /\ (maxblockindb < H <= endblock ->
                forall n, maxblockindb < n <= H -> In n (fetched evs))))
  /\ (numbers_blocks node ->
      endblock <> maxblockindb + 1 ->
      (maxblockindb + 1 < endblock ->
       hex (parentHash (getBlock node endblock))
       = hex (hash (getBlock node (endblock - 1)))) ->
      forall n,
        n < H ->
        n <= maxblockindb
        \/ forallb discarded (transactions (getBlock node n)) = true ->
        rows_of n (store (snd (sync_pass cfg db node (boot (without_top rows)))))
        = rows_of n rows
        /\ rows_of n (store (snd (main cfg db [node] (boot rows))))
           = rows_of n rows).
Proof.
  intros Hmax Hok Hc Hs.
  assert (Hmain : forall nodes,
             main cfg db nodes (boot rows)
             = sync_loop cfg db nodes (boot (without_top rows))).
  { intros nodes. unfold main, bind.
    rewrite (execute_delete_top_accepted db (boot rows) Hok). reflexivity. }
  split; [intros rest; apply Hmain|].
  split.
  { intros r. destruct (without_top_spec rows H Hmax) as [-> _].
    rewrite filter_In. split; intros [Hin Hb]; (split; [exact Hin|]).
    - now apply negb_true_iff, Z.eqb_neq in Hb.
    - now apply negb_true_iff, Z.eqb_neq. }
  split.
  { intros Hleft. destruct (cursor_cases cfg _ _ Hc) as [Hm|[Hnil _]];
      [|contradiction].
    destruct (without_top_spec rows H Hmax) as [_ Hbelow].
    pose proof (max_block_spec (without_top rows)) as Hspec.
    rewrite Hm in Hspec. destruct Hspec as [_ [r [Hin Hr]]].
    rewrite Forall_forall in Hbelow. specialize (Hbelow r Hin). lia. }
  split.
  { destruct (pass_fetches cfg db node (boot (without_top rows)) _ _ Hc Hs)
      as [evs [Ht [Hrest Hall]]].
    exists evs. split; [exact Ht|]. split; [exact Hrest|].
    intros Hret. split; [exact (Hall Hret)|].
    intros Hrange n Hn. rewrite (Hall Hret). apply in_py_range. lia. }
  intros Hn Hne Hlink n Hlt Hcase.
  assert (Hpass :
            rows_of n
              (store (snd (sync_pass cfg db node (boot (without_top rows)))))
            = rows_of n rows).
  { destruct (pass_without_rollback cfg db node (boot (without_top rows))
                maxblockindb endblock Hc Hs Hne Hlink)
      as [added [Hst Hadded]].
    rewrite Hst. simpl store. rewrite rows_of_app.
    rewrite (rows_of_without_top rows H n Hmax) by lia.
    replace (rows_of n added) with (@nil StoredRecord);
      [now rewrite app_nil_r|].
    symmetry. apply filter_none.
    eapply Forall_impl; [|exact Hadded]. intros r [h [Hh [Hb Hkept]]].
    rewrite Hn in Hb. apply in_py_range in Hh. apply Z.eqb_neq. intros E.
    destruct Hcase as [Hle|Hdisc]; [lia|].
    rewrite <- E, Hb in Hdisc. rewrite Hdisc in Hkept. discriminate Hkept. }
  split; [exact Hpass|].
  now rewrite Hmain, sync_loop_one_state.
Qed.

(** Rows for blocks 102, 103 and 104, the chain head at 106: after the
    restart the cursor is 103, the pass requests 104-106, 104 among
    them, and the rows of block 102 are the ones there were. *)
Lemma restart_keeps_rows_below_cursor_witness :
  (exists evs,
     trace (snd (sync_pass from_100 reliable (view main_chain 106)
                   (boot (without_top [stored 102; stored 103; stored 104]))))
     = InfoBest 103 106 :: evs
     /\ In 104 (fetched evs))
  /\ rows_of 102
       (store (snd (main from_100 reliable [view main_chain 106]
                      (boot [stored 102; stored 103; stored 104]))))
     = rows_of 102 [stored 102; stored 103; stored 104].
Proof.
  pose proof (restart_keeps_rows_below_cursor from_100 reliable
                (view main_chain 106) [stored 102; stored 103; stored 104]
                104 103 106 eq_refl eq_refl eq_refl eq_refl)
    as [_ [_ [_ [[evs [Ht [_ Hall]]] Hrows]]]].
  split.
  - exists evs. split; [exact Ht|].
    apply (proj2 (Hall eq_refl)); lia.
  - refine (proj2 (Hrows _ _ _ 102 _ _)).
    + intros h. reflexivity.
    + lia.
    + intros _. reflexivity.
    + lia.
    + left. lia.
Defined.

(* ================================================================== *)
(** ** More on the two deletes *)

Lemma in_without_window (b e : Z) (rows : list StoredRecord)
  (r : StoredRecord) :
  In r (without_window b e rows) <-> In r rows /\ ~ (b + 1 <= block r <= e).
Proof.
  unfold without_window, in_window. rewrite filter_In.
  split; intros [Hin Hw]; (split; [exact Hin|]).
  - apply negb_true_iff, andb_false_iff in Hw.
    destruct Hw as [Hw|Hw]; [apply Z.ltb_ge in Hw | apply Z.leb_gt in Hw]; lia.
  - apply negb_true_iff, andb_false_iff.
    destruct (Z.ltb_spec b (block r)); [right; apply Z.leb_gt; lia | now left].
Qed.

Lemma without_window_twice (b e : Z) (rows : list StoredRecord) :
  without_window b e (without_window b e rows) = without_window b e rows.
Proof.
  unfold without_window. induction rows as [|r rows IH]; [reflexivity|].
  simpl. destruct (negb (in_window b e r)) eqn:E; [|exact IH].
  simpl. now rewrite E, IH.
Qed.

(** [delete_last_blocks_from_db] never raises and never touches
    [latest_hash].  A refused DELETE leaves the table as it was and logs
    the failure; an accepted one removes the rows whose block lies
    between the two numbers of the log line, both included, keeps every
    other row, and removes nothing when [end_block <= begin_block].
    Deleting the same window again changes nothing more. *)
Theorem delete_last_blocks_swallows_failure (db : Db)
  (begin_block end_block : Z) (st : State) :
  fst (delete_last_blocks_from_db db begin_block end_block st) = Return tt
  /\ latest_hash (snd (delete_last_blocks_from_db db begin_block end_block st))
     = latest_hash st
  /\ (delete_ok db (store st) = false ->
      snd (delete_last_blocks_from_db db begin_block end_block st)
      = logged st [ErrorDeleteFailed (begin_block + 1) end_block])
  /\ (delete_ok db (store st) = true ->
      trace (snd (delete_last_blocks_from_db db begin_block end_block st))
      = trace st ++ [InfoDeleted (begin_block + 1) end_block]
      /\ (forall r,
            In r (store (snd (delete_last_blocks_from_db db begin_block
                                end_block st)))
            <-> In r (store st)
                /\ ~ (begin_block + 1 <= block r <= end_block))
      /\ (end_block <= begin_block ->
          store (snd (delete_last_blocks_from_db db begin_block end_block st))
          = store st)
      /\ forall db',
           store (snd (delete_last_blocks_from_db db' begin_block end_block
                         (snd (delete_last_blocks_from_db db begin_block
                                 end_block st))))
           = store (snd (delete_last_blocks_from_db db begin_block end_block
                           st))).
Proof.
  assert (Hrun : forall d s,
            delete_last_blocks_from_db d begin_block end_block s
            = if delete_ok d (store s)
              then (Return tt,
                    mkState (without_window begin_block end_block (store s))
                      (latest_hash s)
                      (trace s ++ [InfoDeleted (begin_block + 1) end_block]))
              else (Return tt,
                    logged s [ErrorDeleteFailed (begin_block + 1) end_block])).
  { intros d s.
    unfold delete_last_blocks_from_db, try_except, execute_delete_window,
      bind, get, set_store, log, raise, logged.
    destruct (delete_ok d (store s)); reflexivity. }
  rewrite !Hrun.
  destruct (delete_ok db (store st)) eqn:Hok; simpl;
    (split; [reflexivity|]); (split; [reflexivity|]);
    (split; [intros H; try discriminate H; reflexivity|]);
    intros H; try discriminate H.
  split; [reflexivity|]. split; [intros r; apply in_without_window|].
  split.
  - intros Hle. apply filter_all. apply Forall_forall. intros r _.
    unfold in_window. apply negb_true_iff, andb_false_iff.
    destruct (Z.ltb_spec begin_block (block r));
      [right; apply Z.leb_gt; lia | now left].
  - intros db'. rewrite Hrun. simpl.
    destruct (delete_ok db' _); simpl;
      [apply without_window_twice | reflexivity].
Qed.

(** A table with blocks 94, 101 and 104, a refused DELETE of blocks
    95-104: the call returns and the three rows stay. *)
Lemma delete_last_blocks_swallows_failure_witness :
  snd (delete_last_blocks_from_db (mkDb (fun _ _ => true) (fun _ => false))
         94 104 (boot [stored 94; stored 101; stored 104]))
  = logged (boot [stored 94; stored 101; stored 104])
      [ErrorDeleteFailed (94 + 1) 104].
Proof.
  exact (proj1 (proj2 (proj2
           (delete_last_blocks_swallows_failure
              (mkDb (fun _ _ => true) (fun _ => false)) 94 104
              (boot [stored 94; stored 101; stored 104]))))
           eq_refl).
Defined.

(** The start-up delete (lines 83-88) and what follows it.  Refused, it
    ends the run with the table as it was, before any block is asked
    for.  Accepted, the loop starts with [latest_hash = ''] over the table
    without its top block: on an empty table nothing is deleted; on a
    table whose top block is [H] the rows of [H] go, at least one row,
    the others stay in their order, and the new [max(block)] is below
    [H]. *)
Theorem start_up_delete_strips_top_block (cfg : Config) (db : Db)
  (nodes : list Node) (rows : list StoredRecord) :
  (delete_ok db rows = false ->
   main cfg db nodes (boot rows) = (Raise DatabaseError, boot rows))
  /\ (delete_ok db rows = true ->
      main cfg db nodes (boot rows)
      = sync_loop cfg db nodes (boot (without_top rows))
      /\ (rows = [] -> without_top rows = [])
      /\ forall H,
           max_block rows = Some H ->
           without_top rows = filter (fun r => negb (block r =? H)) rows
           /\ (List.length (without_top rows) < List.length rows)%nat
           /\ forall m, max_block (without_top rows) = Some m -> m < H).
Proof.
  split.
  - intros Hok. unfold main, execute_delete_top, bind, get, raise.
    simpl. now rewrite Hok.
  - intros Hok. split.
    { unfold main, bind.
      rewrite (execute_delete_top_accepted db (boot rows) Hok).
      reflexivity. }
    split; [intros ->; reflexivity|].
    intros H Hmax. destruct (without_top_spec rows H Hmax) as [Heq Hlow].
    split; [exact Heq|]. split.
    + pose proof (max_block_spec rows) as Hs. rewrite Hmax in Hs.
      destruct Hs as [_ [r [Hin Hb]]]. rewrite Heq. clear Heq Hlow Hmax Hok.
      induction rows as [|x rows IH]; [contradiction|]. simpl.
      destruct Hin as [->|Hin].
      * rewrite Hb, Z.eqb_refl. simpl.
        pose proof (filter_length_le (fun r => negb (block r =? H)) rows).
        lia.
      * specialize (IH Hin). destruct (negb (block x =? H)); simpl; lia.
    + intros m Hm. pose proof (max_block_spec (without_top rows)) as Hs.
      rewrite Hm in Hs. destruct Hs as [_ [r [Hin Hb]]].
      rewrite Forall_forall in Hlow. specialize (Hlow _ Hin). lia.
Qed.

(** Over blocks 102, 103, 104 the loop starts from blocks 102 and 103. *)
Lemma start_up_delete_strips_top_block_witness :
  main from_100 reliable [view main_chain 106]
    (boot [stored 102; stored 103; stored 104])
  = sync_loop from_100 reliable [view main_chain 106]
      (boot (without_top [stored 102; stored 103; stored 104]))
  /\ without_top [stored 102; stored 103; stored 104]
     = [stored 102; stored 103].
Proof.
  split; [|reflexivity].
  exact (proj1 (proj2 (start_up_delete_strips_top_block from_100 reliable
                         [view main_chain 106]
                         [stored 102; stored 103; stored 104]) eq_refl)).
Defined.

(* ================================================================== *)
(** ** More on [insertTxsFromBlock] *)

Section Counting.

Variable RowP : StoredRecord -> Prop.
Variable EvP : event -> Prop.

Lemma adds_of_touches {A} (m : M A) :
  (forall st, store (snd (m st)) = store st) ->
  touches RowP EvP m -> adds 0 RowP EvP m.
Proof.
  intros Hsame Hm st. destruct (Hm st) as [rows [evs [E [_ Hevs]]]].
  specialize (Hsame st). rewrite E in Hsame. simpl in Hsame.
  rewrite <- (app_nil_r (store st)) in Hsame at 2.
  apply app_inv_head in Hsame. subst rows.
  exists [], evs. repeat split; try assumption; constructor.
Qed.

Lemma adds_weaken {A} (n n' : nat) (m : M A) :
  (n <= n')%nat -> adds n RowP EvP m -> adds n' RowP EvP m.
Proof.
  intros Hle Hm st. destruct (Hm st) as [rows [evs [E [Hr [He Hn]]]]].
  exists rows, evs. repeat split; try assumption. lia.
Qed.

Lemma adds_ret {A} (a : A) : adds 0 RowP EvP (ret a).
Proof.
  apply adds_of_touches; [reflexivity | apply touches_ret].
Qed.

Lemma adds_bind {A B} (n1 n2 : nat) (m : M A) (k : A -> M B) :
  adds n1 RowP EvP m -> (forall a, adds n2 RowP EvP (k a)) ->
  adds (n1 + n2) RowP EvP (bind m k).
Proof.
  intros Hm Hk st. unfold bind.
  destruct (Hm st) as [rows1 [evs1 [E1 [R1 [V1 N1]]]]].
  destruct (m st) as [[a|e] st1]; simpl in E1; subst st1.
  - destruct (Hk a (mkState (store st ++ rows1) (latest_hash st)
                      (trace st ++ evs1)))
      as [rows2 [evs2 [E2 [R2 [V2 N2]]]]].
    exists (rows1 ++ rows2), (evs1 ++ evs2). simpl in E2.
    rewrite E2, !app_assoc. split; [reflexivity|].
    split; [apply Forall_app; now split|].
    split; [apply Forall_app; now split|].
    rewrite length_app. lia.
  - exists rows1, evs1. simpl. repeat split; try assumption. lia.
Qed.

Lemma adds_insert (db : Db) (r : StoredRecord) :
  RowP r -> adds 1 RowP EvP (execute_insert db r).
Proof.
  intros Hr st. unfold execute_insert, bind, get, set_store, raise.
  destruct (insert_ok db (store st) r); simpl.
  - exists [r], []. rewrite app_nil_r. split; [reflexivity|].
    repeat split; repeat constructor. exact Hr.
  - exists [], []. split; [apply same_state|].
    repeat split; repeat constructor.
Qed.

End Counting.

Lemma insertTx_adds (db : Db) (node : Node) (blockid time : Z)
  (locals : Locals) (trans : Transaction) :
  adds 1 (row_for node blockid time trans) quiet
    (insertTx db node blockid time locals trans).
Proof.
  unfold insertTx.
  destruct (r_status (getTransactionReceipt node (tx_hash trans)))
    as [status_value|] eqn:Hstatus.
  2:{ intros st. exists [], []. simpl. split; [apply same_state|].
      repeat split; try constructor. lia. }
  unfold subscript. unfold bind at 1. unfold ret at 1. cbv beta iota.
  destruct (contract_fields (tx_input trans)) as [cto cval] eqn:Hcf.
  change 1%nat with (0 + 1)%nat. apply adds_bind.
  { apply adds_of_touches; [|apply warn_leading_zeros_touches].
    intros st. unfold warn_leading_zeros. now destruct (_ && _). }
  intros _.
  destruct ((tx_value trans =? 0)
            && negb (startswith (tx_input trans) selector)) eqn:Hd.
  { apply adds_weaken with (n := 0%nat); [lia | apply adds_ret]. }
  change 1%nat with (0 + 1)%nat. apply adds_bind.
  { apply adds_of_touches; [|apply try_assign_touches; exact I].
    intros st. unfold try_assign. now destruct (tx_from trans). }
  intros fr'. change 1%nat with (0 + 1)%nat. apply adds_bind.
  { apply adds_of_touches; [|apply try_assign_touches; exact I].
    intros st. unfold try_assign. now destruct (tx_to trans). }
  intros to'. change 1%nat with (0 + 1)%nat. apply adds_bind.
  { apply adds_of_touches; [|apply read_local_touches].
    intros st. now destruct fr'. }
  intros frv. change 1%nat with (0 + 1)%nat. apply adds_bind.
  { apply adds_of_touches; [|apply read_local_touches].
    intros st. now destruct to'. }
  intros tov. change 1%nat with (1 + 0)%nat. apply adds_bind.
  - apply adds_insert. split; [exact Hd|]. exists frv, tov.
    unfold row_of, status_of. now rewrite Hcf, Hstatus.
  - intros _. apply adds_ret.
Qed.

Lemma for_each_with_adds (db : Db) (node : Node) (blockid time : Z)
  (txs : list Transaction) (locals : Locals) :
  adds (List.length txs)
    (fun r => exists trans, In trans txs /\ row_for node blockid time trans r)
    quiet
    (for_each_with txs (insertTx db node blockid time) locals).
Proof.
  revert locals. induction txs as [|trans txs IH]; intros locals.
  - intros st. exists [], []. simpl. split; [apply same_state|].
    repeat split; constructor.
  - change (List.length (trans :: txs)) with (1 + List.length txs)%nat.
    simpl for_each_with. intros st.
    destruct (adds_bind
                (fun r => exists t, In t (trans :: txs)
                                    /\ row_for node blockid time t r)
                quiet 1 (List.length txs)
                (insertTx db node blockid time locals trans)
                (fun l => for_each_with txs (insertTx db node blockid time) l))
      with (st := st) as [rows [evs H]].
    + intros s. destruct (insertTx_adds db node blockid time locals trans s)
        as [rows [evs [E [Hr [He Hn]]]]].
      exists rows, evs. repeat split; try assumption.
      eapply Forall_impl; [|exact Hr]. intros r Hrow.
      exists trans. split; [now left | exact Hrow].
    + intros l s. destruct (IH l s) as [rows [evs [E [Hr [He Hn]]]]].
      exists rows, evs. repeat split; try assumption.
      eapply Forall_impl; [|exact Hr]. intros r [t [Hin Hrow]].
      exists t. split; [now right | exact Hrow].
    + exists rows, evs. exact H.
Qed.

(** Whatever the outcome of [insertTxsFromBlock], the table only grows at
    its end: the rows it held stay, [latest_hash] stays, and each new row
    is the row line 149 builds for one of the block's transactions that
    the filter of line 133 keeps, with the block's number and timestamp.
    There are at most as many new rows as the block has transactions. *)
Theorem block_rows_come_from_kept_transactions (db : Db) (node : Node)
  (blk : Block) (st : State) :
  exists rows,
    store (snd (insertTxsFromBlock db node blk st)) = store st ++ rows
    /\ latest_hash (snd (insertTxsFromBlock db node blk st)) = latest_hash st
    /\ (List.length rows <= List.length (transactions blk))%nat
    /\ Forall
         (fun r =>
            block r = number blk
            /\ time r = timestamp blk
            /\ exists trans,
                 In trans (transactions blk)
                 /\ discarded trans = false
                 /\ txhash r = hex (tx_hash trans)
                 /\ value r = tx_value trans
                 /\ (contract_to r, contract_value r)
                    = contract_fields (tx_input trans))
         rows.
Proof.
  unfold insertTxsFromBlock.
  destruct (for_each_with_adds db node (number blk) (timestamp blk)
              (transactions blk) (mkLocals None None) st)
    as [rows [evs [E [Hr [_ Hn]]]]].
  exists rows. unfold bind.
  destruct (for_each_with (transactions blk)
              (insertTx db node (number blk) (timestamp blk))
              (mkLocals None None) st) as [[l|e] st1];
    simpl in E; subst st1; simpl;
    (split; [reflexivity|]); (split; [reflexivity|]); (split; [exact Hn|]);
    (eapply Forall_impl; [|exact Hr]);
    intros r [trans [Hin [Hd [f [t ->]]]]]; simpl;
    (split; [reflexivity|]); (split; [reflexivity|]);
    exists trans; repeat split; try assumption;
    now destruct (contract_fields (tx_input trans)).
Qed.

Lemma has_keys_fields (trans : Transaction) :
  has_keys trans ->
  tx_from trans = Some (field_value (tx_from trans))
  /\ tx_to trans = Some (field_value (tx_to trans)).
Proof.
  intros [Hf Ht]. destruct (tx_from trans), (tx_to trans);
    try contradiction; now split.
Qed.

Lemma for_each_with_app {A L} (xs ys : list A) (body : L -> A -> M L)
  (locals : L) (st : State) :
  for_each_with (xs ++ ys) body locals st
  = match for_each_with xs body locals st with
    | (Return l, st') => for_each_with ys body l st'
    | (Raise e, st') => (Raise e, st')
    end.
Proof.
  revert locals st. induction xs as [|x xs IH]; intros locals st; simpl.
  - reflexivity.
  - unfold bind. destruct (body locals x st) as [[l|e] st1];
      [apply IH | reflexivity].
Qed.

Lemma warn_leading_zeros_trace (inputinfo txhash : string) (st : State) :
  exists evs,
    trace (snd (warn_leading_zeros inputinfo txhash st)) = trace st ++ evs
    /\ Forall (fun e => exists part txhash, e = WarnLeadingZeros part txhash)
         evs.
Proof.
  unfold warn_leading_zeros. destruct (_ && _); simpl.
  - eexists. split; [reflexivity|]. repeat constructor. eauto.
  - exists []. rewrite app_nil_r. split; [reflexivity | constructor].
Qed.

(** The transactions the filter keeps are written one after the other
    as long as their receipts have a status, they have their keys and
    their INSERTs are accepted. *)
Lemma for_each_with_kept (db : Db) (node : Node) (blockid time : Z)
  (txs : list Transaction) (locals : Locals) (st : State) :
  Forall (has_status node) txs ->
  Forall has_keys (kept txs) ->
  (forall rows r,
     In r (map (tx_row node blockid time) (kept txs)) ->
     insert_ok db rows r = true) ->
  exists locals' evs,
    for_each_with txs (insertTx db node blockid time) locals st
    = (Return locals',
       mkState (store st ++ map (tx_row node blockid time) (kept txs))
         (latest_hash st) (trace st ++ evs))
    /\ Forall (fun e => exists part txhash, e = WarnLeadingZeros part txhash)
         evs.
Proof.
  intros Hstatus Hkeys Hdb. revert locals st.
  induction txs as [|trans txs IH]; intros locals st; simpl.
  - exists locals, []. split; [|constructor].
    unfold ret. f_equal. apply same_state.
  - inversion Hstatus as [|? ? Hs1 Hs2]; subst.
    unfold kept in *. simpl in Hkeys, Hdb. unfold bind.
    destruct (discarded trans) eqn:Hd; simpl in Hkeys, Hdb |- *.
    + rewrite insertTx_discarded by assumption. now apply IH.
    + inversion Hkeys as [|? ? Hk Hrest]; subst.
      destruct (has_keys_fields trans Hk) as [Hf Ht].
      rewrite (insertTx_inserts db node blockid time locals trans st _ _
                 Hs1 Hd Hf Ht (Hdb _ _ (or_introl eq_refl))).
      destruct (warn_leading_zeros_trace (tx_input trans)
                  (hex (tx_hash trans)) st) as [evs0 [E0 Hq0]].
      rewrite E0.
      destruct (IH Hs2 Hrest (fun rows r Hin => Hdb rows r (or_intror Hin))
                  (mkLocals (Some (field_value (tx_from trans)))
                     (Some (field_value (tx_to trans))))
                  (mkState
                     (store st
                      ++ [row_of node blockid time trans
                            (field_value (tx_from trans))
                            (field_value (tx_to trans))])
                     (latest_hash st) (trace st ++ evs0)))
        as [locals' [evs1 [E1 Hq1]]].
      exists locals', (evs0 ++ evs1). rewrite E1. simpl.
      rewrite <- !app_assoc. split; [reflexivity|].
      apply Forall_app. now split.
Qed.

(** Line 149 refused: the exception leaves [insertTxsFromBlock]'s loop
    body with the table as it was. *)
Lemma insertTx_refused (db : Db) (node : Node) (blockid time : Z)
  (locals : Locals) (trans : Transaction) (st : State) :
  has_status node trans ->
  discarded trans = false ->
  has_keys trans ->
  insert_ok db (store st) (tx_row node blockid time trans) = false ->
  exists evs,
    insertTx db node blockid time locals trans st
    = (Raise DatabaseError, logged st evs)
    /\ Forall quiet evs.
Proof.
  intros Hst Hd Hk Hno. destruct (has_keys_fields trans Hk) as [Hf Ht].
  unfold discarded in Hd.
  unfold tx_row, row_of, status_of, has_status, insertTx in *.
  destruct (r_status _) as [v|]; [|contradiction].
  unfold bind at 1. unfold subscript, ret. cbv beta iota.
  destruct (contract_fields (tx_input trans)) as [cto cval]. simpl in Hno.
  unfold bind at 1. unfold warn_leading_zeros.
  destruct (startswith (tx_input trans) selector
            && negb (String.eqb (py_slice (tx_input trans) (-128) (-104))
                       zeros24));
    simpl; rewrite Hd, Hf, Ht; unfold try_assign, read_local, execute_insert,
      bind, ret, get, set_store, raise, logged; simpl; rewrite Hno;
    first [ eexists; split; [reflexivity | repeat constructor]
          | exists []; rewrite app_nil_r; destruct st;
            split; [reflexivity | constructor] ].
Qed.





(** When every receipt of the block has a status, every transaction the
    filter keeps has its ['from'] and ['to'] keys and the database
    accepts the INSERTs, [insertTxsFromBlock] returns, and the table has
    gained exactly the rows of the kept transactions, in the order of
    the block.  It logs no more than warnings about address padding. *)
Theorem well_formed_block_is_written_in_order (db : Db) (node : Node)
  (blk : Block) (st : State) :
  Forall (has_status node) (transactions blk) ->
  Forall has_keys (kept (transactions blk)) ->
  accepts_inserts db ->
  exists evs,
    insertTxsFromBlock db node blk st
    = (Return tt,
       mkState (store st ++ block_rows node blk) (latest_hash st)
         (trace st ++ evs))
    /\ Forall (fun e => exists part txhash, e = WarnLeadingZeros part txhash)
         evs.
Proof.
  intros Hstatus Hkeys Hdb. unfold insertTxsFromBlock, block_rows, bind.
  destruct (for_each_with_kept db node (number blk) (timestamp blk)
              (transactions blk) (mkLocals None None) st Hstatus Hkeys
              (fun rows r _ => Hdb rows r))
    as [locals' [evs [E Hq]]].
  rewrite E. exists evs. now split.
Qed.

(** The block of two transfers is written as its two rows, in order. *)
Lemma well_formed_block_is_written_in_order_witness :
  exists evs,
    insertTxsFromBlock reliable (view main_chain 7) two_transfers (boot [])
    = (Return tt,
       mkState (store (boot []) ++ block_rows (view main_chain 7) two_transfers)
         (latest_hash (boot [])) (trace (boot []) ++ evs))
    /\ Forall (fun e => exists part txhash, e = WarnLeadingZeros part txhash)
         evs.
Proof.
  apply (well_formed_block_is_written_in_order reliable (view main_chain 7)
           two_transfers (boot [])).
  - repeat constructor; discriminate.
  - repeat constructor; discriminate.
  - intros rows r. reflexivity.
Defined.

(* ================================================================== *)
(** ** A refused INSERT *)

Lemma partial_rows_block (node : Node) (blk : Block)
  (pre : list Transaction) :
  Forall (fun r => block r = number blk) (partial_rows node blk pre).
Proof.
  unfold partial_rows. apply Forall_forall. intros r Hr.
  apply in_map_iff in Hr as [trans [<- _]]. reflexivity.
Qed.

(** The rows of a block on top of a table of lower blocks are what the
    start-up delete removes. *)
Lemma without_top_partial (rows part : list StoredRecord) (n : Z) :
  Forall (fun r => block r < n) rows ->
  Forall (fun r => block r = n) part ->
  part <> [] ->
  without_top (rows ++ part) = rows.
Proof.
  intros Hlow Hpart Hne.
  assert (Hmax : max_block (rows ++ part) = Some n).
  { destruct part as [|r part']; [contradiction|].
    apply max_block_unique with (r := r).
    - apply Forall_app. split.
      + eapply Forall_impl; [|exact Hlow]. simpl. intros; lia.
      + eapply Forall_impl; [|exact Hpart]. simpl. intros; lia.
    - apply in_or_app. right. now left.
    - now inversion Hpart. }
  destruct (without_top_spec _ _ Hmax) as [-> _].
  rewrite filter_app, filter_all, filter_none; [apply app_nil_r | |].
  - eapply Forall_impl; [|exact Hpart]. simpl. intros r Hr.
    rewrite Hr, Z.eqb_refl. reflexivity.
  - eapply Forall_impl; [|exact Hlow]. simpl. intros r Hr.
    apply negb_true_iff, Z.eqb_neq. lia.
Qed.

(** The INSERT of [trans] is refused after those of the transactions
    before it were accepted: the rows of these are in the table when the
    exception leaves the function. *)
Lemma insertTxsFromBlock_refused (db : Db) (node : Node) (blk : Block)
  (st : State) (pre post : list Transaction) (trans : Transaction) :
  transactions blk = pre ++ trans :: post ->
  Forall (has_status node) pre ->
  has_status node trans ->
  Forall has_keys (kept pre) ->
  has_keys trans ->
  discarded trans = false ->
  (forall rows r, In r (partial_rows node blk pre) ->
                  insert_ok db rows r = true) ->
  insert_ok db (store st ++ partial_rows node blk pre)
    (tx_row node (number blk) (timestamp blk) trans) = false ->
  exists evs,
    insertTxsFromBlock db node blk st
    = (Raise DatabaseError,
       mkState (store st ++ partial_rows node blk pre) (latest_hash st)
         (trace st ++ evs))
    /\ Forall quiet evs.
Proof.
  intros Htxs Hspre Hstrans Hkpre Hktrans Hd Hyes Hno.
  unfold insertTxsFromBlock. rewrite Htxs. unfold bind at 1.
  rewrite for_each_with_app.
  destruct (for_each_with_kept db node (number blk) (timestamp blk) pre
              (mkLocals None None) st Hspre Hkpre Hyes)
    as [locals' [evs1 [E1 Hq1]]].
  rewrite E1. simpl for_each_with. unfold bind at 1.
  destruct (insertTx_refused db node (number blk) (timestamp blk) locals'
              trans
              (mkState
                 (store st
                  ++ map (tx_row node (number blk) (timestamp blk)) (kept pre))
                 (latest_hash st) (trace st ++ evs1))
              Hstrans Hd Hktrans Hno)
    as [evs2 [E2 Hq2]].
  rewrite E2. exists (evs1 ++ evs2). unfold logged. simpl.
  rewrite <- app_assoc. split; [reflexivity|].
  apply Forall_app. split; [|exact Hq2].
  eapply Forall_impl; [|exact Hq1]. intros e [part [txhash ->]]. exact I.
Qed.

(** C2, as the code has it.  Every INSERT is committed on its own
    (autocommit).  Take a block in which the INSERT of one transaction
    is refused after the ones before it went through (their receipts
    have a status, the kept ones have their keys, their INSERTs are
    accepted).  Then [insertTxsFromBlock] raises the database's error
    with the rows of the kept transactions before the refused one in the
    table, and nothing else changed.  The exception leaves the loop over
    the heights at that block, whatever heights were to follow; a pass
    that has gone through the heights before it and comes to that block
    ends with the exception, and so does the process.  When rows of the
    block were written over a table of lower blocks, the start-up delete
    of the next run removes exactly them: the loop starts over the table
    as it was before the block, its first pass has the cursor below the
    block, and that pass requests the heights above the cursor in order,
    the block's among them when it returns and its safe head is not
    below the block. *)
Theorem failed_write_leaves_partial_block (db : Db) (node : Node)
  (blk : Block) (st : State) (pre post : list Transaction)
  (trans : Transaction) :
  transactions blk = pre ++ trans :: post ->
  Forall (has_status node) pre ->
  has_status node trans ->
  Forall has_keys (kept pre) ->
  has_keys trans ->
  discarded trans = false ->
  (forall rows r, In r (partial_rows node blk pre) ->
                  insert_ok db rows r = true) ->
  insert_ok db (store st ++ partial_rows node blk pre)
    (tx_row node (number blk) (timestamp blk) trans) = false ->
  (exists evs,
     insertTxsFromBlock db node blk st
     = (Raise DatabaseError,
        mkState (store st ++ partial_rows node blk pre) (latest_hash st)
          (trace st ++ evs)))
  /\ (forall cfg endblock h heights,
        getBlock node h = blk ->
        h <> endblock \/ latest_hash st = hex (parentHash blk) ->
        exists evs,
          for_each (h :: heights) (sync_block cfg db node endblock) st
          = (Raise DatabaseError,
             mkState (store st ++ partial_rows node blk pre) (latest_hash st)
               (trace st ++ evs))
          /\ fetched evs = [h])
  /\ (forall cfg st0 maxblockindb endblock before h after rest,
        cursor cfg (store st0) = Some maxblockindb ->
        safe_head cfg node = Some endblock ->
        py_range (maxblockindb + 1) (endblock + 1) = before ++ h :: after ->
        for_each before (sync_block cfg db node endblock)
          (logged st0 [InfoBest maxblockindb endblock])
        = (Return tt, st) ->
        getBlock node h = blk ->
        h <> endblock \/ latest_hash st = hex (parentHash blk) ->
        exists evs,
          sync_pass cfg db node st0
          = (Raise DatabaseError,
             mkState (store st ++ partial_rows node blk pre) (latest_hash st)
               (trace st ++ evs))
          /\ sync_loop cfg db (node :: rest) st0
             = (Raise DatabaseError,
                mkState (store st ++ partial_rows node blk pre)
                  (latest_hash st) (trace st ++ evs)))
  /\ (forall cfg db' maxblockindb,
        cursor cfg (store st) = Some maxblockindb ->
        maxblockindb < number blk ->
        partial_rows node blk pre <> [] ->
        delete_ok db' (store st ++ partial_rows node blk pre) = true ->
        without_top (store st ++ partial_rows node blk pre) = store st
        /\ (forall nodes,
              main cfg db' nodes (boot (store st ++ partial_rows node blk pre))
              = sync_loop cfg db' nodes (boot (store st)))
        /\ forall next endblock,
             safe_head cfg next = Some endblock ->
             exists evs,
               trace (snd (sync_pass cfg db' next (boot (store st))))
               = InfoBest maxblockindb endblock :: evs
               /\ (exists rest,
                     py_range (maxblockindb + 1) (endblock + 1)
                     = fetched evs ++ rest)
               /\ (fst (sync_pass cfg db' next (boot (store st))) = Return tt ->
                   number blk <= endblock ->
                   In (number blk) (fetched evs))).
Proof.
  intros Htxs Hspre Hstrans Hkpre Hktrans Hd Hyes Hno.
  assert (Hblock : forall s,
             store s = store st ->
             exists evs,
               insertTxsFromBlock db node blk s
               = (Raise DatabaseError,
                  mkState (store st ++ partial_rows node blk pre)
                    (latest_hash s) (trace s ++ evs))
               /\ Forall quiet evs).
  { intros s Hs.
    destruct (insertTxsFromBlock_refused db node blk s pre post trans
                Htxs Hspre Hstrans Hkpre Hktrans Hd Hyes)
      as [evs [E Hq]]; [now rewrite Hs|].
    exists evs. rewrite E, Hs. now split. }
  assert (Hheights : forall cfg endblock h heights s,
             store s = store st ->
             getBlock node h = blk ->
             h <> endblock \/ latest_hash s = hex (parentHash blk) ->
             exists evs,
               for_each (h :: heights) (sync_block cfg db node endblock) s
               = (Raise DatabaseError,
                  mkState (store st ++ partial_rows node blk pre)
                    (latest_hash s) (trace s ++ evs))
               /\ fetched evs = [h]).
  { intros cfg endblock h heights s Hs Hblk Hbranch.
    simpl for_each. unfold bind at 1.
    rewrite sync_block_indexes by (now rewrite Hblk).
    rewrite Hblk. unfold index_block.
    replace (0 <? Z.of_nat (List.length (transactions blk))) with true.
    2:{ rewrite Htxs, length_app. simpl. symmetry. apply Z.ltb_lt. lia. }
    destruct (Hblock (logged s [GetBlock h]) Hs) as [evs [E Hq]].
    unfold bind. rewrite E. exists (GetBlock h :: evs). simpl.
    rewrite <- app_assoc. split; [reflexivity|].
    now rewrite (quiet_fetched _ Hq). }
  split.
  { destruct (Hblock st eq_refl) as [evs [E _]]. now exists evs. }
  split.
  { intros cfg endblock h heights Hblk Hbranch.
    apply (Hheights cfg endblock h heights st eq_refl Hblk Hbranch). }
  split.
  { intros cfg st0 maxblockindb endblock before h after rest Hc Hs Hrange
      Hbefore Hblk Hbranch.
    destruct (Hheights cfg endblock h after st eq_refl Hblk Hbranch)
      as [evs [E _]].
    exists evs.
    assert (Hpass : sync_pass cfg db node st0
                    = (Raise DatabaseError,
                       mkState (store st ++ partial_rows node blk pre)
                         (latest_hash st) (trace st ++ evs))).
    { rewrite (sync_pass_unfold _ _ _ _ _ _ Hc Hs), Hrange, for_each_app,
        Hbefore. exact E. }
    split; [exact Hpass | now apply sync_loop_raises]. }
  intros cfg db' maxblockindb Hc Hlow Hne Hok.
  assert (Htrim : without_top (store st ++ partial_rows node blk pre)
                  = store st).
  { apply without_top_partial with (n := number blk);
      [|apply partial_rows_block | exact Hne].
    eapply Forall_impl; [|exact (rows_below_cursor cfg _ _ Hc)].
    simpl. intros; lia. }
  split; [exact Htrim|]. split.
  { intros nodes. unfold main, bind.
    rewrite (execute_delete_top_accepted db'
               (boot (store st ++ partial_rows node blk pre)) Hok).
    simpl store. rewrite Htrim. reflexivity. }
  intros next endblock Hs.
  destruct (pass_fetches cfg db' next (boot (store st)) _ _ Hc Hs)
    as [evs [Ht [Hrest Hall]]].
  exists evs. split; [exact Ht|]. split; [exact Hrest|].
  intros Hret Hle. rewrite (Hall Hret). apply in_py_range. lia.
Qed.

(** A block of two transfers whose second INSERT is refused, over a table
    that holds block 5: the row of the first transfer is left behind, and
    the start-up delete of the next run takes it away again. *)
Lemma failed_write_leaves_partial_block_witness :
  (exists evs,
     insertTxsFromBlock (refusing "0x02") (view main_chain 7) two_transfers
       (boot [stored 5])
     = (Raise DatabaseError,
        mkState
          (store (boot [stored 5])
           ++ partial_rows (view main_chain 7) two_transfers
                [transfer (tag 1) "0xaa" "0xbb" 5])
          (latest_hash (boot [stored 5])) (trace (boot [stored 5]) ++ evs)))
  /\ without_top
       (store (boot [stored 5])
        ++ partial_rows (view main_chain 7) two_transfers
             [transfer (tag 1) "0xaa" "0xbb" 5])
     = store (boot [stored 5]).
Proof.
  pose proof (failed_write_leaves_partial_block (refusing "0x02")
                (view main_chain 7) two_transfers (boot [stored 5])
                [transfer (tag 1) "0xaa" "0xbb" 5] []
                (transfer (tag 2) "0xcc" "0xdd" 3) eq_refl)
    as H.
  destruct H as [Hraise [_ [_ Hrestart]]].
  - repeat constructor; discriminate.
  - discriminate.
  - repeat constructor; discriminate.
  - split; discriminate.
  - reflexivity.
  - intros rows r [<-|[]]. reflexivity.
  - reflexivity.
  - split; [exact Hraise|].
    apply (Hrestart from_100 reliable 5); [reflexivity | simpl; lia | | ].
    + discriminate.
    + reflexivity.
Defined.

(* ================================================================== *)
(** ** A receipt without status *)

(** Line 108 reads ['status'] for every transaction, before the filter
    of line 133.  When a receipt has no such key, after transactions
    whose receipts have one (the kept ones with their keys and their
    INSERTs accepted), [insertTxsFromBlock] raises [KeyError] with the
    rows of the kept transactions before it in the table: nothing is
    written or logged for the transaction itself, also when the filter
    would have dropped it, and the transactions after it are not looked
    at. *)
Theorem receipt_without_status_aborts_block (db : Db) (node : Node)
  (blk : Block) (st : State) (pre post : list Transaction)
  (trans : Transaction) :
  transactions blk = pre ++ trans :: post ->
  Forall (has_status node) pre ->
  Forall has_keys (kept pre) ->
  (forall rows r, In r (partial_rows node blk pre) ->
                  insert_ok db rows r = true) ->
  r_status (getTransactionReceipt node (tx_hash trans)) = None ->
  exists evs,
    insertTxsFromBlock db node blk st
    = (Raise (KeyError "status"),
       mkState (store st ++ partial_rows node blk pre) (latest_hash st)
         (trace st ++ evs))
    /\ Forall (fun e => exists part txhash, e = WarnLeadingZeros part txhash)
         evs
    /\ (List.length evs <= List.length pre)%nat.
Proof.
  intros Htxs Hspre Hkpre Hyes Hnone.
  unfold insertTxsFromBlock. rewrite Htxs. unfold bind at 1.
  rewrite for_each_with_app.
  assert (Hpre : forall locals s,
             exists locals' evs,
               for_each_with pre
                 (insertTx db node (number blk) (timestamp blk)) locals s
               = (Return locals',
                  mkState (store s ++ partial_rows node blk pre)
                    (latest_hash s) (trace s ++ evs))
               /\ Forall (fun e => exists part txhash,
                            e = WarnLeadingZeros part txhash) evs
               /\ (List.length evs <= List.length pre)%nat).
  { clear Htxs. unfold partial_rows in *.
    induction pre as [|t pre IH]; intros locals s.
    - exists locals, []. simpl. rewrite !app_nil_r. destruct s.
      repeat split; constructor.
    - inversion Hspre as [|? ? Hs1 Hs2]; subst.
      simpl for_each_with. unfold bind. unfold kept in *. simpl filter in *.
      destruct (discarded t) eqn:Hd; simpl negb in *; cbv iota in *.
      + rewrite insertTx_discarded by assumption.
        destruct (IH Hs2 Hkpre Hyes locals s)
          as [locals' [evs [E [Hq Hn]]]].
        exists locals', evs. rewrite E. repeat split; [exact Hq|].
        simpl. lia.
      + inversion Hkpre as [|? ? Hk Hrest]; subst.
        destruct (has_keys_fields t Hk) as [Hf Ht].
        rewrite (insertTx_inserts db node (number blk) (timestamp blk)
                   locals t s _ _ Hs1 Hd Hf Ht
                   (Hyes _ _ (or_introl eq_refl))).
        assert (Hw : exists evs0,
                   trace (snd (warn_leading_zeros (tx_input t)
                                 (hex (tx_hash t)) s))
                   = trace s ++ evs0
                   /\ Forall (fun e => exists part txhash,
                                e = WarnLeadingZeros part txhash) evs0
                   /\ (List.length evs0 <= 1)%nat).
        { unfold warn_leading_zeros. destruct (_ && _); simpl.
          - eexists. split; [reflexivity|]. split; [|simpl; lia].
            repeat constructor. eauto.
          - exists []. rewrite app_nil_r. repeat split; [constructor|].
            simpl. lia. }
        destruct Hw as [evs0 [E0 [Hq0 Hn0]]]. rewrite E0.
        destruct (IH Hs2 Hrest
                    (fun rows r Hin => Hyes rows r (or_intror Hin))
                    (mkLocals (Some (field_value (tx_from t)))
                       (Some (field_value (tx_to t))))
                    (mkState
                       (store s
                        ++ [row_of node (number blk) (timestamp blk) t
                              (field_value (tx_from t))
                              (field_value (tx_to t))])
                       (latest_hash s) (trace s ++ evs0)))
          as [locals' [evs1 [E1 [Hq1 Hn1]]]].
        exists locals', (evs0 ++ evs1). rewrite E1. simpl.
        rewrite <- !app_assoc. split; [reflexivity|].
        split; [apply Forall_app; now split|].
        rewrite length_app. simpl. lia. }
  destruct (Hpre (mkLocals None None) st) as [locals' [evs [E [Hq Hn]]]].
  rewrite E. simpl for_each_with. unfold bind at 1.
  rewrite insertTx_without_status by exact Hnone.
  exists evs. now repeat split.
Qed.

(** A transfer of 5 wei, then a call of value 0 whose receipt has no
    status: the row of the transfer is written, and the call, which the
    filter would have dropped, ends the block with [KeyError]. *)
Lemma receipt_without_status_aborts_block_witness :
  exists evs,
    insertTxsFromBlock reliable (mkNode 7 main_chain (receipts_but (tag 2)))
      transfer_then_call (boot [])
    = (Raise (KeyError "status"),
       mkState
         (store (boot [])
          ++ partial_rows (mkNode 7 main_chain (receipts_but (tag 2)))
               transfer_then_call [transfer (tag 1) "0xaa" "0xbb" 5])
         (latest_hash (boot [])) (trace (boot []) ++ evs))
    /\ Forall (fun e => exists part txhash, e = WarnLeadingZeros part txhash)
         evs
    /\ (List.length evs
        <= List.length [transfer (tag 1) "0xaa" "0xbb" 5])%nat.
Proof.
  apply (receipt_without_status_aborts_block reliable
           (mkNode 7 main_chain (receipts_but (tag 2)))
           transfer_then_call (boot [])
           [transfer (tag 1) "0xaa" "0xbb" 5] []
           (transfer (tag 2) "0xcc" "0xdd" 0) eq_refl).
  - repeat constructor; discriminate.
  - repeat constructor; discriminate.
  - intros rows r _. reflexivity.
  - reflexivity.
Defined.

(* ================================================================== *)
(** ** Missing keys *)

(** Lines 135-164 for a transaction the filter keeps and whose receipt
    has a status.  Each of [fr] and [to] takes the value of its key, or
    keeps the value an earlier transaction of the block left in it when
    the key is absent.  If both end up bound and the INSERT is accepted,
    the row is written with those values and they are carried on to the
    next transaction; an error is logged for exactly the keys that are
    absent. *)
Theorem absent_key_reuses_earlier_value (db : Db) (node : Node)
  (blockid time : Z) (locals : Locals) (trans : Transaction) (st : State)
  (f t : option string) :
  has_status node trans ->
  discarded trans = false ->
  assigned (tx_from trans) (fr locals) = Some f ->
  assigned (tx_to trans) (to locals) = Some t ->
  insert_ok db (store st) (row_of node blockid time trans f t) = true ->
  exists evs,
    insertTx db node blockid time locals trans st
    = (Return (mkLocals (Some f) (Some t)),
       mkState (store st ++ [row_of node blockid time trans f t])
         (latest_hash st) (trace st ++ evs))
    /\ (In (ErrorFrom (hex (tx_hash trans))) evs <-> tx_from trans = None)
    /\ (In (ErrorTo (hex (tx_hash trans))) evs <-> tx_to trans = None).
Proof.
  intros Hst Hd Hf Ht Hok. unfold discarded in Hd.
  unfold insertTx, row_of, status_of, has_status in *.
  destruct (r_status _) as [v|]; [|contradiction].
  unfold bind at 1. unfold subscript, ret at 1. cbv beta iota.
  destruct (contract_fields (tx_input trans)) as [cto cval]. simpl in Hok.
  unfold bind at 1. unfold warn_leading_zeros.
  destruct (startswith (tx_input trans) selector
            && negb (String.eqb (py_slice (tx_input trans) (-128) (-104))
                       zeros24));
    simpl; rewrite Hd;
    destruct (tx_from trans) as [vf|], (tx_to trans) as [vt|];
    simpl in Hf, Ht;
    try (injection Hf as Hf; subst vf); try (injection Ht as Ht; subst vt);
    unfold try_assign, read_local, execute_insert, bind, ret, get, set_store,
      log;
    simpl; rewrite ?Hf, ?Ht; simpl; rewrite Hok; simpl;
    rewrite <- ?app_assoc; simpl;
    (eexists; split;
     [reflexivity || (rewrite <- (app_nil_r (trace st)) at 1; reflexivity)|]);
    simpl; split; split; intros H;
    try reflexivity; try discriminate H;
    repeat (destruct H as [H|H]; try discriminate H); try contradiction;
    auto.
Qed.

(** In the block of a transfer followed by a transaction without
    ['from'], the second row is written with the sender of the first. *)
Lemma absent_key_reuses_earlier_value_witness :
  exists evs,
    insertTx reliable (view main_chain 7) 7 1007
      (mkLocals (Some (Some "0xaa")) (Some (Some "0xbb")))
      (senderless (tag 2) "0xdd" 3) (boot [])
    = (Return (mkLocals (Some (Some "0xaa")) (Some (Some "0xdd"))),
       mkState
         (store (boot [])
          ++ [row_of (view main_chain 7) 7 1007 (senderless (tag 2) "0xdd" 3)
                (Some "0xaa") (Some "0xdd")])
         (latest_hash (boot [])) (trace (boot []) ++ evs))
    /\ (In (ErrorFrom (hex (tx_hash (senderless (tag 2) "0xdd" 3)))) evs
        <-> tx_from (senderless (tag 2) "0xdd" 3) = None)
    /\ (In (ErrorTo (hex (tx_hash (senderless (tag 2) "0xdd" 3)))) evs
        <-> tx_to (senderless (tag 2) "0xdd" 3) = None).
Proof.
  apply (absent_key_reuses_earlier_value reliable (view main_chain 7) 7 1007
           (mkLocals (Some (Some "0xaa")) (Some (Some "0xbb")))
           (senderless (tag 2) "0xdd" 3) (boot [])
           (Some "0xaa") (Some "0xdd"));
    solve [reflexivity | discriminate].
Defined.

Lemma for_each_with_discarded (db : Db) (node : Node) (blockid time : Z)
  (pre rest : list Transaction) (locals : Locals) (st : State) :
  Forall (has_status node) pre ->
  forallb discarded pre = true ->
  for_each_with (pre ++ rest) (insertTx db node blockid time) locals st
  = for_each_with rest (insertTx db node blockid time) locals st.
Proof.
  induction pre as [|trans pre IH]; intros Hs H; simpl in *; [reflexivity|].
  apply andb_prop in H as [H1 H2]. inversion Hs as [|? ? Hs1 Hs2]; subst.
  unfold bind at 1.
  rewrite insertTx_discarded by assumption. now apply IH.
Qed.

Lemma insertTx_unbound (db : Db) (node : Node) (blockid time : Z)
  (trans : Transaction) (st : State) :
  has_status node trans ->
  discarded trans = false ->
  (tx_from trans = None ->
   exists evs,
     insertTx db node blockid time (mkLocals None None) trans st
     = (Raise (UnboundLocalError "fr"), logged st evs)
     /\ In (ErrorFrom (hex (tx_hash trans))) evs)
  /\ (tx_from trans <> None ->
      tx_to trans = None ->
      exists evs,
        insertTx db node blockid time (mkLocals None None) trans st
        = (Raise (UnboundLocalError "to"), logged st evs)
        /\ In (ErrorTo (hex (tx_hash trans))) evs).
Proof.
  intros Hst Hd. unfold discarded in Hd. unfold insertTx, has_status in *.
  destruct (r_status _) as [v|]; [|contradiction].
  unfold bind at 1. unfold subscript, ret at 1. cbv beta iota.
  destruct (contract_fields (tx_input trans)) as [cto cval].
  unfold bind at 1. unfold warn_leading_zeros.
  split.
  - intros Hf.
    destruct (startswith (tx_input trans) selector
              && negb (String.eqb (py_slice (tx_input trans) (-128) (-104))
                         zeros24));
      simpl; rewrite Hd, Hf; destruct (tx_to trans) as [vt|];
      unfold try_assign, read_local, bind, ret, log, raise, logged; simpl;
      rewrite <- ?app_assoc; simpl;
      (eexists; split; [reflexivity|]); simpl; auto.
  - intros Hf Ht. destruct (tx_from trans) as [vf|]; [|contradiction].
    destruct (startswith (tx_input trans) selector
              && negb (String.eqb (py_slice (tx_input trans) (-128) (-104))
                         zeros24));
      simpl; rewrite Hd, Ht;
      unfold try_assign, read_local, bind, ret, log, raise, logged; simpl;
      rewrite <- ?app_assoc; simpl;
      (eexists; split; [reflexivity|]); simpl; auto.
Qed.

(** In a block whose receipts have a status up to that transaction: when
    the first transaction that the filter keeps has no ['from'] key,
    [insertTxsFromBlock] logs the error and raises [UnboundLocalError]
    for [fr]: no row of the block is written and the transactions after
    it are not looked at.  With ['from'] present and ['to'] absent the
    same happens for [to]. *)
Theorem first_kept_transaction_without_key_aborts_block (db : Db)
  (node : Node) (blk : Block) (st : State)
  (pre post : list Transaction) (trans : Transaction) :
  transactions blk = pre ++ trans :: post ->
  Forall (has_status node) pre ->
  has_status node trans ->
  forallb discarded pre = true ->
  discarded trans = false ->
  (tx_from trans = None ->
   exists evs,
     insertTxsFromBlock db node blk st
     = (Raise (UnboundLocalError "fr"), logged st evs)
     /\ In (ErrorFrom (hex (tx_hash trans))) evs)
  /\ (tx_from trans <> None ->
      tx_to trans = None ->
      exists evs,
        insertTxsFromBlock db node blk st
        = (Raise (UnboundLocalError "to"), logged st evs)
        /\ In (ErrorTo (hex (tx_hash trans))) evs).
Proof.
  intros Htxs Hspre Hstrans Hpre Hd.
  assert (Hrun : insertTxsFromBlock db node blk st
                 = match insertTx db node (number blk) (timestamp blk)
                           (mkLocals None None) trans st with
                   | (Raise e, st') => (Raise e, st')
                   | (Return l, st') =>
                       (for_each_with post
                          (insertTx db node (number blk) (timestamp blk)) l ;;
                        ret tt) st'
                   end).
  { unfold insertTxsFromBlock. rewrite Htxs. unfold bind at 1.
    rewrite for_each_with_discarded by assumption.
    simpl for_each_with. unfold bind.
    destruct (insertTx db node (number blk) (timestamp blk)
                (mkLocals None None) trans st) as [[l|e] st']; reflexivity. }
  rewrite Hrun.
  destruct (insertTx_unbound db node (number blk) (timestamp blk) trans st
              Hstrans Hd)
    as [Hfr Hto].
  split.
  - intros Hf. destruct (Hfr Hf) as [evs [E Hin]]. rewrite E. now exists evs.
  - intros Hf Ht. destruct (Hto Hf Ht) as [evs [E Hin]]. rewrite E.
    now exists evs.
Qed.

(** The block that starts with the transaction without ['from']. *)
Lemma first_kept_transaction_without_key_aborts_block_witness :
  exists evs,
    insertTxsFromBlock reliable (view main_chain 7) senderless_first (boot [])
    = (Raise (UnboundLocalError "fr"), logged (boot []) evs)
    /\ In (ErrorFrom (hex (tx_hash (senderless (tag 2) "0xdd" 3)))) evs.
Proof.
  apply (proj1 (first_kept_transaction_without_key_aborts_block reliable
                  (view main_chain 7) senderless_first (boot []) []
                  [transfer (tag 1) "0xaa" "0xbb" 5]
                  (senderless (tag 2) "0xdd" 3) eq_refl
                  (Forall_nil _) ltac:(discriminate) eq_refl eq_refl)).
  reflexivity.
Defined.

(* ================================================================== *)
(** ** Inputs shorter than a transfer call *)

Lemma substring_whole (s : string) : substring 0 (String.length s) s = s.
Proof. induction s as [|c s IH]; simpl; [reflexivity | now rewrite IH]. Qed.

Lemma substring_none (n : nat) (s : string) : substring n 0 s = "".
Proof.
  revert s. induction n as [|n IH]; intros [|c s]; simpl; auto.
Qed.

Lemma length_substring_le (n m : nat) (s : string) :
  (String.length (substring n m s) <= m)%nat.
Proof.
  revert m s. induction n as [|n IH]; intros m s.
  - revert s. induction m as [|m IHm]; intros [|c s]; simpl; try lia.
    specialize (IHm s). lia.
  - destruct s as [|c s]; simpl; [lia | apply IH].
Qed.

(** The slices of lines 126-127 never raise, whatever the length of the
    input.  On an input that starts with the selector and has at most 64
    characters, [contract_value] is the whole input, ["0x"] and selector
    included, and [contract_to] is the bare ["0x"]; from 64 to 104
    characters [contract_value] is the last 64 characters and
    [contract_to] is ["0x"] followed by all that precedes them, which
    starts with the input's own ["0x"]. *)
Theorem short_transfer_call_fields (inputinfo : string) :
  startswith inputinfo selector = true ->
  ((String.length inputinfo <= 64)%nat ->
   contract_fields inputinfo = ("0x", inputinfo))
  /\ ((64 <= String.length inputinfo <= 104)%nat ->
      contract_fields inputinfo
      = (("0x" ++ substring 0 (String.length inputinfo - 64) inputinfo)%string,
         substring (String.length inputinfo - 64) 64 inputinfo)).
Proof.
  intros Hs. unfold contract_fields. rewrite Hs.
  unfold py_slice_from, py_slice.
  set (n := Z.of_nat (String.length inputinfo)).
  assert (Hn : n = Z.of_nat (String.length inputinfo)) by reflexivity.
  assert (Hnn : norm_index n n = n).
  { unfold norm_index. destruct (Z.ltb_spec n 0); lia. }
  rewrite Hnn. split; intros Hlen.
  - assert (Ha : norm_index n (-104) = 0)
      by (unfold norm_index; cbn [Z.ltb Z.compare]; lia).
    assert (Hb : norm_index n (-64) = 0)
      by (unfold norm_index; cbn [Z.ltb Z.compare]; lia).
    rewrite Ha, Hb. simpl (0 <? 0). f_equal.
    destruct (Z.ltb_spec 0 n) as [Hpos|Hzero].
    + rewrite Z.sub_0_r. unfold n. rewrite Nat2Z.id. apply substring_whole.
    + destruct inputinfo; [reflexivity | simpl in Hn; lia].
  - assert (Ha : norm_index n (-104) = 0)
      by (unfold norm_index; cbn [Z.ltb Z.compare]; lia).
    assert (Hb : norm_index n (-64) = n - 64)
      by (unfold norm_index; cbn [Z.ltb Z.compare]; lia).
    rewrite Ha, Hb.
    replace (Z.to_nat (n - (n - 64))) with 64%nat by lia.
    replace (Z.to_nat (n - 64)) with (String.length inputinfo - 64)%nat by lia.
    replace (Z.to_nat (n - 64 - 0)) with (String.length inputinfo - 64)%nat
      by lia.
    simpl (Z.to_nat 0).
    destruct (Z.ltb_spec (n - 64) n); [|lia].
    destruct (Z.ltb_spec 0 (n - 64)) as [Hpos|Hzero]; [reflexivity|].
    replace (String.length inputinfo - 64)%nat with 0%nat by lia.
    now rewrite substring_none.
Qed.

(** A call that is nothing but the selector: the row's [contract_value]
    is ["0xa9059cbb"] and its [contract_to] is ["0x"]. *)
Lemma short_transfer_call_fields_witness :
  contract_fields bare_selector_call = ("0x", bare_selector_call).
Proof.
  apply (proj1 (short_transfer_call_fields bare_selector_call eq_refl)).
  simpl. lia.
Defined.

Lemma starts_with_selector (s : string) :
  startswith s selector = true ->
  exists rest, s = ("0xa9059cbb" ++ rest)%string.
Proof.
  unfold startswith, selector. intros H.
  do 10 (destruct s as [|? s]; [discriminate H|];
         simpl in H;
         match type of H with
         | (if ?d then _ else _) = true =>
             destruct d as [<-|]; [|discriminate H]
         end).
  now exists s.
Qed.

Lemma short_padding_is_not_zeros (inputinfo : string) :
  startswith inputinfo selector = true ->
  (String.length inputinfo < 138)%nat ->
  String.eqb (py_slice inputinfo (-128) (-104)) zeros24 = false.
Proof.
  intros Hs Hlen.
  destruct (Nat.lt_ge_cases (String.length inputinfo) 128) as [Hshort|Hlong].
  - apply String.eqb_neq. intros Heq.
    apply (f_equal String.length) in Heq.
    change (String.length zeros24) with 24%nat in Heq.
    unfold py_slice in Heq.
    set (n := Z.of_nat (String.length inputinfo)) in Heq.
    assert (Ha : norm_index n (-128) = 0)
      by (unfold norm_index; cbn [Z.ltb Z.compare]; lia).
    assert (Hb : norm_index n (-104) < 24)
      by (unfold norm_index; cbn [Z.ltb Z.compare]; lia).
    rewrite Ha in Heq.
    destruct (0 <? norm_index n (-104)); [|discriminate Heq].
    pose proof (length_substring_le (Z.to_nat 0)
                  (Z.to_nat (norm_index n (-104) - 0)) inputinfo).
    lia.
  - destruct (starts_with_selector inputinfo Hs) as [rest ->].
    simpl in Hlen, Hlong.
    assert (Hcases :
              String.length rest = 118%nat \/ String.length rest = 119%nat
              \/ String.length rest = 120%nat \/ String.length rest = 121%nat
              \/ String.length rest = 122%nat \/ String.length rest = 123%nat
              \/ String.length rest = 124%nat \/ String.length rest = 125%nat
              \/ String.length rest = 126%nat \/ String.length rest = 127%nat)
      by lia.
    unfold py_slice. simpl String.length.
    repeat (destruct Hcases as [Hcase|Hcases]; [rewrite Hcase; reflexivity|]).
    rewrite Hcases. reflexivity.
Qed.

(** Every input that starts with the selector and is shorter than the 138
    characters of a call with two arguments draws the warning of line
    129: the 24 characters taken for padding cannot all be zeros. *)
Theorem short_transfer_call_always_warns (inputinfo txhash : string)
  (st : State) :
  startswith inputinfo selector = true ->
  (String.length inputinfo < 138)%nat ->
  warn_leading_zeros inputinfo txhash st
  = (Return tt,
     logged st [WarnLeadingZeros (py_slice inputinfo (-128) (-104)) txhash]).
Proof.
  intros Hs Hlen. unfold warn_leading_zeros.
  rewrite Hs, (short_padding_is_not_zeros inputinfo Hs Hlen). reflexivity.
Qed.

(** The call that is nothing but the selector is warned about. *)
Lemma short_transfer_call_always_warns_witness :
  warn_leading_zeros bare_selector_call "0x02" (boot [])
  = (Return tt,
     logged (boot [])
       [WarnLeadingZeros (py_slice bare_selector_call (-128) (-104)) "0x02"]).
Proof.
  apply (short_transfer_call_always_warns bare_selector_call "0x02" (boot [])
           eq_refl).
  simpl. lia.
Defined.

(* ================================================================== *)
(** ** The range of a pass *)

(** The heights a pass asks the node for are consecutive from
    [maxblockindb + 1] and stop at [endblock] or at the first exception;
    a pass that returns has asked for all of them.  When [endblock] is
    not above the cursor (nothing new, or the node's head fell back) the
    pass asks for nothing, logs its one line and returns with the table
    and [latest_hash] as they were.  On an empty table the cursor is
    [int(startBlock)], so the block [START_BLOCK] itself is never asked
    for. *)
Theorem pass_requests_heights_above_cursor (cfg : Config) (db : Db)
  (node : Node) (st : State) (maxblockindb endblock : Z) :
  cursor cfg (store st) = Some maxblockindb ->
  safe_head cfg node = Some endblock ->
  (endblock <= maxblockindb ->
   sync_pass cfg db node st
   = (Return tt, logged st [InfoBest maxblockindb endblock]))
  /\ (store st = [] -> py_int (startBlock cfg) = Some maxblockindb)
  /\ exists evs,
       events_since st (snd (sync_pass cfg db node st))
       = InfoBest maxblockindb endblock :: evs
       /\ (exists rest,
             py_range (maxblockindb + 1) (endblock + 1) = fetched evs ++ rest)
       /\ (fst (sync_pass cfg db node st) = Return tt ->
           fetched evs = py_range (maxblockindb + 1) (endblock + 1))
       /\ forall h, In h (fetched evs) -> maxblockindb < h <= endblock.
Proof.
  intros Hc Hs. split; [|split].
  - intros Hle. rewrite (sync_pass_unfold _ _ _ _ _ _ Hc Hs).
    now rewrite py_range_nil by lia.
  - intros Hempty. unfold cursor in Hc. rewrite Hempty in Hc. exact Hc.
  - destruct (pass_fetches cfg db node st _ _ Hc Hs)
      as [evs [Ht [[rest Hrest] Hall]]].
    exists evs. split; [now apply events_since_logged|].
    split; [now exists rest|]. split; [exact Hall|].
    intros h Hh.
    assert (Hin : In h (py_range (maxblockindb + 1) (endblock + 1))).
    { rewrite Hrest. apply in_or_app. now left. }
    apply in_py_range in Hin. lia.
Qed.

(** A first start with [START_BLOCK=100] and the chain head at 103: the
    pass asks for 101, 102 and 103, not for 100. *)
Lemma pass_requests_heights_above_cursor_witness :
  exists evs,
    events_since (boot [])
      (snd (sync_pass from_100 reliable (view main_chain 103) (boot [])))
    = InfoBest 100 103 :: evs
    /\ (exists rest, py_range (100 + 1) (103 + 1) = fetched evs ++ rest)
    /\ (fst (sync_pass from_100 reliable (view main_chain 103) (boot []))
        = Return tt ->
        fetched evs = py_range (100 + 1) (103 + 1))
    /\ forall h, In h (fetched evs) -> 100 < h <= 103.
Proof.
  exact (proj2 (proj2 (pass_requests_heights_above_cursor from_100 reliable
                         (view main_chain 103) (boot []) 100 103
                         eq_refl eq_refl))).
Defined.

(** What [int] makes of the configuration.  A [CONFIRMATIONS_BLOCK] that
    is no integer stops every pass with [ValueError] at line 191, before a
    block is asked for or a line logged, and with it the loop.
    [START_BLOCK] is read only when the table is empty: a value that is
    no integer stops the pass then, and is never looked at, nor is any
    other value, once the table holds a row. *)
Theorem int_failures_of_the_configuration (cfg : Config) (db : Db)
  (node : Node) (st : State) :
  (py_int (confirmationBlocks cfg) = None ->
   forall rest,
     sync_pass cfg db node st = (Raise ValueError, st)
     /\ sync_loop cfg db (node :: rest) st = (Raise ValueError, st))
  /\ (store st = [] ->
      py_int (startBlock cfg) = None ->
      sync_pass cfg db node st = (Raise ValueError, st))
  /\ (store st <> [] ->
      forall other,
        sync_pass
          (mkConfig other (confirmationBlocks cfg) (reorg_blocks cfg)
             (pollingPeriod cfg)) db node st
        = sync_pass cfg db node st).
Proof.
  split; [|split].
  - intros Hnone rest.
    assert (Hpass : sync_pass cfg db node st = (Raise ValueError, st)).
    { apply sync_pass_no_range. right. unfold safe_head. now rewrite Hnone. }
    split; [exact Hpass|].
    unfold sync_loop. simpl. unfold bind. now rewrite Hpass.
  - intros Hempty Hnone. apply sync_pass_no_range. left.
    unfold cursor. now rewrite Hempty.
  - intros Hrows other.
    pose proof (max_block_spec (store st)) as Hspec.
    destruct (max_block (store st)) as [m|] eqn:Hmax; [|contradiction].
    set (cfg' := mkConfig other (confirmationBlocks cfg) (reorg_blocks cfg)
                   (pollingPeriod cfg)).
    assert (Hc : cursor cfg (store st) = Some m)
      by (unfold cursor; now rewrite Hmax).
    assert (Hc' : cursor cfg' (store st) = Some m)
      by (unfold cursor; now rewrite Hmax).
    destruct (safe_head cfg node) as [e|] eqn:Hs.
    + assert (Hs' : safe_head cfg' node = Some e) by exact Hs.
      rewrite (sync_pass_unfold _ _ _ _ _ _ Hc Hs),
        (sync_pass_unfold _ _ _ _ _ _ Hc' Hs').
      reflexivity.
    + assert (Hs' : safe_head cfg' node = None) by exact Hs.
      rewrite !sync_pass_no_range by now right. reflexivity.
Qed.

(** [CONFIRMATIONS_BLOCK=many]: the loop ends in the first pass. *)
Lemma int_failures_of_the_configuration_witness :
  sync_pass confirm_many reliable (view main_chain 105) (boot [stored 103])
  = (Raise ValueError, boot [stored 103])
  /\ sync_loop confirm_many reliable
       [view main_chain 105; view main_chain 106] (boot [stored 103])
     = (Raise ValueError, boot [stored 103]).
Proof.
  exact (proj1 (int_failures_of_the_configuration confirm_many reliable
                  (view main_chain 105) (boot [stored 103]))
           eq_refl [view main_chain 106]).
Defined.

(* ================================================================== *)
(** ** What a pass does to the table *)

(** The table after a pass: the rows it had, then rows for heights of
    the range, and, if the rollback ran with an integer depth, all of
    that without the window. *)
Lemma pass_rows (cfg : Config) (db : Db) (node : Node) (st : State)
  (maxblockindb endblock : Z) :
  cursor cfg (store st) = Some maxblockindb ->
  safe_head cfg node = Some endblock ->
  exists rows,
    Forall (row_from node (py_range (maxblockindb + 1) (endblock + 1))) rows
    /\ (store (snd (sync_pass cfg db node st)) = store st ++ rows
        \/ exists depth,
             reorg_blocks cfg = PyInt depth
             /\ store (snd (sync_pass cfg db node st))
                = without_window (endblock - 1 - depth) (endblock - 1)
                    (store st ++ rows)).
Proof.
  intros Hc Hs. rewrite (sync_pass_unfold _ _ _ _ _ _ Hc Hs).
  set (st0 := logged st [InfoBest maxblockindb endblock]).
  destruct (Z_lt_le_dec maxblockindb endblock) as [Hlt|Hle].
  2:{ rewrite py_range_nil by lia. exists []. simpl.
      rewrite app_nil_r. split; [constructor | now left]. }
  rewrite py_range_snoc by lia. rewrite for_each_app.
  assert (Hnot : ~ In endblock (py_range (maxblockindb + 1) endblock)).
  { rewrite in_py_range. lia. }
  destruct (prefix_loop_effect cfg db node endblock
              (py_range (maxblockindb + 1) endblock) st0 Hnot)
    as [rows1 [evs1 [Hst1 [Hrows1 _]]]].
  assert (Hrows1' :
            Forall (row_from node
                      (py_range (maxblockindb + 1) endblock ++ [endblock]))
              rows1).
  { eapply Forall_impl; [|exact Hrows1]. intros r. apply row_from_incl.
    intros x Hx. apply in_or_app. now left. }
  destruct (for_each (py_range (maxblockindb + 1) endblock)
              (sync_block cfg db node endblock) st0) as [[[]|err] st1];
    simpl in Hst1; cbv beta iota.
  2:{ exists rows1. split; [exact Hrows1' | now left]. }
  rewrite for_each_one.
  destruct (string_dec (latest_hash st1)
              (hex (parentHash (getBlock node endblock)))) as [Heq|Hneq].
  - rewrite sync_block_indexes by now right.
    destruct (index_block_effect db node endblock (getBlock node endblock)
                (logged st1 [GetBlock endblock]))
      as [rows2 [evs2 [Hst2 [Hrows2 [Hd2 _]]]]].
    exists (rows1 ++ rows2). simpl in Hst2. split.
    + apply Forall_app. split; [exact Hrows1'|].
      apply Forall_forall. intros r Hr. exists endblock.
      split; [apply in_or_app; right; now left|].
      split; [rewrite Forall_forall in Hrows2; now apply Hrows2|].
      destruct (forallb discarded (transactions (getBlock node endblock)));
        [|reflexivity].
      rewrite (Hd2 eq_refl) in Hr. contradiction.
    + left. now rewrite Hst2, Hst1, app_assoc.
  - rewrite sync_block_rolls_back by exact Hneq.
    exists rows1. split; [exact Hrows1'|].
    destruct (reorg_blocks cfg) as [s|depth] eqn:Hr.
    + left. rewrite (rollback_str _ _ _ _ _ Hr). exact Hst1.
    + destruct (delete_ok db (store st1)) eqn:Hok.
      * right. exists depth. split; [reflexivity|].
        rewrite (rollback_accepted cfg db endblock depth
                   (logged st1 [GetBlock endblock]) Hr Hok).
        simpl. now rewrite Hst1.
      * left. rewrite (rollback_refused cfg db endblock depth
                         (logged st1 [GetBlock endblock]) Hr Hok).
        exact Hst1.
Qed.

(** No row above the safe head.  On a node that numbers its blocks,
    whatever a pass does and however it ends, every row in the table
    afterwards either was there before the pass or belongs to a block
    above the cursor and at or below the safe head of that pass. *)
Theorem pass_writes_only_within_its_range (cfg : Config) (db : Db)
  (node : Node) (st : State) (maxblockindb endblock : Z) :
  cursor cfg (store st) = Some maxblockindb ->
  safe_head cfg node = Some endblock ->
  numbers_blocks node ->
  forall r,
    In r (store (snd (sync_pass cfg db node st))) ->
    In r (store st) \/ maxblockindb < block r <= endblock.
Proof.
  intros Hc Hs Hn r Hin.
  destruct (pass_rows cfg db node st _ _ Hc Hs) as [rows [Hrows Hst]].
  apply (rows_from_range node _ _ _ Hn) in Hrows.
  rewrite Forall_forall in Hrows.
  assert (Hin' : In r (store st ++ rows)).
  { destruct Hst as [Hst | [depth [_ Hst]]]; rewrite Hst in Hin;
      [exact Hin|].
    unfold without_window in Hin. now apply filter_In in Hin. }
  apply in_app_or in Hin'. destruct Hin' as [Hold|Hnew]; [now left|].
  right. specialize (Hrows _ Hnew). lia.
Qed.

(** With two confirmations and the head at 105, every row after the pass
    is at block 103 or lower. *)
Lemma pass_writes_only_within_its_range_witness :
  Forall (fun r => In r (store (boot [])) \/ 100 < block r <= 103)
    (store (snd (sync_pass from_100_confirm_2 reliable
                   (view main_chain 105) (boot [])))).
Proof.
  apply Forall_forall.
  apply (pass_writes_only_within_its_range from_100_confirm_2 reliable
           (view main_chain 105) (boot []) 100 103);
    [reflexivity | reflexivity | intros h; reflexivity].
Defined.

(** With [reorg_blocks] a string the loop never deletes: after any number
    of passes, however the loop ends, the table is the table it started
    from followed by the rows the passes wrote. *)
Theorem loop_with_string_depth_never_deletes (cfg : Config) (db : Db)
  (nodes : list Node) (st : State) (s : string) :
  reorg_blocks cfg = PyStr s ->
  exists rows,
    store (snd (sync_loop cfg db nodes st)) = store st ++ rows.
Proof.
  intros Hr. revert st.
  induction nodes as [|node nodes IH]; intros st.
  - exists []. simpl. now rewrite app_nil_r.
  - assert (Hpass : exists rows,
               store (snd (sync_pass cfg db node st)) = store st ++ rows).
    { destruct (cursor cfg (store st)) as [m|] eqn:Hc.
      - destruct (safe_head cfg node) as [e|] eqn:Hs.
        + destruct (pass_rows cfg db node st _ _ Hc Hs)
            as [rows [_ [Hst | [depth [Hd _]]]]].
          * now exists rows.
          * rewrite Hr in Hd. discriminate Hd.
        + rewrite sync_pass_no_range by now right.
          exists []. now rewrite app_nil_r.
      - rewrite sync_pass_no_range by now left.
        exists []. now rewrite app_nil_r. }
    destruct Hpass as [rows1 H1]. rewrite sync_loop_cons.
    destruct (sync_pass cfg db node st) as [[[]|e] st1]; simpl in H1.
    + pose proof (wait_period_state cfg st1) as Hw.
      destruct (wait_period cfg st1) as [[[]|e] st2]; simpl in Hw; subst st2.
      * destruct (IH st1) as [rows2 H2]. exists (rows1 ++ rows2).
        now rewrite H2, H1, app_assoc.
      * now exists rows1.
    + now exists rows1.
Qed.

(** With [CONFIRMATIONS_BLOCK=2], two passes over a table that holds
    block 101: its row is still the first of the table. *)
Lemma loop_with_string_depth_never_deletes_witness :
  exists rows,
    store (snd (sync_loop from_100_confirm_2 reliable
                  [view main_chain 105; view main_chain 107]
                  (boot [stored 101])))
    = store (boot [stored 101]) ++ rows.
Proof.
  exact (loop_with_string_depth_never_deletes from_100_confirm_2 reliable
           [view main_chain 105; view main_chain 107] (boot [stored 101])
           "2" eq_refl).
Defined.

(** A block at the safe head that leaves no row is rolled back by the
    next pass.  Take a pass whose only new block is the one at
    [endblock], chained to what the engine remembers, with no transaction
    that the filter keeps: the block is gone through, the table does not
    change, and [latest_hash] becomes the block's own hash.  If the next
    pass finds the same head, its cursor is the same, it fetches the same
    block, compares the block's parent hash with the block's own hash,
    and takes the rollback branch: with [reorg_blocks] an integer and the
    DELETE accepted, the rows of the window are deleted although the
    chain did not change.  (The receipts of the block have a status, and
    the period is one the sleep of line 225 takes.) *)
Theorem rowless_head_block_is_rolled_back (cfg : Config) (db : Db)
  (node : Node) (st : State) (maxblockindb endblock depth : Z) :
  cursor cfg (store st) = Some maxblockindb ->
  safe_head cfg node = Some endblock ->
  maxblockindb + 1 = endblock ->
  latest_hash st = hex (parentHash (getBlock node endblock)) ->
  Forall (has_status node) (transactions (getBlock node endblock)) ->
  forallb discarded (transactions (getBlock node endblock)) = true ->
  own_hash (getBlock node endblock) ->
  reorg_blocks cfg = PyInt depth ->
  delete_ok db (store st) = true ->
  sleeps cfg ->
  (exists evs,
     sync_pass cfg db node st
     = (Return tt,
        mkState (store st) (hex (hash (getBlock node endblock)))
          (trace st ++ evs))
     /\ indexed evs = [(endblock, getBlock node endblock)])
  /\ exists evs,
       sync_loop cfg db [node; node] st
       = (Return tt,
          mkState
            (without_window (endblock - 1 - depth) (endblock - 1) (store st))
            (hex (hash (getBlock node endblock)))
            (trace st ++ evs))
       /\ fetched evs = [endblock; endblock]
       /\ indexed evs = [(endblock, getBlock node endblock)].
Proof.
  intros Hc Hs Hone Hlh Hstatus Hdisc Hown Hr Hok Hsleep.
  set (blk := getBlock node endblock) in *.
  assert (Hstep : exists ev,
             index_block db node endblock blk
               (logged st [InfoBest maxblockindb endblock; GetBlock endblock])
             = (Return tt,
                mkState (store st) (hex (hash blk))
                  (trace st
                   ++ [InfoBest maxblockindb endblock; GetBlock endblock; ev]))
             /\ indexed [ev] = [(endblock, blk)]).
  { unfold index_block, bind, log, set_latest_hash.
    destruct (0 <? Z.of_nat (List.length (transactions blk))).
    - rewrite insertTxsFromBlock_all_discarded by assumption.
      exists (InfoProcessed endblock blk). simpl.
      rewrite <- app_assoc. now split.
    - exists (InfoNoTransactions endblock blk). simpl.
      rewrite <- app_assoc. now split. }
  destruct Hstep as [ev [Hstep Hev]].
  assert (Hpass1 :
            sync_pass cfg db node st
            = (Return tt,
               mkState (store st) (hex (hash blk))
                 (trace st
                  ++ [InfoBest maxblockindb endblock; GetBlock endblock;
                      ev]))).
  { rewrite (sync_pass_at_boundary cfg db node st
               (logged st [InfoBest maxblockindb endblock])
               maxblockindb endblock Hc Hs ltac:(lia)).
    - rewrite sync_block_indexes by (right; exact Hlh).
      rewrite logged_logged. exact Hstep.
    - rewrite py_range_nil by lia. reflexivity. }
  split.
  - eexists. split; [exact Hpass1|]. simpl in *. exact Hev.
  - set (st1 := mkState (store st) (hex (hash blk))
                  (trace st
                   ++ [InfoBest maxblockindb endblock; GetBlock endblock;
                       ev])).
    assert (Hmis : latest_hash st1 <> hex (parentHash blk)).
    { simpl. intros E. apply hex_inj in E. now apply Hown. }
    assert (Hpass2 :
              sync_pass cfg db node st1
              = (Return tt,
                 mkState
                   (without_window (endblock - 1 - depth) (endblock - 1)
                      (store st))
                   (hex (hash blk))
                   (trace st1
                    ++ [InfoBest maxblockindb endblock; GetBlock endblock;
                        WarnReorganisation;
                        InfoDeleted (endblock - 1 - depth + 1)
                          (endblock - 1)]))).
    { rewrite (sync_pass_at_boundary cfg db node st1
                 (logged st1 [InfoBest maxblockindb endblock])
                 maxblockindb endblock Hc Hs ltac:(lia)).
      - rewrite sync_block_rolls_back by exact Hmis.
        rewrite (rollback_accepted cfg db endblock depth
                   (logged (logged st1 [InfoBest maxblockindb endblock])
                      [GetBlock endblock]) Hr Hok).
        simpl. now rewrite <- !app_assoc.
      - rewrite py_range_nil by lia. reflexivity. }
    rewrite (sync_loop_cons_sleeps _ _ _ _ _ Hsleep), Hpass1.
    fold st1. rewrite (sync_loop_cons_sleeps _ _ _ _ _ Hsleep), Hpass2.
    unfold st1. simpl trace. simpl sync_loop. unfold ret.
    rewrite <- app_assoc. eexists. split; [reflexivity|].
    simpl. destruct ev; simpl in Hev; try discriminate Hev;
      simpl; now split.
Qed.

(** Block 104 is in the table and remembered; the node's head is the
    empty block 105.  The first pass goes through 105; the second, with
    the head still at 105, deletes the row of block 104. *)
Lemma rowless_head_block_is_rolled_back_witness :
  exists evs,
    sync_loop from_100 reliable
      [view (quiet_top_chain 105) 105; view (quiet_top_chain 105) 105]
      (mkState [stored 104] "0x68" [])
    = (Return tt,
       mkState (without_window (105 - 1 - 10) (105 - 1) [stored 104])
         (hex (hash (getBlock (view (quiet_top_chain 105) 105) 105)))
         ([] ++ evs))
    /\ fetched evs = [105; 105]
    /\ indexed evs = [(105, getBlock (view (quiet_top_chain 105) 105) 105)].
Proof.
  apply (proj2 (rowless_head_block_is_rolled_back from_100 reliable
                  (view (quiet_top_chain 105) 105)
                  (mkState [stored 104] "0x68" []) 104 105 10
                  eq_refl eq_refl eq_refl eq_refl (Forall_nil _) eq_refl
                  ltac:(unfold own_hash; vm_compute; discriminate)
                  eq_refl eq_refl
                  (sleeps_of_period from_100 20 eq_refl eq_refl))).
Defined.

(* ================================================================== *)
(** ** A pass that goes through *)

Lemma insertTxsFromBlock_kept (db : Db) (node : Node) (blk : Block)
  (st : State) :
  Forall (has_status node) (transactions blk) ->
  Forall has_keys (kept (transactions blk)) ->
  accepts_inserts db ->
  exists evs,
    insertTxsFromBlock db node blk st
    = (Return tt,
       mkState (store st ++ block_rows node blk) (latest_hash st)
         (trace st ++ evs))
    /\ Forall quiet evs.
Proof.
  intros Hstatus Hkeys Hdb. unfold insertTxsFromBlock, block_rows, bind.
  destruct (for_each_with_kept db node (number blk) (timestamp blk)
              (transactions blk) (mkLocals None None) st Hstatus Hkeys
              (fun rows r _ => Hdb rows r))
    as [locals' [evs [E Hq]]].
  rewrite E. exists evs. split; [reflexivity|].
  eapply Forall_impl; [|exact Hq]. intros e [part [txhash ->]]. exact I.
Qed.

Lemma index_block_kept (db : Db) (node : Node) (h : Z) (blk : Block)
  (st : State) :
  Forall (has_status node) (transactions blk) ->
  Forall has_keys (kept (transactions blk)) ->
  accepts_inserts db ->
  exists evs,
    index_block db node h blk st
    = (Return tt,
       mkState (store st ++ block_rows node blk) (hex (hash blk))
         (trace st ++ evs))
    /\ fetched evs = []
    /\ indexed evs = [(h, blk)].
Proof.
  intros Hstatus Hkeys Hdb. unfold index_block.
  destruct (0 <? Z.of_nat (List.length (transactions blk))) eqn:Hlen.
  - destruct (insertTxsFromBlock_kept db node blk st Hstatus Hkeys Hdb)
      as [evs [E Hq]].
    unfold bind, log, set_latest_hash. rewrite E. simpl.
    exists (evs ++ [InfoProcessed h blk]). rewrite app_assoc.
    split; [reflexivity|].
    rewrite fetched_app, indexed_app, (quiet_fetched _ Hq),
      (quiet_indexed _ Hq). now split.
  - assert (Hnil : transactions blk = []).
    { destruct (transactions blk); [reflexivity|]. simpl in Hlen.
      discriminate Hlen. }
    unfold bind, log, set_latest_hash, block_rows. rewrite Hnil. simpl.
    rewrite app_nil_r. exists [InfoNoTransactions h blk]. now split.
Qed.

Lemma indexing_loop (cfg : Config) (db : Db) (node : Node) (endblock : Z)
  (l : list Z) (st : State) :
  ~ In endblock l ->
  (forall h, In h l ->
             Forall (has_status node) (transactions (getBlock node h))) ->
  (forall h, In h l ->
             Forall has_keys (kept (transactions (getBlock node h)))) ->
  accepts_inserts db ->
  exists evs,
    for_each l (sync_block cfg db node endblock) st
    = (Return tt,
       mkState
         (store st ++ flat_map (fun h => block_rows node (getBlock node h)) l)
         (last (map (fun h => hex (hash (getBlock node h))) l)
            (latest_hash st))
         (trace st ++ evs))
    /\ fetched evs = l
    /\ indexed evs = map (fun h => (h, getBlock node h)) l.
Proof.
  intros Hnot Hstatus Hkeys Hdb. revert st.
  induction l as [|h l IH]; intros st.
  - exists []. simpl. rewrite !app_nil_r. destruct st. now split.
  - assert (Hh : h <> endblock) by (intros ->; apply Hnot; now left).
    assert (Hl : ~ In endblock l) by (intros H; apply Hnot; now right).
    simpl for_each. unfold bind.
    rewrite sync_block_indexes by now left.
    destruct (index_block_kept db node h (getBlock node h)
                (logged st [GetBlock h]) (Hstatus h (or_introl eq_refl))
                (Hkeys h (or_introl eq_refl)) Hdb)
      as [evs1 [E1 [Hf1 Hi1]]].
    rewrite E1.
    destruct (IH Hl (fun x Hx => Hstatus x (or_intror Hx))
                (fun x Hx => Hkeys x (or_intror Hx))
                (mkState
                   (store (logged st [GetBlock h])
                    ++ block_rows node (getBlock node h))
                   (hex (hash (getBlock node h)))
                   (trace (logged st [GetBlock h]) ++ evs1)))
      as [evs2 [E2 [Hf2 Hi2]]].
    rewrite E2. exists (GetBlock h :: evs1 ++ evs2).
    cbn [map]. rewrite last_cons. unfold logged.
    cbn [store trace latest_hash flat_map].
    rewrite <- !app_assoc. cbn [app]. split; [reflexivity|].
    change (GetBlock h :: evs1 ++ evs2)
      with ([GetBlock h] ++ evs1 ++ evs2).
    rewrite !fetched_app, !indexed_app, Hf1, Hi1, Hf2, Hi2. now split.
Qed.

(** The pass that goes through, in full. *)
Lemma chained_pass_effect (cfg : Config) (db : Db)
  (node : Node) (st : State) (maxblockindb endblock : Z) :
  cursor cfg (store st) = Some maxblockindb ->
  safe_head cfg node = Some endblock ->
  maxblockindb < endblock ->
  (maxblockindb + 1 < endblock ->
   parentHash (getBlock node endblock)
   = hash (getBlock node (endblock - 1))) ->
  (maxblockindb + 1 = endblock ->
   latest_hash st = hex (parentHash (getBlock node endblock))) ->
  (forall h, maxblockindb < h <= endblock ->
             Forall (has_status node) (transactions (getBlock node h))) ->
  (forall h, maxblockindb < h <= endblock ->
             Forall has_keys (kept (transactions (getBlock node h)))) ->
  accepts_inserts db ->
  exists evs,
    sync_pass cfg db node st
    = (Return tt,
       mkState
         (store st
          ++ flat_map (fun h => block_rows node (getBlock node h))
               (py_range (maxblockindb + 1) (endblock + 1)))
         (hex (hash (getBlock node endblock)))
         (trace st ++ InfoBest maxblockindb endblock :: evs))
    /\ fetched evs = py_range (maxblockindb + 1) (endblock + 1)
    /\ indexed evs
       = map (fun h => (h, getBlock node h))
           (py_range (maxblockindb + 1) (endblock + 1)).
Proof.
  intros Hc Hs Hlt Hlink Hone Hstatus Hkeys Hdb.
  assert (Hnot : ~ In endblock (py_range (maxblockindb + 1) endblock)).
  { rewrite in_py_range. lia. }
  destruct (indexing_loop cfg db node endblock
              (py_range (maxblockindb + 1) endblock)
              (logged st [InfoBest maxblockindb endblock]) Hnot)
    as [evs1 [E1 [Hf1 Hi1]]].
  { intros h Hh. apply in_py_range in Hh. apply Hstatus. lia. }
  { intros h Hh. apply in_py_range in Hh. apply Hkeys. lia. }
  { exact Hdb. }
  rewrite (sync_pass_at_boundary cfg db node st _ maxblockindb endblock
             Hc Hs Hlt E1).
  rewrite sync_block_indexes.
  2:{ right. simpl latest_hash.
      destruct (Z_lt_le_dec (maxblockindb + 1) endblock) as [Hmore|Hsingle].
      - rewrite (Hlink Hmore).
        replace endblock with (endblock - 1 + 1) at 1 by lia.
        rewrite py_range_snoc by lia. rewrite map_app. simpl.
        now rewrite last_last.
      - rewrite py_range_nil by lia. simpl. apply Hone. lia. }
  destruct (index_block_kept db node endblock (getBlock node endblock)
              (logged
                 (mkState
                    (store (logged st [InfoBest maxblockindb endblock])
                     ++ flat_map
                          (fun h => block_rows node (getBlock node h))
                          (py_range (maxblockindb + 1) endblock))
                    (last
                       (map (fun h => hex (hash (getBlock node h)))
                          (py_range (maxblockindb + 1) endblock))
                       (latest_hash
                          (logged st [InfoBest maxblockindb endblock])))
                    (trace (logged st [InfoBest maxblockindb endblock])
                     ++ evs1))
                 [GetBlock endblock]))
    as [evs2 [E2 [Hf2 Hi2]]].
  { apply Hstatus. lia. }
  { apply Hkeys. lia. }
  { exact Hdb. }
  rewrite E2. simpl.
  exists (evs1 ++ GetBlock endblock :: evs2).
  rewrite py_range_snoc by lia.
  rewrite flat_map_app, map_app. simpl. rewrite app_nil_r.
  rewrite <- !app_assoc. simpl. split; [reflexivity|].
  rewrite fetched_app, indexed_app. simpl.
  now rewrite Hf1, Hf2, Hi1, Hi2.
Qed.

(** A pass over a range of at least one block, on a node whose block at
    the safe head is chained to what precedes it (to the block fetched
    before it, or, for a range of one block, to [latest_hash]), whose
    receipts all have a status and whose kept transactions all have
    their ['from'] and ['to'] keys, with a database that accepts the
    INSERTs: the pass returns; it has asked for
    every height from cursor + 1 to the safe head and gone through each
    of them, in order; the table has gained the rows of these blocks, in
    the order of heights and then of transactions; and [latest_hash] is
    the hash of the block at the safe head. *)
Theorem chained_pass_indexes_its_range (cfg : Config) (db : Db)
  (node : Node) (st : State) (maxblockindb endblock : Z) :
  cursor cfg (store st) = Some maxblockindb ->
  safe_head cfg node = Some endblock ->
  maxblockindb < endblock ->
  (maxblockindb + 1 < endblock ->
   parentHash (getBlock node endblock)
   = hash (getBlock node (endblock - 1))) ->
  (maxblockindb + 1 = endblock ->
   latest_hash st = hex (parentHash (getBlock node endblock))) ->
  (forall h, maxblockindb < h <= endblock ->
             Forall (has_status node) (transactions (getBlock node h))) ->
  (forall h, maxblockindb < h <= endblock ->
             Forall has_keys (kept (transactions (getBlock node h)))) ->
  accepts_inserts db ->
  exists evs,
    sync_pass cfg db node st
    = (Return tt,
       mkState
         (store st
          ++ flat_map (fun h => block_rows node (getBlock node h))
               (py_range (maxblockindb + 1) (endblock + 1)))
         (hex (hash (getBlock node endblock)))
         (trace st ++ InfoBest maxblockindb endblock :: evs))
    /\ fetched evs = py_range (maxblockindb + 1) (endblock + 1)
    /\ indexed evs
       = map (fun h => (h, getBlock node h))
           (py_range (maxblockindb + 1) (endblock + 1)).
Proof.
  apply chained_pass_effect.
Qed.

(** An empty table, [START_BLOCK=100], the chain head at 103: the pass
    writes the rows of blocks 101, 102 and 103 and remembers the hash of
    103. *)
Lemma chained_pass_indexes_its_range_witness :
  exists evs,
    sync_pass from_100 reliable (view main_chain 103) (boot [])
    = (Return tt,
       mkState
         (store (boot [])
          ++ flat_map
               (fun h =>
                  block_rows (view main_chain 103)
                    (getBlock (view main_chain 103) h))
               (py_range (100 + 1) (103 + 1)))
         (hex (hash (getBlock (view main_chain 103) 103)))
         (trace (boot []) ++ InfoBest 100 103 :: evs))
    /\ fetched evs = py_range (100 + 1) (103 + 1)
    /\ indexed evs
       = map (fun h => (h, getBlock (view main_chain 103) h))
           (py_range (100 + 1) (103 + 1)).
Proof.
  apply (chained_pass_indexes_its_range from_100 reliable
           (view main_chain 103) (boot []) 100 103).
  - reflexivity.
  - reflexivity.
  - lia.
  - intros _. reflexivity.
  - lia.
  - intros h _. constructor; [discriminate | constructor].
  - intros h _. unfold kept, discarded. simpl.
    destruct (h =? 0); simpl; repeat constructor; discriminate.
  - intros rows r. reflexivity.
Defined.

Lemma block_rows_block (node : Node) (blk : Block) :
  Forall (fun r => block r = number blk) (block_rows node blk).
Proof.
  unfold block_rows. apply Forall_forall. intros r Hr.
  apply in_map_iff in Hr as [trans [<- _]]. reflexivity.
Qed.

(** Caught up, the engine idles.  After a pass that goes through its
    range (chained at the safe head, receipts with a status, keys
    present, INSERTs accepted), on a node that numbers its blocks and
    whose block at the safe head holds a transaction that the filter
    keeps, [max(block)] is the safe head: with a period that the sleep
    of line 225 takes, a next pass that finds the same head asks the
    node for no block and changes neither the table nor
    [latest_hash]. *)
Theorem caught_up_engine_idles (cfg : Config) (db : Db) (node : Node)
  (st : State) (maxblockindb endblock : Z) :
  cursor cfg (store st) = Some maxblockindb ->
  safe_head cfg node = Some endblock ->
  maxblockindb < endblock ->
  (maxblockindb + 1 < endblock ->
   parentHash (getBlock node endblock)
   = hash (getBlock node (endblock - 1))) ->
  (maxblockindb + 1 = endblock ->
   latest_hash st = hex (parentHash (getBlock node endblock))) ->
  (forall h, maxblockindb < h <= endblock ->
             Forall (has_status node) (transactions (getBlock node h))) ->
  (forall h, maxblockindb < h <= endblock ->
             Forall has_keys (kept (transactions (getBlock node h)))) ->
  accepts_inserts db ->
  numbers_blocks node ->
  kept (transactions (getBlock node endblock)) <> [] ->
  sleeps cfg ->
  max_block (store (snd (sync_pass cfg db node st))) = Some endblock
  /\ sync_loop cfg db [node; node] st
     = (Return tt,
        logged (snd (sync_pass cfg db node st)) [InfoBest endblock endblock]).
Proof.
  intros Hc Hs Hlt Hlink Hone Hstatus Hkeys Hdb Hn Hkept Hsleep.
  destruct (chained_pass_effect cfg db node st maxblockindb
              endblock Hc Hs Hlt Hlink Hone Hstatus Hkeys Hdb)
    as [evs [Hpass _]].
  assert (Hmax : max_block (store (snd (sync_pass cfg db node st)))
                 = Some endblock).
  { rewrite Hpass. simpl.
    destruct (block_rows node (getBlock node endblock)) as [|r rs] eqn:Hrows.
    { unfold block_rows in Hrows. apply map_eq_nil in Hrows. contradiction. }
    assert (Hrb : block r = endblock).
    { pose proof (block_rows_block node (getBlock node endblock)) as Hb.
      rewrite Hrows in Hb. inversion Hb as [|? ? Hbr _]. now rewrite Hbr, Hn. }
    apply max_block_unique with (r := r); [| |exact Hrb].
    - apply Forall_app. split.
      + eapply Forall_impl; [|exact (rows_below_cursor cfg _ _ Hc)].
        simpl. intros; lia.
      + apply Forall_forall. intros x Hx.
        apply in_flat_map in Hx as [h [Hh Hx]].
        pose proof (block_rows_block node (getBlock node h)) as Hb.
        rewrite Forall_forall in Hb. rewrite (Hb _ Hx), Hn.
        apply in_py_range in Hh. lia.
    - apply in_or_app. right. apply in_flat_map. exists endblock.
      split; [apply in_py_range; lia|]. rewrite Hrows. now left. }
  split; [exact Hmax|].
  rewrite (sync_loop_cons_sleeps _ _ _ _ _ Hsleep).
  destruct (sync_pass cfg db node st) as [[[]|e] st1] eqn:Hrun;
    [|discriminate Hpass].
  simpl in Hmax |- *.
  assert (Hc1 : cursor cfg (store st1) = Some endblock)
    by (unfold cursor; now rewrite Hmax).
  rewrite (sync_loop_cons_sleeps _ _ _ _ _ Hsleep).
  rewrite (sync_pass_unfold _ _ _ _ _ _ Hc1 Hs).
  rewrite py_range_nil by lia. reflexivity.
Qed.

(** First start from block 100 with the head at 103, then a second pass
    with the head still at 103: one more log line, nothing else. *)
Lemma caught_up_engine_idles_witness :
  max_block
    (store (snd (sync_pass from_100 reliable (view main_chain 103)
                   (boot []))))
  = Some 103
  /\ sync_loop from_100 reliable [view main_chain 103; view main_chain 103]
       (boot [])
     = (Return tt,
        logged (snd (sync_pass from_100 reliable (view main_chain 103)
                       (boot [])))
          [InfoBest 103 103]).
Proof.
  apply (caught_up_engine_idles from_100 reliable (view main_chain 103)
           (boot []) 100 103).
  - reflexivity.
  - reflexivity.
  - lia.
  - intros _. reflexivity.
  - lia.
  - intros h _. constructor; [discriminate | constructor].
  - intros h _. unfold kept, discarded. simpl.
    destruct (h =? 0); simpl; repeat constructor; discriminate.
  - intros rows r. reflexivity.
  - intros h. reflexivity.
  - discriminate.
  - exact (sleeps_of_period from_100 20 eq_refl eq_refl).
Defined.

(* ================================================================== *)
(** ** The provider *)

Lemma prefix_trans (p q s : string) :
  String.prefix p q = true -> String.prefix q s = true ->
  String.prefix p s = true.
Proof.
  revert q s. induction p as [|a p IH]; intros q s Hpq Hqs;
    [now destruct s|].
  destruct q as [|b q]; [discriminate Hpq|].
  destruct s as [|c s]; [discriminate Hqs|].
  simpl in *.
  destruct (ascii_dec a b) as [->|]; [|discriminate Hpq].
  destruct (ascii_dec b c) as [->|]; [|discriminate Hqs].
  destruct (ascii_dec c c); [|contradiction]. now apply IH with (q := q).
Qed.

(** The choice of lines 42-47 looks at the first characters of the URL
    only, and for ["http"] first: every URL that starts with ["http://"]
    or ["https://"] is given the HTTP provider, every URL that starts
    with ["ws://"] or ["wss://"] the websocket provider, and a path that
    starts with ["/"] the IPC provider. *)
Theorem provider_follows_url_scheme (nodeUrl : string) :
  (startswith nodeUrl "http://" = true \/ startswith nodeUrl "https://" = true
   -> connect_node nodeUrl = HTTPProvider nodeUrl)
  /\ (startswith nodeUrl "ws://" = true \/ startswith nodeUrl "wss://" = true
      -> connect_node nodeUrl = WebsocketProvider nodeUrl)
  /\ (startswith nodeUrl "/" = true
      -> connect_node nodeUrl = IPCProvider nodeUrl).
Proof.
  unfold connect_node, startswith. split; [|split].
  - intros [H|H];
      [rewrite (prefix_trans "http" "http://" nodeUrl eq_refl H)
      |rewrite (prefix_trans "http" "https://" nodeUrl eq_refl H)];
      reflexivity.
  - intros H.
    assert (Hw : String.prefix "ws" nodeUrl = true)
      by (destruct H as [H|H];
          [exact (prefix_trans "ws" "ws://" nodeUrl eq_refl H)
          |exact (prefix_trans "ws" "wss://" nodeUrl eq_refl H)]).
    rewrite Hw.
    destruct nodeUrl as [|c s]; [discriminate Hw|].
    assert (Hc : c = "w"%char).
    { revert Hw. cbn [String.prefix].
      destruct (ascii_dec "w" c); [congruence | discriminate]. }
    subst c. reflexivity.
  - intros H. destruct nodeUrl as [|c s]; [discriminate H|].
    assert (Hc : c = "/"%char).
    { revert H. cbn [String.prefix].
      destruct (ascii_dec "/" c); [congruence | discriminate]. }
    subst c. reflexivity.
Qed.

(** A secured websocket endpoint. *)
Lemma provider_follows_url_scheme_witness :
  connect_node "wss://publicnode:8546"
  = WebsocketProvider "wss://publicnode:8546".
Proof.
  apply (proj1 (proj2 (provider_follows_url_scheme "wss://publicnode:8546"))).
  right. reflexivity.
Defined.

(* ================================================================== *)
(** ** The period *)


